(** * StockVision: the client-side alert pipeline of [user_dashboard.js]

    A shallow embedding of the alert store ([getAlerts], [saveAlerts],
    [deleteAlert], [handleAlertSubmit]), the mock ticker
    ([startMockTicker]), the threshold evaluator ([checkAlerts]) and the
    notification dispatcher ([notifyUser]), with the properties the
    specification states about them.

    Conventions.
    - A JavaScript string is the list of its UTF-16 code units.
    - A JavaScript Number is an IEEE-754 binary64 value, modelled by the
      Standard Library's [spec_float] at precision 53 and maximal
      exponent 1024, with the library's correctly rounded operations.
    - Rendering ([renderAlerts], the form reset) is left out; what the
      code writes to the console, to [window.alert], to the notification
      API and to the network is kept as logs in the state.
    - Exceptions are explicit: a computation that can throw returns a
      [result]. *)

From Stdlib Require Import ZArith NArith List Bool String Ascii.
From Stdlib Require Import QArith Qabs Qpower Lqa Lia.
From Stdlib Require Import Floats.SpecFloat.
Import ListNotations.

Local Open Scope Z_scope.
Set Warnings "-register-all".

(** ** Strings *)

Definition jsstring := list N.

(** The code units of an ASCII literal. *)
Definition js (s : string) : jsstring :=
  map N_of_ascii (list_ascii_of_string s).

Fixpoint jsstring_eqb (a b : jsstring) : bool :=
  match a, b with
  | [], [] => true
  | x :: a', y :: b' => N.eqb x y && jsstring_eqb a' b'
  | _, _ => false
  end.

(** ** Exceptions *)

Inductive exn := SyntaxError | TypeError.

Inductive result (A : Type) :=
| Return (a : A)
| Throw (e : exn).
Arguments Return {A} a.
Arguments Throw {A} e.

Definition bind {A B} (r : result A) (k : A -> result B) : result B :=
  match r with
  | Return a => k a
  | Throw e => Throw e
  end.

Notation "x <- r ;; k" := (bind r (fun x => k))
  (at level 61, r at next level, right associativity).
Notation "' p <- r ;; k" := (bind r (fun p => k))
  (at level 61, p pattern, r at next level, right associativity).

(** ** Numbers *)

Module Number.

Definition number := spec_float.

Definition prec : Z := 53.
Definition emax : Z := 1024.

Definition NaN : number := S754_nan.

Definition add : number -> number -> number := SFadd prec emax.
Definition sub : number -> number -> number := SFsub prec emax.
Definition mul : number -> number -> number := SFmul prec emax.

(** [x < y] and [x > y]; both are false as soon as an operand is NaN. *)
Definition lt (x y : number) : bool := SFltb x y.
Definition gt (x y : number) : bool := SFltb y x.

(** [x === y] on two Numbers. *)
Definition strict_eq (x y : number) : bool := SFeqb x y.

(** ToBoolean on a Number: [+0], [-0] and [NaN] are falsy. *)
Definition truthy (x : number) : bool :=
  match x with
  | S754_zero _ | S754_nan => false
  | _ => true
  end.

Definition is_zero (x : number) : bool :=
  match x with
  | S754_zero _ => true
  | _ => false
  end.

(** The Number an integer literal denotes. *)
Definition of_Z (z : Z) : number := binary_normalize prec emax z 0 false.

(** The Number nearest to [(-1)^neg * m * 10^e] (ties to even): the
    value of a decimal literal with digits [m] and exponent [e]. *)
Definition of_decimal (neg : bool) (m : N) (e : Z) : number :=
  match m with
  | N0 => S754_zero neg
  | Npos p =>
      match e with
      | Zneg k =>
          let '(q, e', l) :=
            SFdiv_core_binary prec emax (Zpos p) 0 (Z.pow 10 (Zpos k)) 0 in
          binary_round_aux prec emax neg q e' l
      | _ => binary_round prec emax neg (Pos.mul p (Z.to_pos (Z.pow 10 e))) 0
      end
  end.

(** [Math.floor] of a finite Number, as an integer. *)
Definition floor (x : number) : option Z :=
  match x with
  | S754_zero _ => Some 0
  | S754_finite s m e =>
      Some (Z.shiftl (if s then Zneg m else Zpos m) e)
  | _ => None
  end.

End Number.
Import Number.

(** ** Decimal literals and [parseFloat] *)

Definition is_digit (c : N) : bool := (N.leb 48 c && N.leb c 57)%bool.

Definition digit_value (c : N) : N := (c - 48)%N.

(** The longest prefix of decimal digits, and what follows it. *)
Fixpoint span_digits (s : jsstring) : jsstring * jsstring :=
  match s with
  | c :: r =>
      if is_digit c
      then let '(ds, rest) := span_digits r in (c :: ds, rest)
      else ([], s)
  | [] => ([], [])
  end.

Definition digits_value (ds : jsstring) : N :=
  fold_left (fun acc c => (acc * 10 + digit_value c)%N) ds 0%N.

Fixpoint is_prefix (p s : jsstring) : bool :=
  match p, s with
  | [], _ => true
  | x :: p', y :: s' => N.eqb x y && is_prefix p' s'
  | _ :: _, [] => false
  end.

(** WhiteSpace and LineTerminator code units, as [String.prototype.trim]
    and [parseFloat] skip them. *)
Definition is_StrWhiteSpaceChar (c : N) : bool :=
  existsb (N.eqb c)
    [9; 10; 11; 12; 13; 32; 160; 5760; 8232; 8233; 8239; 8287; 12288; 65279]%N
  || (N.leb 8192 c && N.leb c 8202).

Fixpoint trim_start (s : jsstring) : jsstring :=
  match s with
  | c :: r => if is_StrWhiteSpaceChar c then trim_start r else s
  | [] => []
  end.

(** The exponent of the longest ExponentPart at the head of [s]; 0 when
    [s] does not start with one. *)
Definition exponent_part (s : jsstring) : Z :=
  match s with
  | c :: r =>
      if (N.eqb c 101 || N.eqb c 69)%bool then
        match r with
        | 43%N :: r' => Z.of_N (digits_value (fst (span_digits r')))
        | 45%N :: r' => - Z.of_N (digits_value (fst (span_digits r')))
        | _ => Z.of_N (digits_value (fst (span_digits r)))
        end
      else 0
  | [] => 0
  end.

(** The value of the longest StrUnsignedDecimalLiteral at the head of
    [s], negated when [neg]; NaN when there is none. *)
Definition unsigned_literal (neg : bool) (s : jsstring) : number :=
  if is_prefix (js "Infinity") s then S754_infinity neg
  else
    let '(ip, r) := span_digits s in
    match ip, r with
    | _ :: _, 46%N :: r' =>
        let '(fp, r'') := span_digits r' in
        of_decimal neg (digits_value (ip ++ fp))
          (exponent_part r'' - Z.of_nat (List.length fp))
    | _ :: _, _ => of_decimal neg (digits_value ip) (exponent_part r)
    | [], 46%N :: r' =>
        let '(fp, r'') := span_digits r' in
        match fp with
        | [] => NaN
        | _ => of_decimal neg (digits_value fp)
                 (exponent_part r'' - Z.of_nat (List.length fp))
        end
    | [], _ => NaN
    end.

Definition parseFloat (s : jsstring) : number :=
  match trim_start s with
  | 43%N :: r => unsigned_literal false r
  | 45%N :: r => unsigned_literal true r
  | t => unsigned_literal false t
  end.

(** ** JSON texts *)

Module JSON.

Inductive json :=
| JNull
| JBool (b : bool)
| JNum (n : number)
| JStr (s : jsstring)
| JArr (elements : list json)
| JObj (members : list (jsstring * json)).

Inductive token :=
| TLBracket | TRBracket | TLBrace | TRBrace | TComma | TColon
| TStr (s : jsstring)
| TAtom (v : json).

(** *** Lexer: one code unit at a time *)

Inductive num_stage :=
| NMinus | NZero | NInt | NDot | NFrac | NE | NESign | NExp.

Record num_acc := mk_num {
  neg : bool;      (* a leading minus sign *)
  mant : N;        (* the digits read so far, without the point *)
  scale : Z;       (* how many of them follow the point *)
  eneg : bool;     (* a minus sign in the exponent *)
  expo : N         (* the exponent digits *)
}.

Inductive lex_state :=
| LStart
| LLit (rest : jsstring) (v : json)
| LStr (acc : jsstring)
| LEsc (acc : jsstring)
| LUni (acc : jsstring) (k : nat) (v : N)
| LNum (stage : num_stage) (a : num_acc).

Definition num_value (a : num_acc) : number :=
  of_decimal (neg a) (mant a)
    ((if eneg a then - Z.of_N (expo a) else Z.of_N (expo a)) - scale a).

Definition push_int (a : num_acc) (c : N) : num_acc :=
  mk_num (neg a) (mant a * 10 + digit_value c) (scale a) (eneg a) (expo a).

Definition push_frac (a : num_acc) (c : N) : num_acc :=
  mk_num (neg a) (mant a * 10 + digit_value c) (scale a + 1) (eneg a) (expo a).

Definition push_exp (a : num_acc) (c : N) : num_acc :=
  mk_num (neg a) (mant a) (scale a) (eneg a) (expo a * 10 + digit_value c).

Definition set_eneg (a : num_acc) : num_acc :=
  mk_num (neg a) (mant a) (scale a) true (expo a).

Definition is_ws (c : N) : bool :=
  (N.eqb c 32 || N.eqb c 9 || N.eqb c 10 || N.eqb c 13)%bool.

Definition is_e (c : N) : bool := (N.eqb c 101 || N.eqb c 69)%bool.

Definition hex_value (c : N) : option N :=
  if is_digit c then Some (c - 48)%N
  else if (N.leb 97 c && N.leb c 102)%bool then Some (c - 87)%N
  else if (N.leb 65 c && N.leb c 70)%bool then Some (c - 55)%N
  else None.

(** A code unit met between two tokens. *)
Definition start_char (c : N) : result (list token * lex_state) :=
  if is_ws c then Return ([], LStart)
  else if N.eqb c 91 then Return ([TLBracket], LStart)
  else if N.eqb c 93 then Return ([TRBracket], LStart)
  else if N.eqb c 123 then Return ([TLBrace], LStart)
  else if N.eqb c 125 then Return ([TRBrace], LStart)
  else if N.eqb c 44 then Return ([TComma], LStart)
  else if N.eqb c 58 then Return ([TColon], LStart)
  else if N.eqb c 34 then Return ([], LStr [])
  else if N.eqb c 116 then Return ([], LLit (js "rue") (JBool true))
  else if N.eqb c 102 then Return ([], LLit (js "alse") (JBool false))
  else if N.eqb c 110 then Return ([], LLit (js "ull") JNull)
  else if N.eqb c 45 then Return ([], LNum NMinus (mk_num true 0 0 false 0))
  else if N.eqb c 48 then Return ([], LNum NZero (mk_num false 0 0 false 0))
  else if is_digit c
       then Return ([], LNum NInt (mk_num false (digit_value c) 0 false 0))
  else Throw SyntaxError.

(** The number literal ends before [c]. *)
Definition end_number (a : num_acc) (c : N) : result (list token * lex_state) :=
  '(toks, st) <- start_char c ;;
  Return (TAtom (JNum (num_value a)) :: toks, st).

Definition lex_step (st : lex_state) (c : N) : result (list token * lex_state) :=
  match st with
  | LStart => start_char c
  | LLit [] _ => Throw SyntaxError
  | LLit (x :: rest) v =>
      if N.eqb c x then
        match rest with
        | [] => Return ([TAtom v], LStart)
        | _ => Return ([], LLit rest v)
        end
      else Throw SyntaxError
  | LStr acc =>
      if N.eqb c 34 then Return ([TStr (rev acc)], LStart)
      else if N.eqb c 92 then Return ([], LEsc acc)
      else if N.ltb c 32 then Throw SyntaxError
      else Return ([], LStr (c :: acc))
  | LEsc acc =>
      if N.eqb c 34 then Return ([], LStr (34%N :: acc))
      else if N.eqb c 92 then Return ([], LStr (92%N :: acc))
      else if N.eqb c 47 then Return ([], LStr (47%N :: acc))
      else if N.eqb c 98 then Return ([], LStr (8%N :: acc))
      else if N.eqb c 102 then Return ([], LStr (12%N :: acc))
      else if N.eqb c 110 then Return ([], LStr (10%N :: acc))
      else if N.eqb c 114 then Return ([], LStr (13%N :: acc))
      else if N.eqb c 116 then Return ([], LStr (9%N :: acc))
      else if N.eqb c 117 then Return ([], LUni acc 3 0)
      else Throw SyntaxError
  | LUni acc k v =>
      match hex_value c with
      | Some d =>
          match k with
          | O => Return ([], LStr ((v * 16 + d)%N :: acc))
          | S k' => Return ([], LUni acc k' (v * 16 + d)%N)
          end
      | None => Throw SyntaxError
      end
  | LNum NMinus a =>
      if N.eqb c 48 then Return ([], LNum NZero a)
      else if is_digit c then Return ([], LNum NInt (push_int a c))
      else Throw SyntaxError
  | LNum NZero a =>
      if N.eqb c 46 then Return ([], LNum NDot a)
      else if is_e c then Return ([], LNum NE a)
      else end_number a c
  | LNum NInt a =>
      if is_digit c then Return ([], LNum NInt (push_int a c))
      else if N.eqb c 46 then Return ([], LNum NDot a)
      else if is_e c then Return ([], LNum NE a)
      else end_number a c
  | LNum NDot a =>
      if is_digit c then Return ([], LNum NFrac (push_frac a c))
      else Throw SyntaxError
  | LNum NFrac a =>
      if is_digit c then Return ([], LNum NFrac (push_frac a c))
      else if is_e c then Return ([], LNum NE a)
      else end_number a c
  | LNum NE a =>
      if N.eqb c 43 then Return ([], LNum NESign a)
      else if N.eqb c 45 then Return ([], LNum NESign (set_eneg a))
      else if is_digit c then Return ([], LNum NExp (push_exp a c))
      else Throw SyntaxError
  | LNum NESign a =>
      if is_digit c then Return ([], LNum NExp (push_exp a c))
      else Throw SyntaxError
  | LNum NExp a =>
      if is_digit c then Return ([], LNum NExp (push_exp a c))
      else end_number a c
  end.

(** The end of the text. *)
Definition lex_finish (st : lex_state) : result (list token) :=
  match st with
  | LStart => Return []
  | LNum (NZero | NInt | NFrac | NExp) a => Return [TAtom (JNum (num_value a))]
  | _ => Throw SyntaxError
  end.

Fixpoint lex (st : lex_state) (s : jsstring) : result (list token) :=
  match s with
  | [] => lex_finish st
  | c :: r =>
      '(toks, st') <- lex_step st c ;;
      rest <- lex st' r ;;
      Return (toks ++ rest)
  end.

(** *** Parser: a stack of the containers still open *)

Inductive frame :=
| FArr (done : list json)
| FObj (done : list (jsstring * json)) (key : option jsstring).

Inductive mode :=
| MValue          (* a value must follow *)
| MValueOrClose   (* just after an opening bracket *)
| MKeyOrClose     (* just after an opening brace *)
| MKey            (* after a comma inside an object *)
| MColon          (* after a member name *)
| MAfter          (* after a value inside a container *)
| MDone (v : json).

(** A value is complete: it goes to the innermost open container. *)
Definition complete (v : json) (stack : list frame) : result (mode * list frame) :=
  match stack with
  | [] => Return (MDone v, [])
  | FArr done :: s => Return (MAfter, FArr (v :: done) :: s)
  | FObj done (Some k) :: s => Return (MAfter, FObj ((k, v) :: done) None :: s)
  | FObj _ None :: _ => Throw SyntaxError
  end.

Definition value_start (t : token) (stack : list frame) : result (mode * list frame) :=
  match t with
  | TAtom v => complete v stack
  | TStr s => complete (JStr s) stack
  | TLBracket => Return (MValueOrClose, FArr [] :: stack)
  | TLBrace => Return (MKeyOrClose, FObj [] None :: stack)
  | _ => Throw SyntaxError
  end.

Definition close_array (stack : list frame) : result (mode * list frame) :=
  match stack with
  | FArr done :: s => complete (JArr (rev done)) s
  | _ => Throw SyntaxError
  end.

Definition close_object (stack : list frame) : result (mode * list frame) :=
  match stack with
  | FObj done None :: s => complete (JObj (rev done)) s
  | _ => Throw SyntaxError
  end.

Definition member_name (k : jsstring) (stack : list frame) : result (mode * list frame) :=
  match stack with
  | FObj done None :: s => Return (MColon, FObj done (Some k) :: s)
  | _ => Throw SyntaxError
  end.

Definition parse_step (m : mode) (stack : list frame) (t : token)
  : result (mode * list frame) :=
  match m, t with
  | MValue, _ => value_start t stack
  | MValueOrClose, TRBracket => close_array stack
  | MValueOrClose, _ => value_start t stack
  | MKeyOrClose, TRBrace => close_object stack
  | MKeyOrClose, TStr k => member_name k stack
  | MKey, TStr k => member_name k stack
  | MColon, TColon => Return (MValue, stack)
  | MAfter, TComma =>
      match stack with
      | FArr _ :: _ => Return (MValue, stack)
      | FObj _ None :: _ => Return (MKey, stack)
      | _ => Throw SyntaxError
      end
  | MAfter, TRBracket => close_array stack
  | MAfter, TRBrace => close_object stack
  | _, _ => Throw SyntaxError
  end.

Fixpoint parse_tokens (m : mode) (stack : list frame) (ts : list token)
  : result json :=
  match ts with
  | [] =>
      match m with
      | MDone v => Return v
      | _ => Throw SyntaxError
      end
  | t :: r =>
      '(m', stack') <- parse_step m stack t ;;
      parse_tokens m' stack' r
  end.

(** [JSON.parse(text)]: the value of a well-formed text, SyntaxError
    otherwise. *)
Definition parse (text : jsstring) : result json :=
  ts <- lex LStart text ;;
  parse_tokens MValue [] ts.

(** Property lookup on a parsed object: a later member of the same name
    overrides an earlier one. *)
Fixpoint lookup (k : jsstring) (members : list (jsstring * json)) : option json :=
  match members with
  | [] => None
  | (k', v) :: r =>
      match lookup k r with
      | Some v' => Some v'
      | None => if jsstring_eqb k k' then Some v else None
      end
  end.

(** ToBoolean. *)
Definition truthy (v : json) : bool :=
  match v with
  | JNull => false
  | JBool b => b
  | JNum n => Number.truthy n
  | JStr s => match s with [] => false | _ => true end
  | JArr _ | JObj _ => true
  end.

End JSON.
Import JSON.

(** ** The alert sequence as [localStorage] text

    [getAlerts] of the source, on the text that [localStorage] holds
    under the key [stockVisionAlerts] ([None] when the key is unset). *)

Module Raw.

(** [localStorage.getItem(key) || '[]']: a missing key reads as [null],
    and the empty string is falsy as well. *)
Definition item_or_default (item : option jsstring) : jsstring :=
  match item with
  | None | Some [] => js "[]"
  | Some text => text
  end.

Definition getAlerts (item : option jsstring) : result json :=
  JSON.parse (item_or_default item).

End Raw.

(** ** Alerts *)

(** A threshold is a Number or [null]. *)
Definition threshold := option number.

(** The object literal [{symbol, high, low, id}] that [handleAlertSubmit]
    builds.  [id] is the time value [Date.now()] returned: an integral
    Number below 2^53 in magnitude, on which [!==] is integer
    disequality and which JSON text carries exactly. *)
Record alert := mk_alert {
  symbol : jsstring;
  high : threshold;
  low : threshold;
  id : Z
}.

(** ToBoolean on a threshold: [null], [0], [-0] and [NaN] are falsy.
    This is the test the source writes as [alert.high && ...]: a
    threshold is _set_ when it passes it. *)
Definition is_set (t : threshold) : bool :=
  match t with
  | Some n => Number.truthy n
  | None => false
  end.

(** [n || null]. *)
Definition or_null (n : number) : threshold :=
  if Number.truthy n then Some n else None.

(** [t || d] for a threshold [t] and a Number [d]. *)
Definition or_else (t : threshold) (d : number) : number :=
  match t with
  | Some n => if Number.truthy n then n else d
  | None => d
  end.

(** *** What JSON text keeps of an alert

    [saveAlerts] writes [JSON.stringify(alerts)] and [getAlerts] reads it
    back with [JSON.parse].  [JSON.stringify] writes a Number that is not
    finite as [null] and [-0] as [0]; every other Number is written with
    digits that parse back to it.  Strings and [null] come back as they
    were. *)

Definition JSON_number (n : number) : threshold :=
  match n with
  | S754_zero _ => Some (S754_zero false)
  | S754_finite _ _ _ => Some n
  | S754_infinity _ | S754_nan => None
  end.

Definition JSON_threshold (t : threshold) : threshold :=
  match t with
  | Some n => JSON_number n
  | None => None
  end.

Definition JSON_alert (a : alert) : alert :=
  mk_alert (symbol a) (JSON_threshold (high a)) (JSON_threshold (low a)) (id a).

(** [JSON.parse(JSON.stringify(alerts))]. *)
Definition JSON_roundtrip (alerts : list alert) : list alert :=
  map JSON_alert alerts.

(** The JSON document [JSON.stringify(alerts)] denotes. *)
Definition json_of_threshold (t : threshold) : json :=
  match JSON_threshold t with
  | Some n => JNum n
  | None => JNull
  end.

Definition json_of_alert (a : alert) : json :=
  JObj [ (js "symbol", JStr (symbol a));
         (js "high", json_of_threshold (high a));
         (js "low", json_of_threshold (low a));
         (js "id", JNum (of_Z (id a))) ].

Definition json_of_alerts (alerts : list alert) : json :=
  JArr (map json_of_alert alerts).

(** ** The browser state the pipeline reads and writes *)

Inductive permission := granted | denied | default.

Inductive level := console_log | console_warn | console_error.

(** A console call: its level and its first argument. *)
Record entry := mk_entry { lvl : level; label : jsstring }.

Record state := mk_state {
  (** [localStorage.stockVisionAlerts], as the alert sequence its text
      denotes; [None] when the key is unset *)
  stockVisionAlerts : option (list alert);
  (** [sessionStorage.lastNotification] *)
  lastNotification : option jsstring;
  (** number of pending [setTimeout] callbacks that remove
      [lastNotification] *)
  resets : nat;
  (** [Notification.permission]; [None] when [window] has no
      [Notification] *)
  Notification_permission : option permission;
  (** bodies of the [Notification] objects created, oldest first *)
  notifications : list jsstring;
  (** [message] payloads posted to [/api/alert/trigger], oldest first *)
  requests : list jsstring;
  (** console output, oldest first *)
  console : list entry;
  (** messages shown with [window.alert], oldest first *)
  dialogs : list jsstring
}.

Definition set_alerts (v : option (list alert)) (st : state) : state :=
  mk_state v (lastNotification st) (resets st) (Notification_permission st)
    (notifications st) (requests st) (console st) (dialogs st).

Definition add_console (e : entry) (st : state) : state :=
  mk_state (stockVisionAlerts st) (lastNotification st) (resets st)
    (Notification_permission st) (notifications st) (requests st)
    (console st ++ [e]) (dialogs st).

Definition add_dialog (m : jsstring) (st : state) : state :=
  mk_state (stockVisionAlerts st) (lastNotification st) (resets st)
    (Notification_permission st) (notifications st) (requests st)
    (console st) (dialogs st ++ [m]).

(** ** Alert store *)

(** [getAlerts] on a store whose text denotes an alert sequence
    ([Raw.getAlerts] is the same function on the text itself). *)
Definition getAlerts (st : state) : list alert :=
  match stockVisionAlerts st with
  | Some alerts => alerts
  | None => []
  end.

(** [localStorage.setItem(key, JSON.stringify(alerts))]: the store then
    holds what the written text reads back as. *)
Definition saveAlerts (alerts : list alert) (st : state) : state :=
  set_alerts (Some (JSON_roundtrip alerts)) st.

(** [getAlerts().filter(a => a.id !== id)], saved. *)
Definition deleteAlert (i : Z) (st : state) : state :=
  let alerts := filter (fun a => negb (Z.eqb (id a) i)) (getAlerts st) in
  saveAlerts alerts st.

(** [handleAlertSubmit]: [sym], [highText] and [lowText] are the values
    of the three form fields, [now] is [Date.now()]. *)
Definition handleAlertSubmit (sym highText lowText : jsstring) (now : Z)
    (st : state) : state :=
  let high := parseFloat highText in
  let low := parseFloat lowText in
  if negb (Number.truthy high) && negb (Number.truthy low) then
    add_dialog (js "Please set at least one threshold (High or Low).") st
  else
    let alertData := mk_alert sym (or_null high) (or_null low) now in
    let alerts := getAlerts st in
    let st1 := saveAlerts (alerts ++ [alertData]) st in
    add_dialog (js "Alert set for " ++ sym) st1.

(** ** Notification dispatcher *)

(** [lastNotif && lastNotif === message] *)
Definition is_duplicate (lastNotif : option jsstring) (message : jsstring) : bool :=
  match lastNotif with
  | Some [] | None => false
  | Some l => jsstring_eqb l message
  end.

Definition notifyUser (message : jsstring) (st : state) : state :=
  if is_duplicate (lastNotification st) message then st
  else
    mk_state (stockVisionAlerts st)
      (Some message)
      (S (resets st))
      (Notification_permission st)
      (match Notification_permission st with
       | Some granted => notifications st ++ [message]
       | _ => notifications st
       end)
      (requests st ++ [message])
      (console st ++ [mk_entry console_log (js "ALERT:")])
      (dialogs st).

(** One pending [setTimeout] callback runs:
    [sessionStorage.removeItem('lastNotification')]. *)
Definition fire_reset (st : state) : state :=
  match resets st with
  | O => st
  | S n =>
      mk_state (stockVisionAlerts st) None n (Notification_permission st)
        (notifications st) (requests st) (console st) (dialogs st)
  end.

(** How a request to [/api/alert/trigger] ends: [fetch] rejects, or a
    response arrives with some body text. *)
Inductive outcome :=
| NetworkError
| Response (body : jsstring).

(** The second [then] callback, on the value [res.json()] produced.
    Reading [data.success] throws on [null]; on a value that is not an
    object it reads [undefined]. *)
Definition on_data (data : json) : result entry :=
  match data with
  | JNull => Throw TypeError
  | JObj members =>
      match JSON.lookup (js "success") members with
      | Some v =>
          if JSON.truthy v
          then Return (mk_entry console_log (js "[Alert] Backend trigger results:"))
          else Return (mk_entry console_warn (js "[Alert] Backend trigger failed:"))
      | None => Return (mk_entry console_warn (js "[Alert] Backend trigger failed:"))
      end
  | _ => Return (mk_entry console_warn (js "[Alert] Backend trigger failed:"))
  end.

(** The promise chain [fetch(...).then(res => res.json()).then(...)
    .catch(...)] once the request has ended. *)
Definition settle (o : outcome) (st : state) : state :=
  let chain :=
    match o with
    | NetworkError => Throw TypeError
    | Response body => data <- JSON.parse body ;; on_data data
    end in
  match chain with
  | Return e => add_console e st
  | Throw _ => add_console (mk_entry console_error (js "[Alert] Backend trigger error:")) st
  end.

(** A request has failed when [fetch] rejected, the body was not JSON, or
    the data did not carry a truthy [success]. *)
Definition failed (o : outcome) : bool :=
  match o with
  | NetworkError => true
  | Response body =>
      match JSON.parse body with
      | Return (JObj members) =>
          match JSON.lookup (js "success") members with
          | Some v => negb (JSON.truthy v)
          | None => true
          end
      | _ => true
      end
  end.

(** ** Threshold evaluator and mock ticker *)

Inductive breach_kind := HighBreach | LowBreach.

(** A breach event: which threshold of which alert was crossed. *)
Record breach := mk_breach { kind : breach_kind; of_alert : alert }.

(** [alert.high && price > alert.high] *)
Definition high_breached (a : alert) (price : number) : bool :=
  match high a with
  | Some h => Number.truthy h && Number.gt price h
  | None => false
  end.

(** [alert.low && price < alert.low] *)
Definition low_breached (a : alert) (price : number) : bool :=
  match low a with
  | Some l => Number.truthy l && Number.lt price l
  | None => false
  end.

(** The body of the [forEach] callback, as the events it raises. *)
Definition breaches_of (a : alert) (price : number) : list breach :=
  (if high_breached a price then [mk_breach HighBreach a] else [])
  ++ (if low_breached a price then [mk_breach LowBreach a] else []).

(** The events of one [checkAlerts(symbol, price)], in order. *)
Definition breaches (alerts : list alert) (sym : jsstring) (price : number)
    : list breach :=
  flat_map (fun a => breaches_of a price)
    (filter (fun a => jsstring_eqb (symbol a) sym) alerts).

Definition basePrice (randomAlert : alert) : number :=
  or_else (high randomAlert) (or_else (low randomAlert) (of_Z 3000)).

(** The arithmetic an expression is evaluated in: its three operations
    and the value of a decimal literal [m * 10^e]. *)
Record arithmetic (T : Type) := mk_arithmetic {
  plus : T -> T -> T;
  minus : T -> T -> T;
  times : T -> T -> T;
  decimal : N -> Z -> T
}.
Arguments plus {T} _ _ _.
Arguments minus {T} _ _ _.
Arguments times {T} _ _ _.
Arguments decimal {T} _ _ _.

(** The arithmetic of the source: binary64, every operation and every
    literal rounded to nearest. *)
Definition binary64 : arithmetic number :=
  mk_arithmetic number Number.add Number.sub Number.mul (of_decimal false).

(** [basePrice + (Math.random() - 0.5) * (basePrice * 0.1)], for the
    draw [u]. *)
Definition price_expression {T} (A : arithmetic T) (basePrice u : T) : T :=
  plus A basePrice
    (times A (minus A u (decimal A 5 (-1)))
             (times A basePrice (decimal A 1 (-1)))).

(** The price the ticker computes. *)
Definition currentPrice (basePrice u : number) : number :=
  price_expression binary64 basePrice u.

Section Ticker.

(** The text of a Number in a template literal, and
    [Number.prototype.toFixed]; no property below depends on the
    digits they produce. *)
Variable Number_toString : number -> jsstring.
Variable toFixed : number -> nat -> jsstring.

Definition threshold_toString (t : threshold) : jsstring :=
  match t with
  | Some n => Number_toString n
  | None => js "null"
  end.

(** The two template literals of [checkAlerts]. *)
Definition message (sym : jsstring) (price : number) (b : breach) : jsstring :=
  match kind b with
  | HighBreach =>
      [240; 376; 353; 8364; 32]%N ++ sym ++ js " crossed above "
      ++ [226; 8218; 185]%N ++ threshold_toString (high (of_alert b))
      ++ js "! Current: " ++ [226; 8218; 185]%N ++ toFixed price 2
  | LowBreach =>
      [240; 376; 8221; 187; 32]%N ++ sym ++ js " dropped below "
      ++ [226; 8218; 185]%N ++ threshold_toString (low (of_alert b))
      ++ js "! Current: " ++ [226; 8218; 185]%N ++ toFixed price 2
  end.

Definition checkAlerts (sym : jsstring) (price : number) (st : state) : state :=
  let alerts := getAlerts st in
  fold_left (fun s b => notifyUser (message sym price b) s)
    (breaches alerts sym price) st.

(** One run of the [setInterval] callback of [startMockTicker]; [u1]
    and [u2] are its two [Math.random()] draws, in order. *)
Definition tick (u1 u2 : number) (st : state) : result state :=
  let alerts := getAlerts st in
  match alerts with
  | [] => Return st
  | _ =>
      let index :=
        match Number.floor (Number.mul u1 (of_Z (Z.of_nat (List.length alerts)))) with
        | Some i => if i <? 0 then None else nth_error alerts (Z.to_nat i)
        | None => None
        end in
      match index with
      | None => Throw TypeError
      | Some randomAlert =>
          let base := basePrice randomAlert in
          Return (checkAlerts (symbol randomAlert) (currentPrice base u2) st)
      end
  end.

End Ticker.

(** ** Vocabulary of the properties *)

(** At least one of [high] and [low] is not [null]. *)
Definition has_threshold (a : alert) : bool :=
  match high a, low a with
  | None, None => false
  | _, _ => true
  end.

Definition is_infinite (n : number) : bool :=
  match n with
  | S754_infinity _ => true
  | _ => false
  end.

(** The local notification one dispatch of [m] shows in [st]. *)
Definition shown (st : state) (m : jsstring) : list jsstring :=
  match Notification_permission st with
  | Some granted => [m]
  | _ => []
  end.

(** A computation that throws nothing but SyntaxError. *)
Definition syntax_only {A} (r : result A) : Prop :=
  forall e, r = Throw e -> e = SyntaxError.

(** The stored text carries the sequence as it is: what [saveAlerts]
    writes reads back unchanged. *)
Definition persisted (alerts : list alert) : Prop :=
  JSON_roundtrip alerts = alerts.

(** The rational a finite Number is. *)
Definition exact_value (x : number) : option Q :=
  match x with
  | S754_zero _ => Some 0%Q
  | S754_finite s m e =>
      Some (inject_Z (if s then Zneg m else Zpos m) * Qpower (2 # 1) e)%Q
  | S754_infinity _ | S754_nan => None
  end.

(** The power of two [2^e], as a rational. *)
Definition pow2 (e : Z) : Q := Qpower (2 # 1) e.

(** The bound on the error of one rounding of the number [x] to
    binary64: 2^-53 of it, plus 2^-1075. *)
Definition rounding_error (x : Q) : Q :=
  (1 # 9007199254740992) * Qabs x + pow2 (-1075).

(** What [n] steps of [shr_1] keep of the number [m0] they started
    from: the quotient by [2^n], whether the remainder reaches half of
    [2^n], and, when the sticky bit is off, that the remainder is zero
    or exactly that half. *)
Definition shifted (m0 n : Z) (mrs : shr_record) : Prop :=
  0 <= shr_m mrs
  /\ 0 <= m0 - shr_m mrs * 2 ^ n < 2 ^ n
  /\ (shr_r mrs = true <-> 2 ^ n <= 2 * (m0 - shr_m mrs * 2 ^ n))
  /\ (shr_s mrs = false ->
      m0 - shr_m mrs * 2 ^ n = 0 \/ 2 * (m0 - shr_m mrs * 2 ^ n) = 2 ^ n).

(** A text denotes an alert sequence when [JSON.parse] reads the
    document [JSON.stringify] writes for that sequence. *)
Definition denotes (text : jsstring) (alerts : list alert) : Prop :=
  JSON.parse text = Return (json_of_alerts alerts).

(** ** Sample data *)

(** A quoted JSON string. *)
Definition quoted (s : string) : jsstring := [34%N] ++ js s ++ [34%N].

(** The text [saveAlerts] leaves for the single alert [reliance_3000]
    below. *)
Definition reliance_text : jsstring :=
  js "[{" ++ quoted "symbol" ++ js ":" ++ quoted "RELIANCE" ++ js ","
  ++ quoted "high" ++ js ":3000," ++ quoted "low" ++ js ":null,"
  ++ quoted "id" ++ js ":1700000000000}]".

(** A session in which nothing has happened yet. *)
Definition fresh (p : option permission) : state :=
  mk_state None None 0 p [] [] [] [].

Definition reliance_3000 : alert :=
  mk_alert (js "RELIANCE") (Some (of_Z 3000)) None 1700000000000.

Definition tcs_2500 : alert :=
  mk_alert (js "TCS") None (Some (of_Z 2500)) 1700000005000.

(** The message [checkAlerts] dispatches for [reliance_3000] at the
    price 3050: its first template, with 3000 and 3050.00 as
    JavaScript prints the threshold and [price.toFixed(2)]. *)
Definition reliance_message : jsstring :=
  [240; 376; 353; 8364; 32]%N ++ js "RELIANCE crossed above "
  ++ [226; 8218; 185]%N ++ js "3000! Current: "
  ++ [226; 8218; 185]%N ++ js "3050.00".

(** * Around the alert pipeline

    The code next to the pipeline above: the VAPID key helper and the
    push subscription of [user_dashboard.js], the service worker that
    shows the pushed notifications ([sw.js]), the colour helpers and the
    placeholder series of the price chart, the theme functions of
    [main.js], and the sign-ups series of [admin_dashboard.js]. *)

(** ** The VAPID key helper of [setupPushNotifications] *)

(** [window.atob]: the forgiving-base64 decode of the platform.  ASCII
    whitespace is dropped; when the length is then a multiple of four, one
    or two trailing [=] are dropped; a length of one more than a multiple
    of four, or a code unit outside the base64 alphabet, is an
    InvalidCharacterError ([None]); otherwise every code unit stands for
    six bits, taken four at a time as three bytes, and a last group of
    two or three code units gives one or two bytes. *)

Module Base64.

Definition is_ascii_whitespace (c : N) : bool :=
  existsb (N.eqb c) [9; 10; 12; 13; 32]%N.

(** The six bits of a code unit of the alphabet [A-Za-z0-9+/]. *)
Definition sextet (c : N) : option N :=
  if (N.leb 65 c && N.leb c 90)%bool then Some (c - 65)%N
  else if (N.leb 97 c && N.leb c 122)%bool then Some (c - 71)%N
  else if (N.leb 48 c && N.leb c 57)%bool then Some (c + 4)%N
  else if N.eqb c 43 then Some 62%N
  else if N.eqb c 47 then Some 63%N
  else None.

(** [data] without its last code unit, if that is [=]. *)
Definition drop_last_eq (data : jsstring) : jsstring :=
  match rev data with
  | c :: r => if N.eqb c 61 then rev r else data
  | [] => data
  end.

(** One or two trailing [=] are removed, when the length is a multiple of
    four. *)
Definition strip_padding (data : jsstring) : jsstring :=
  if Nat.eqb (Nat.modulo (List.length data) 4) 0
  then drop_last_eq (drop_last_eq data)
  else data.

(** The six-bit values of [data], if all its code units are in the
    alphabet. *)
Fixpoint sextets (data : jsstring) : option (list N) :=
  match data with
  | [] => Some []
  | c :: r =>
      match sextet c, sextets r with
      | Some v, Some vs => Some (v :: vs)
      | _, _ => None
      end
  end.

(** Four six-bit values are three bytes; a last group of three gives two
    bytes, of two gives one. *)
Fixpoint bytes_of (vs : list N) : list N :=
  match vs with
  | a :: b :: c :: d :: r =>
      let n := (((a * 64 + b) * 64 + c) * 64 + d)%N in
      (n / 65536)%N :: ((n / 256) mod 256)%N :: (n mod 256)%N :: bytes_of r
  | [a; b; c] =>
      let n := (((a * 64 + b) * 64 + c) / 4)%N in
      [(n / 256)%N; (n mod 256)%N]
  | [a; b] => [((a * 64 + b) / 16)%N]
  | _ => []
  end.

Definition atob (data : jsstring) : option jsstring :=
  let data := filter (fun c => negb (is_ascii_whitespace c)) data in
  let data := strip_padding data in
  if Nat.eqb (Nat.modulo (List.length data) 4) 1 then None
  else
    match sextets data with
    | Some vs => Some (bytes_of vs)
    | None => None
    end.

End Base64.

(** [.replace(/-/g, '+').replace(/_/g, '/')] *)
Definition to_standard_alphabet (s : jsstring) : jsstring :=
  map (fun c => if N.eqb c 95 then 47%N else c)
    (map (fun c => if N.eqb c 45 then 43%N else c) s).

(** ['='.repeat((4 - base64String.length % 4) % 4)] *)
Definition padding (base64String : jsstring) : jsstring :=
  repeat 61%N (Nat.modulo (4 - Nat.modulo (List.length base64String) 4) 4).

(** [urlBase64ToUint8Array]: the bytes of the array it returns; [None]
    when [atob] throws. *)
Definition urlBase64ToUint8Array (base64String : jsstring) : option (list N) :=
  let base64 := to_standard_alphabet (base64String ++ padding base64String) in
  match Base64.atob base64 with
  | Some rawData => Some rawData
  | None => None
  end.

(** The unpadded base64url text of a byte sequence (RFC 4648, section 5),
    the form in which a VAPID public key is published. *)
Definition url_char (v : N) : N :=
  if N.ltb v 26 then (v + 65)%N
  else if N.ltb v 52 then (v + 71)%N
  else if N.ltb v 62 then (v - 4)%N
  else if N.eqb v 62 then 45%N
  else 95%N.

Fixpoint base64url_sextets (bytes : list N) : list N :=
  match bytes with
  | x :: y :: z :: r =>
      (x / 4)%N :: ((x mod 4) * 16 + y / 16)%N
      :: ((y mod 16) * 4 + z / 64)%N :: (z mod 64)%N :: base64url_sextets r
  | [x; y] => [(x / 4)%N; ((x mod 4) * 16 + y / 16)%N; ((y mod 16) * 4)%N]
  | [x] => [(x / 4)%N; ((x mod 4) * 16)%N]
  | [] => []
  end.

Definition base64url (bytes : list N) : jsstring :=
  map url_char (base64url_sextets bytes).

(** A code unit of the base64url or of the base64 alphabet. *)
Definition is_base64_char (c : N) : bool :=
  match Base64.sextet (if N.eqb c 95 then 47%N else if N.eqb c 45 then 43%N else c) with
  | Some _ => true
  | None => false
  end.

(** ** The service worker ([sw.js]) *)

Module ServiceWorker.

(** What a property read gives: [None] is [undefined]. *)
Definition value := option json.

(** [data.key], for one of the keys [title], [body], [url]: a TypeError
    on [null], [undefined] on a value that is not an object. *)
Definition get (data : json) (key : jsstring) : result value :=
  match data with
  | JNull => Throw TypeError
  | JObj members => Return (JSON.lookup key members)
  | _ => Return None
  end.

(** ToBoolean. *)
Definition truthy (v : value) : bool :=
  match v with
  | Some j => JSON.truthy j
  | None => false
  end.

(** The object the handler starts from, with its [body]. *)
Definition default_data (body : jsstring) : json :=
  JObj [ (js "title", JStr (js "StockVision Alert"));
         (js "body", JStr body);
         (js "url", JStr (js "/dashboard")) ].

(** The call [showNotification(data.title, options)]: its title, the
    [body] of the options and the [url] kept in their [data]. *)
Record shown := mk_shown { title : value; body : value; url : json }.

(** The [push] listener; [payload] is the text of [event.data], [None]
    when the event carries no data. *)
Definition on_push (payload : option jsstring) : result shown :=
  let data :=
    match payload with
    | None => default_data (js "You have a new notification")
    | Some text =>
        match JSON.parse text with
        | Return v => v
        | Throw _ => default_data text
        end
    end in
  b <- get data (js "body") ;;
  u <- get data (js "url") ;;
  t <- get data (js "title") ;;
  Return (mk_shown t b
            (match u with
             | Some j => if JSON.truthy j then j else JStr (js "/dashboard")
             | None => JStr (js "/dashboard")
             end)).

(** [String.prototype.includes] *)
Fixpoint includes (s sub : jsstring) : bool :=
  is_prefix sub s
  || match s with
     | [] => false
     | _ :: r => includes r sub
     end.

(** A window client: its url, and whether it has [focus]. *)
Record client := mk_client { client_url : jsstring; has_focus : bool }.

(** What the [notificationclick] listener does after closing the
    notification. *)
Inductive click_effect :=
| Dismissed
| Focused (index : nat) (target : json)   (* navigate and focus that client *)
| Opened (target : json)                  (* [clients.openWindow] *)
| NoWindow.

(** The loop over [clientList], from position [n]. *)
Fixpoint first_window (origin : jsstring) (target : json) (n : nat)
    (clientList : list client) : option click_effect :=
  match clientList with
  | [] => None
  | c :: r =>
      if includes (client_url c) origin && has_focus c
      then Some (Focused n target)
      else first_window origin target (S n) r
  end.

(** The [notificationclick] listener: [action] is [event.action], [data]
    the [data] of the notification ([None] when it has none), [origin]
    is [self.location.origin], [openWindow] tells whether
    [clients.openWindow] exists, and [clientList] is what
    [clients.matchAll] resolved to. *)
Definition on_notificationclick (action : jsstring) (data : option json)
    (origin : jsstring) (openWindow : bool) (clientList : list client)
    : result click_effect :=
  if jsstring_eqb action (js "dismiss") then Return Dismissed
  else
    u <- match data with
         | None | Some JNull => Return None
         | Some d => get d (js "url")
         end ;;
    let targetUrl :=
      match u with
      | Some j => if JSON.truthy j then j else JStr (js "/dashboard")
      | None => JStr (js "/dashboard")
      end in
    match first_window origin targetUrl 0 clientList with
    | Some e => Return e
    | None => Return (if openWindow then Opened targetUrl else NoWindow)
    end.

End ServiceWorker.

(** ** Chart colours

    [hexToRgba] of the source and what it calls. *)

(** [s.slice(start, end)] for two indices that are not negative. *)
Definition slice (s : jsstring) (start end_ : nat) : jsstring :=
  firstn (end_ - start) (skipn start s).

(** The values of the longest prefix of hexadecimal digits. *)
Fixpoint hex_digits (s : jsstring) : list N :=
  match s with
  | c :: r =>
      match JSON.hex_value c with
      | Some d => d :: hex_digits r
      | None => []
      end
  | [] => []
  end.

Definition hex_number (ds : list N) : N :=
  fold_left (fun acc d => (acc * 16 + d)%N) ds 0%N.

(** The sign that [parseInt] reads, and the text after it. *)
Definition strip_sign (s : jsstring) : bool * jsstring :=
  match s with
  | c :: r =>
      if N.eqb c 45 then (true, r)
      else if N.eqb c 43 then (false, r)
      else (false, s)
  | [] => (false, [])
  end.

(** The text after a prefix [0x] or [0X]. *)
Definition strip_0x (s : jsstring) : jsstring :=
  match s with
  | c :: x :: r =>
      if N.eqb c 48 && (N.eqb x 120 || N.eqb x 88) then r else s
  | _ => s
  end.

(** [parseInt(s, 16)] *)
Definition parseInt16 (s : jsstring) : number :=
  let '(neg, t) := strip_sign (trim_start s) in
  match hex_digits (strip_0x t) with
  | [] => NaN
  | ds =>
      let mathInt := hex_number ds in
      if N.eqb mathInt 0 then S754_zero neg
      else of_Z (if neg then - Z.of_N mathInt else Z.of_N mathInt)
  end.

(** The three channels that [hexToRgba] reads. *)
Record rgb := mk_rgb { red : number; green : number; blue : number }.

Definition channels (hex : jsstring) : rgb :=
  mk_rgb (parseInt16 (slice hex 1 3))
         (parseInt16 (slice hex 3 5))
         (parseInt16 (slice hex 5 7)).

Section Colours.

(** Number::toString, as the template literal applies it. *)
Variable Number_toString : number -> jsstring.

Definition hexToRgba (hex : jsstring) (alpha : number) : jsstring :=
  let r := red (channels hex) in
  let g := green (channels hex) in
  let b := blue (channels hex) in
  js "rgba(" ++ Number_toString r ++ js ", " ++ Number_toString g
  ++ js ", " ++ Number_toString b ++ js ", " ++ Number_toString alpha
  ++ js ")".

End Colours.

(** A channel that is an integer from [lo] to [hi], or NaN, or [-0]. *)
Definition channel_within (lo hi : Z) (c : number) : Prop :=
  c = NaN \/ c = S754_zero true \/ exists z, lo <= z <= hi /\ c = of_Z z.

(** ** Themes

    The theme functions of [main.js], and the fallback of
    [getChartColors] that reads the attribute they set. *)

Module Theme.

Definition THEME_LIGHT : jsstring := js "light".
Definition THEME_DARK : jsstring := js "dark".

(** What the functions read and write: the attribute [data-theme] of the
    body ([None] when it has none), the item [stockvision-theme] of
    [localStorage] ([None] when unset), and the themes of the
    [themechange] events dispatched so far, oldest first. *)
Record page := mk_page {
  data_theme : option jsstring;
  stored : option jsstring;
  themechange : list jsstring
}.

(** [v || THEME_LIGHT] for what [getItem] or [getAttribute] gave. *)
Definition or_light (v : option jsstring) : jsstring :=
  match v with
  | Some (c :: r) => c :: r
  | _ => THEME_LIGHT
  end.

Definition getStoredTheme (p : page) : jsstring := or_light (stored p).

Definition setTheme (theme : jsstring) (p : page) : page :=
  mk_page (Some theme) (Some theme) (themechange p ++ [theme]).

Definition toggleTheme (p : page) : page :=
  let currentTheme := or_light (data_theme p) in
  let newTheme :=
    if jsstring_eqb currentTheme THEME_LIGHT then THEME_DARK else THEME_LIGHT in
  setTheme newTheme p.

Definition initTheme (p : page) : page := setTheme (getStoredTheme p) p.

Definition getCurrentTheme (p : page) : jsstring := or_light (data_theme p).

(** The page after a reload: the attribute is gone, the item stays. *)
Definition reload (p : page) : page := mk_page None (stored p) [].

Record palette := mk_palette {
  historical : jsstring;
  predicted : jsstring;
  grid : jsstring;
  text : jsstring;
  background : jsstring
}.

(** [getChartColors] of the dashboard; [global] is what
    [window.StockVision.getChartColors()] returns, [None] when there is
    no such function. *)
Definition getChartColors (global : option palette) (p : page) : palette :=
  match global with
  | Some colors => colors
  | None =>
      let isDark :=
        match data_theme p with
        | Some t => jsstring_eqb t (js "dark")
        | None => false
        end in
      mk_palette (if isDark then js "#6366f1" else js "#4f46e5")
                 (if isDark then js "#22c55e" else js "#10b981")
                 (if isDark then js "#1f2937" else js "#e5e7eb")
                 (if isDark then js "#9ca3af" else js "#6b7280")
                 (if isDark then js "#0f172a" else js "#ffffff")
  end.

End Theme.

(** ** The placeholder series of the price chart

    [generateDummyData] of the source. *)

(** [x / y] *)
Definition Number_div : number -> number -> number := SFdiv prec emax.

(** [Math.max(a, b)]: NaN as soon as an argument is NaN, and [+0] above
    [-0]. *)
Definition Math_max (a b : number) : number :=
  match a, b with
  | S754_nan, _ | _, S754_nan => NaN
  | _, _ =>
      if lt a b then b
      else if lt b a then a
      else match a with
           | S754_zero true => b
           | _ => a
           end
  end.

(** [Math.round(x)]: the integer nearest to [x], the upper one of two
    that are equally near; the sign of [x] is kept on a zero. *)
Definition Math_round (x : number) : number :=
  match x with
  | S754_finite s m e =>
      if Z.leb 0 e then x
      else
        let n := if s then Zneg m else Zpos m in
        let z := Z.div (2 * n + Z.pow 2 (- e)) (Z.pow 2 (1 - e)) in
        if Z.eqb z 0 then S754_zero s else of_Z z
  | _ => x
  end.

(** [Math.round(x * 100) / 100] *)
Definition round_to_cents (x : number) : number :=
  Number_div (Math_round (mul x (of_Z 100))) (of_Z 100).

(** An entry of a data set: a Number, or [null]. *)
Definition cell := option number.

Record series := mk_series {
  labels : list jsstring;
  historical : list cell;
  predicted : list cell
}.

(** [l.filter(v => v !== null).pop()]; [None] is [undefined]. *)
Fixpoint last_number (l : list cell) : option number :=
  match l with
  | [] => None
  | c :: r =>
      match last_number r with
      | Some v => Some v
      | None => c
      end
  end.

(** [l.lastIndexOf(v)] for a Number [v], the positions counted from
    [k]; [None] is [-1]. *)
Fixpoint lastIndexOf_from (k : nat) (l : list cell) (v : number) : option nat :=
  match l with
  | [] => None
  | c :: r =>
      match lastIndexOf_from (S k) r v with
      | Some j => Some j
      | None =>
          match c with
          | Some x => if strict_eq x v then Some k else None
          | None => None
          end
      end
  end.

Definition lastIndexOf (l : list cell) (v : number) : option nat :=
  lastIndexOf_from 0 l v.

(** [l[idx] = c] for an index inside [l]. *)
Fixpoint assign (idx : nat) (c : cell) (l : list cell) : list cell :=
  match l, idx with
  | [], _ => []
  | _ :: r, O => c :: r
  | x :: r, S j => x :: assign j c r
  end.

Section DummyData.

(** The results of the successive calls of [Math.random], counted from
    0, and the label of the day that lies [i] days before today. *)
Variable random : nat -> number.
Variable day_label : nat -> jsstring.

(** The variables of the loop: how many random numbers were drawn, the
    price, and the three arrays. *)
Record loop_state := mk_loop {
  drawn : nat;
  price : number;
  out : series
}.

(** One turn of the loop, for the counter [i]. *)
Definition turn (base : number) (i : nat) (st : loop_state) : loop_state :=
  let change :=
    mul (sub (random (drawn st)) (of_decimal false 48 (-2))) (of_Z 50) in
  let price' :=
    Math_max (add (price st) change) (mul base (of_decimal false 8 (-1))) in
  let labels' := labels (out st) ++ [day_label i] in
  if Nat.ltb 5 i then
    mk_loop (S (drawn st)) price'
      (mk_series labels'
         (historical (out st) ++ [Some (round_to_cents price')])
         (predicted (out st) ++ [None]))
  else
    let predictedPrice :=
      add price'
        (mul (sub (random (S (drawn st))) (of_decimal false 5 (-1))) (of_Z 30)) in
    mk_loop (S (S (drawn st))) price'
      (mk_series labels'
         (historical (out st) ++ [None])
         (predicted (out st) ++ [Some (round_to_cents predictedPrice)])).

(** The loop [for (let i = days; i >= 0; i--)], from the counter [i]. *)
Fixpoint turns (base : number) (i : nat) (st : loop_state) : loop_state :=
  let st' := turn base i st in
  match i with
  | O => st'
  | S j => turns base j st'
  end.

Definition generateDummyData (days : nat) : series :=
  let basePrice := add (of_Z 2500) (mul (random 0) (of_Z 500)) in
  let st := turns basePrice days (mk_loop 1 basePrice (mk_series [] [] [])) in
  let data := out st in
  match last_number (historical data) with
  | Some lastHistorical =>
      match lastIndexOf (historical data) lastHistorical with
      | Some predictedStartIdx =>
          mk_series (labels data) (historical data)
            (assign predictedStartIdx (Some lastHistorical) (predicted data))
      | None => data
      end
  | None => data
  end.

End DummyData.

(** ** Push subscription

    [setupPushNotifications] of the source. *)

(** What the page, the user and the server answer. *)
Record push_env := mk_push_env {
  (** whether the element [notification-status] exists *)
  statusEl : bool;
  (** [Notification.permission] once [requestPermission] has resolved *)
  answer : permission;
  (** ['serviceWorker' in navigator && 'PushManager' in window] *)
  push_supported : bool;
  (** whether [navigator.serviceWorker.register] resolves *)
  registers : bool;
  (** the JSON value of the reply to [/api/vapid-public-key]; [None]
      when [fetch] or [json()] rejects *)
  vapidData : option json;
  (** whether [pushManager.subscribe] resolves *)
  subscribes : bool;
  (** whether the [fetch] to [/api/push/subscribe] resolves *)
  posts : bool
}.

(** What [setupPushNotifications] does, in order. *)
Inductive push_effect :=
| set_status (textContent : jsstring) (className : option jsstring)
| requestPermission
| register_sw
| console_call (e : entry)
| fetch_vapid_key
| subscribe (applicationServerKey : list N)
| post_subscription.

Section PushSetup.

(** What [urlBase64ToUint8Array] gives on a truthy [publicKey] that is
    not a string; [None] when it throws. *)
Variable key_of_other : json -> option (list N).

Definition applicationServerKey (publicKey : json) : option (list N) :=
  match publicKey with
  | JStr s => urlBase64ToUint8Array s
  | other => key_of_other other
  end.

(** The body of the [try]: what it does, and whether it ran to its end
    ([false] when something threw or rejected). *)
Definition try_subscribe (env : push_env) : list push_effect * bool :=
  if negb (registers env) then ([register_sw], false)
  else
    let began :=
      [ register_sw;
        console_call (mk_entry console_log (js "[Push] Service Worker registered"));
        fetch_vapid_key ] in
    match vapidData env with
    | None => (began, false)
    | Some data =>
        match ServiceWorker.get data (js "success") with
        | Throw _ => (began, false)
        | Return success =>
            let publicKey :=
              if ServiceWorker.truthy success
              then match ServiceWorker.get data (js "publicKey") with
                   | Return (Some k) => if JSON.truthy k then Some k else None
                   | _ => None
                   end
              else None in
            match publicKey with
            | Some k =>
                match applicationServerKey k with
                | None => (began, false)
                | Some key =>
                    if negb (subscribes env) then (began ++ [subscribe key], false)
                    else if negb (posts env)
                    then (began ++ [subscribe key; post_subscription], false)
                    else
                      (began ++ [ subscribe key; post_subscription;
                                  console_call
                                    (mk_entry console_log
                                       (js "[Push] Subscribed successfully")) ],
                       true)
                end
            | None =>
                (began ++ [ console_call
                              (mk_entry console_log
                                 (js "[Push] VAPID not configured on server")) ],
                 true)
            end
        end
    end.

(** [setupPushNotifications], from the permission [perm] ([None] when
    [window] has no [Notification]): the permission afterwards, and
    what was done. *)
Definition setupPushNotifications (env : push_env) (perm : option permission)
    : option permission * list push_effect :=
  match perm with
  | None =>
      (None, if statusEl env then [set_status (js "Not Supported") None] else [])
  | Some p0 =>
      let '(p, asked) :=
        match p0 with
        | default => (answer env, [requestPermission])
        | _ => (p0, [])
        end in
      match p with
      | granted =>
          let enabled :=
            if statusEl env
            then [set_status (js "Notifications Enabled")
                    (Some (js "status-badge active"))]
            else [] in
          if push_supported env then
            let '(done, ok) := try_subscribe env in
            (Some p,
             asked ++ enabled ++ done
             ++ (if ok then []
                 else [console_call
                         (mk_entry console_error (js "[Push] Setup failed:"))]))
          else (Some p, asked ++ enabled)
      | denied =>
          (Some p,
           asked ++ (if statusEl env
                     then [set_status (js "Blocked")
                             (Some (js "status-badge inactive"))]
                     else []))
      | default => (Some p, asked)
      end
  end.

End PushSetup.

(** ** The sign-ups chart of the admin dashboard

    [generateSignupsData] of [admin_dashboard.js]. *)

(** [Math.floor(x)] *)
Definition Math_floor (x : number) : number :=
  match x with
  | S754_finite s m e =>
      if Z.leb 0 e then x
      else
        let z := Z.div (if s then Zneg m else Zpos m) (Z.pow 2 (- e)) in
        if Z.eqb z 0 then S754_zero s else of_Z z
  | _ => x
  end.

Definition months : list jsstring :=
  map js ["Jan"; "Feb"; "Mar"; "Apr"; "May"; "Jun";
          "Jul"; "Aug"; "Sep"; "Oct"; "Nov"; "Dec"]%string.

(** [months[idx]] for an integer [idx]; [None] is [undefined]. *)
Definition months_at (idx : Z) : option jsstring :=
  if Z.ltb idx 0 then None else nth_error months (Z.to_nat idx).

(** [generateSignupsData]: [currentMonth] is [new Date().getMonth()] and
    [random k] the result of the call of [Math.random] in turn [k],
    counted from 0; the labels and the values it returns. *)
Definition generateSignupsData (currentMonth : Z) (random : nat -> number)
    : list (option jsstring) * list number :=
  let turn (i : nat) :=
    let monthIdx := Z.rem (currentMonth - Z.of_nat i + 12) 12 in
    (months_at monthIdx,
     add (Math_floor (mul (random (5 - i)%nat) (of_Z 30))) (of_Z 5)) in
  let points := map turn [5; 4; 3; 2; 1; 0]%nat in
  (map fst points, map snd points).

(** ** Vocabulary of the further properties *)

(** The messages of [ms] that a run of dispatches posts when it starts
    with the cache [cache]: each message but those that repeat the one
    before it (the cached one, for the first). *)
Fixpoint posted (cache : option jsstring) (ms : list jsstring) : list jsstring :=
  match ms with
  | [] => []
  | m :: r =>
      (if is_duplicate cache m then [] else [m]) ++ posted (Some m) r
  end.


(** * Properties *)

(** ** Strings and Numbers *)

Lemma jsstring_eqb_eq (a b : jsstring) : jsstring_eqb a b = true <-> a = b.
Proof.
  revert b; induction a as [|x a IH]; intros [|y b]; simpl;
    try (split; congruence).
  rewrite andb_true_iff, N.eqb_eq, IH. split.
  - intros [-> ->]; reflexivity.
  - intros H; injection H; auto.
Qed.

Lemma jsstring_eqb_refl (a : jsstring) : jsstring_eqb a a = true.
Proof. apply jsstring_eqb_eq; reflexivity. Qed.

Lemma jsstring_eqb_neq (a b : jsstring) : a <> b -> jsstring_eqb a b = false.
Proof.
  intros H; destruct (jsstring_eqb a b) eqn:E; auto.
  apply jsstring_eqb_eq in E; contradiction.
Qed.

Lemma compare_cont_Eq_eq (m1 m2 : positive) :
  Pos.compare_cont Eq m1 m2 = Eq -> m1 = m2.
Proof. apply Pos.compare_eq. Qed.

(** No Number is below itself. *)
Lemma lt_irrefl (x : number) : Number.lt x x = false.
Proof.
  unfold Number.lt, SFltb.
  destruct x as [s|s| |s m e]; simpl; try reflexivity.
  - destruct s; reflexivity.
  - destruct s; rewrite Z.compare_refl;
      change (Pos.compare_cont Eq m m) with (Pos.compare m m);
      rewrite Pos.compare_refl; reflexivity.
Qed.

(** Two Numbers that are [===] are not ordered by [<], either way. *)
Lemma strict_eq_not_lt (x y : number) :
  Number.strict_eq x y = true -> Number.lt x y = false /\ Number.lt y x = false.
Proof.
  unfold Number.strict_eq, Number.lt, SFeqb, SFltb.
  destruct x as [s1|s1| |s1 m1 e1], y as [s2|s2| |s2 m2 e2]; simpl;
    try (intros; split; congruence);
    try (destruct s1; intros; split; congruence);
    try (destruct s2; intros; split; congruence);
    try (destruct s1, s2; simpl; intros; split; congruence).
  destruct s1, s2; simpl; try (intros; split; congruence);
    destruct (Z.compare e1 e2) eqn:Ee; try (intros; split; congruence);
    apply Z.compare_eq in Ee; subst e2; rewrite Z.compare_refl;
    destruct (Pos.compare_cont Eq m1 m2) eqn:Em; simpl;
    try (intros; split; congruence);
    apply compare_cont_Eq_eq in Em; subst m2;
    change (Pos.compare_cont Eq m1 m1) with (Pos.compare m1 m1);
    rewrite Pos.compare_refl; simpl; intros; split; reflexivity.
Qed.

Lemma zero_not_truthy (n : number) : Number.is_zero n = true -> Number.truthy n = false.
Proof. destruct n; simpl; congruence. Qed.

(** ** Threshold evaluator *)

Lemma in_breaches_of (b : breach) (a : alert) (price : number) :
  In b (breaches_of a price) <->
  (b = mk_breach HighBreach a /\ high_breached a price = true)
  \/ (b = mk_breach LowBreach a /\ low_breached a price = true).
Proof.
  unfold breaches_of.
  destruct (high_breached a price), (low_breached a price); simpl; split;
    intros H; intuition (try congruence; auto).
Qed.

Lemma in_breaches (alerts : list alert) (sym : jsstring) (price : number)
    (k : breach_kind) (a : alert) :
  In (mk_breach k a) (breaches alerts sym price) <->
  In a alerts /\ symbol a = sym /\
  match k with
  | HighBreach => high_breached a price = true
  | LowBreach => low_breached a price = true
  end.
Proof.
  unfold breaches. rewrite in_flat_map. split.
  - intros [a' [Hin Hb]].
    apply filter_In in Hin. destruct Hin as [Hin Hs].
    apply jsstring_eqb_eq in Hs.
    apply in_breaches_of in Hb.
    destruct Hb as [[E Hc]|[E Hc]]; injection E as -> ->; auto.
  - intros [Hin [Hs Hc]]. exists a. split.
    + apply filter_In. split; auto. apply jsstring_eqb_eq; assumption.
    + apply in_breaches_of. destruct k; auto.
Qed.

Lemma high_breached_iff (a : alert) (price : number) :
  high_breached a price = true <->
  is_set (high a) = true /\ exists h, high a = Some h /\ Number.gt price h = true.
Proof.
  unfold high_breached, is_set. destruct (high a) as [h|].
  - rewrite andb_true_iff. split.
    + intros [Ht Hg]. split; auto. exists h; auto.
    + intros [Ht [h' [E Hg]]]. injection E as <-. auto.
  - split; [discriminate|intros [? _]; discriminate].
Qed.

Lemma low_breached_iff (a : alert) (price : number) :
  low_breached a price = true <->
  is_set (low a) = true /\ exists l, low a = Some l /\ Number.lt price l = true.
Proof.
  unfold low_breached, is_set. destruct (low a) as [l|].
  - rewrite andb_true_iff. split.
    + intros [Ht Hg]. split; auto. exists l; auto.
    + intros [Ht [l' [E Hg]]]. injection E as <-. auto.
  - split; [discriminate|intros [? _]; discriminate].
Qed.

(** ** What the dispatcher leaves alone *)

Lemma notifyUser_alerts (m : jsstring) (st : state) :
  stockVisionAlerts (notifyUser m st) = stockVisionAlerts st.
Proof.
  unfold notifyUser. destruct (is_duplicate _ _); reflexivity.
Qed.

Lemma dispatch_all_alerts (ms : list jsstring) (st : state) :
  stockVisionAlerts (fold_left (fun s m => notifyUser m s) ms st)
  = stockVisionAlerts st.
Proof.
  revert st; induction ms as [|m ms IH]; intros st; simpl.
  - reflexivity.
  - rewrite IH. apply notifyUser_alerts.
Qed.

Lemma fold_left_map {A B C} (f : A -> B -> A) (g : C -> B) (l : list C) (a : A) :
  fold_left (fun s c => f s (g c)) l a = fold_left f (map g l) a.
Proof. revert a; induction l as [|c l IH]; intros a; simpl; auto. Qed.

(** ** Alert store *)

Lemma JSON_threshold_idem (t : threshold) :
  JSON_threshold (JSON_threshold t) = JSON_threshold t.
Proof. destruct t as [[s|s| |s m e]|]; reflexivity. Qed.

Lemma JSON_alert_idem (a : alert) : JSON_alert (JSON_alert a) = JSON_alert a.
Proof.
  unfold JSON_alert; simpl. rewrite !JSON_threshold_idem. reflexivity.
Qed.

(** Text that [saveAlerts] wrote reads back as itself. *)
Lemma JSON_roundtrip_idem (alerts : list alert) :
  JSON_roundtrip (JSON_roundtrip alerts) = JSON_roundtrip alerts.
Proof.
  unfold JSON_roundtrip. rewrite map_map.
  apply map_ext. apply JSON_alert_idem.
Qed.

Lemma JSON_roundtrip_filter (f : alert -> bool) (alerts : list alert) :
  (forall a, f (JSON_alert a) = f a) ->
  JSON_roundtrip (filter f alerts) = filter f (JSON_roundtrip alerts).
Proof.
  intros Hf. unfold JSON_roundtrip.
  induction alerts as [|a l IH]; simpl; auto.
  rewrite Hf. destruct (f a); simpl; rewrite IH; reflexivity.
Qed.

Lemma getAlerts_saveAlerts (alerts : list alert) (st : state) :
  getAlerts (saveAlerts alerts st) = JSON_roundtrip alerts.
Proof. reflexivity. Qed.

(** Every sequence [saveAlerts] stored is one that the text carries as
    it is, and the store operations keep it so. *)
Lemma saveAlerts_persisted (alerts : list alert) (st : state) :
  persisted (getAlerts (saveAlerts alerts st)).
Proof.
  unfold persisted. rewrite getAlerts_saveAlerts. apply JSON_roundtrip_idem.
Qed.

Lemma deleteAlert_persisted (i : Z) (st : state) :
  persisted (getAlerts (deleteAlert i st)).
Proof. apply saveAlerts_persisted. Qed.

Lemma handleAlertSubmit_persisted (sym highText lowText : jsstring) (now : Z)
    (st : state) :
  persisted (getAlerts st) ->
  persisted (getAlerts (handleAlertSubmit sym highText lowText now st)).
Proof.
  intros H. unfold handleAlertSubmit.
  destruct (negb (Number.truthy (parseFloat highText))
            && negb (Number.truthy (parseFloat lowText))).
  - exact H.
  - apply (saveAlerts_persisted _ st).
Qed.

(** What [handleAlertSubmit] leaves in the store. *)
Lemma handleAlertSubmit_alerts (sym highText lowText : jsstring) (now : Z)
    (st : state) :
  getAlerts (handleAlertSubmit sym highText lowText now st) =
  if negb (Number.truthy (parseFloat highText))
     && negb (Number.truthy (parseFloat lowText))
  then getAlerts st
  else JSON_roundtrip (getAlerts st)
       ++ [JSON_alert (mk_alert sym (or_null (parseFloat highText))
                                    (or_null (parseFloat lowText)) now)].
Proof.
  unfold handleAlertSubmit.
  destruct (negb (Number.truthy (parseFloat highText))
            && negb (Number.truthy (parseFloat lowText))).
  - reflexivity.
  - unfold getAlerts at 1; simpl. unfold JSON_roundtrip.
    rewrite map_app. reflexivity.
Qed.

Lemma or_null_zero (n : number) : Number.is_zero n = true -> or_null n = None.
Proof. intros H. unfold or_null. rewrite (zero_not_truthy n H). reflexivity. Qed.

Section Pipeline.

Variable Number_toString : number -> jsstring.
Variable toFixed : number -> nat -> jsstring.

(** C2. [checkAlerts(symbol, price)] hands to [notifyUser], in stored
    order, one message per breach event; an alert raises a high-breach
    event exactly when it is stored, its symbol is [symbol], its high
    is set and [price > high], and a low-breach event exactly when it
    is stored, its symbol is [symbol], its low is set and
    [price < low].  An alert whose low is not set never raises a
    low-breach event, one alert can raise both events in the same
    evaluation, and the stored sequence is left as it was. *)
Theorem checkAlerts_events (st : state) (sym : jsstring) (price : number) :
  let alerts := getAlerts st in
  let events := breaches alerts sym price in
  checkAlerts Number_toString toFixed sym price st
    = fold_left (fun s m => notifyUser m s)
        (map (message Number_toString toFixed sym price) events) st
  /\ (forall a, In (mk_breach HighBreach a) events <->
        In a alerts /\ symbol a = sym /\ is_set (high a) = true
        /\ exists h, high a = Some h /\ Number.gt price h = true)
  /\ (forall a, In (mk_breach LowBreach a) events <->
        In a alerts /\ symbol a = sym /\ is_set (low a) = true
        /\ exists l, low a = Some l /\ Number.lt price l = true)
  /\ (forall a, is_set (low a) = false -> ~ In (mk_breach LowBreach a) events)
  /\ (exists a p, breaches [a] (symbol a) p
                  = [mk_breach HighBreach a; mk_breach LowBreach a])
  /\ stockVisionAlerts (checkAlerts Number_toString toFixed sym price st)
     = stockVisionAlerts st.
Proof.
  intros alerts events.
  assert (Hrun : checkAlerts Number_toString toFixed sym price st
            = fold_left (fun s m => notifyUser m s)
                (map (message Number_toString toFixed sym price) events) st).
  { unfold checkAlerts. fold alerts. fold events.
    apply (fold_left_map (fun s m => notifyUser m s)). }
  split; [exact Hrun|].
  split.
  { intros a. unfold events. rewrite in_breaches, high_breached_iff. tauto. }
  split.
  { intros a. unfold events. rewrite in_breaches, low_breached_iff. tauto. }
  split.
  { intros a Hunset Hin. unfold events in Hin.
    apply in_breaches in Hin. destruct Hin as [_ [_ Hb]].
    apply low_breached_iff in Hb. destruct Hb as [Hs _]. congruence. }
  split.
  { exists (mk_alert (js "RELIANCE") (Some (of_Z 10)) (Some (of_Z 20)) 1),
           (of_Z 15).
    vm_compute. reflexivity. }
  rewrite Hrun. apply dispatch_all_alerts.
Qed.

End Pipeline.

Lemma checkAlerts_events_witness :
  ~ In (mk_breach LowBreach reliance_3000)
       (breaches (getAlerts (saveAlerts [reliance_3000] (fresh None)))
          (js "RELIANCE") (of_Z 2000)).
Proof.
  exact (proj1 (proj2 (proj2 (proj2
           (checkAlerts_events (fun _ => []) (fun _ _ => [])
              (saveAlerts [reliance_3000] (fresh None))
              (js "RELIANCE") (of_Z 2000)))))
           reliance_3000 eq_refl).
Defined.

(** A threshold that [handleAlertSubmit] persisted is [null] or set: on
    the alerts the store holds, set and non-null are the same. *)
Lemma persisted_threshold_set (n : number) :
  JSON_threshold (or_null n) = None
  \/ is_set (JSON_threshold (or_null n)) = true.
Proof.
  unfold or_null. destruct n as [s|s| |s m e]; simpl; auto.
Qed.

(** ** Strict inequalities *)

(** C6. At a price equal to a threshold of an alert, [checkAlerts]
    raises no breach event for that threshold; a high-breach event has
    [price > high] and a low-breach event has [price < low], and in both
    cases the price is not [===] to the threshold. *)
Theorem no_breach_at_threshold (alerts : list alert) (sym : jsstring)
    (price : number) (a : alert) (t : number) :
  price = t \/ Number.strict_eq price t = true ->
  (high a = Some t -> ~ In (mk_breach HighBreach a) (breaches alerts sym price))
  /\ (low a = Some t -> ~ In (mk_breach LowBreach a) (breaches alerts sym price))
  /\ (forall b, In (mk_breach HighBreach b) (breaches alerts sym price) ->
        exists h, high b = Some h /\ Number.gt price h = true
                  /\ Number.strict_eq price h = false)
  /\ (forall b, In (mk_breach LowBreach b) (breaches alerts sym price) ->
        exists l, low b = Some l /\ Number.lt price l = true
                  /\ Number.strict_eq price l = false).
Proof.
  intros Heq.
  assert (Hlt : Number.lt price t = false /\ Number.lt t price = false).
  { destruct Heq as [-> | Heq].
    - split; apply lt_irrefl.
    - apply strict_eq_not_lt; assumption. }
  destruct Hlt as [Hlt1 Hlt2].
  repeat split.
  - intros Hh Hin. apply in_breaches in Hin. destruct Hin as [_ [_ Hb]].
    apply high_breached_iff in Hb. destruct Hb as [_ [h [E Hg]]].
    rewrite Hh in E. injection E as <-.
    unfold Number.gt, Number.lt in *. congruence.
  - intros Hl Hin. apply in_breaches in Hin. destruct Hin as [_ [_ Hb]].
    apply low_breached_iff in Hb. destruct Hb as [_ [l [E Hg]]].
    rewrite Hl in E. injection E as <-. congruence.
  - intros b Hin. apply in_breaches in Hin. destruct Hin as [_ [_ Hb]].
    apply high_breached_iff in Hb. destruct Hb as [_ [h [E Hg]]].
    exists h. repeat split; auto.
    destruct (Number.strict_eq price h) eqn:Es; auto.
    apply strict_eq_not_lt in Es. unfold Number.gt, Number.lt in *.
    destruct Es; congruence.
  - intros b Hin. apply in_breaches in Hin. destruct Hin as [_ [_ Hb]].
    apply low_breached_iff in Hb. destruct Hb as [_ [l [E Hg]]].
    exists l. repeat split; auto.
    destruct (Number.strict_eq price l) eqn:Es; auto.
    apply strict_eq_not_lt in Es. destruct Es; congruence.
Qed.

Lemma no_breach_at_threshold_witness :
  ~ In (mk_breach HighBreach reliance_3000)
       (breaches [reliance_3000] (js "RELIANCE") (of_Z 3000)).
Proof.
  apply (proj1 (no_breach_at_threshold [reliance_3000] (js "RELIANCE")
                  (of_Z 3000) reliance_3000 (of_Z 3000)
                  (or_introl eq_refl))).
  reflexivity.
Defined.

(** ** Reference price *)

(** C5. The reference price of an alert is its high when high is set,
    otherwise its low when low is set, otherwise 3000. *)
Theorem basePrice_cases (a : alert) :
  (forall h, high a = Some h -> is_set (high a) = true -> basePrice a = h)
  /\ (forall l, is_set (high a) = false -> low a = Some l ->
        is_set (low a) = true -> basePrice a = l)
  /\ (is_set (high a) = false -> is_set (low a) = false ->
        basePrice a = of_Z 3000).
Proof.
  unfold basePrice, or_else, is_set.
  destruct (high a) as [h|], (low a) as [l|]; repeat split; intros;
    repeat match goal with
           | H : Some _ = Some _ |- _ => injection H as H; subst
           | H : Number.truthy ?x = _ |- _ => rewrite H in *
           end;
    try reflexivity; try discriminate.
Qed.

Lemma basePrice_cases_witness :
  basePrice reliance_3000 = of_Z 3000
  /\ basePrice (mk_alert (js "TCS") None (Some (of_Z 2500)) 2) = of_Z 2500
  /\ basePrice (mk_alert (js "TCS") None None 3) = of_Z 3000.
Proof.
  split; [|split].
  - apply (proj1 (basePrice_cases reliance_3000)); reflexivity.
  - apply (proj1 (proj2 (basePrice_cases
             (mk_alert (js "TCS") None (Some (of_Z 2500)) 2)))); reflexivity.
  - apply (proj2 (proj2 (basePrice_cases (mk_alert (js "TCS") None None 3))));
      reflexivity.
Defined.

(** ** Zero thresholds *)

(** C10. A threshold of 0 is treated as unset throughout: when a
    submitted field parses to 0, [handleAlertSubmit] appends an alert
    whose field is [null] if the other field is truthy, and rejects the
    submission otherwise; the reference
    price skips a high of 0 for the low or for 3000; and [checkAlerts]
    raises no breach event for a threshold of 0, at any price. *)
Theorem zero_threshold_is_unset :
  (forall sym highText lowText now st,
      let st' := handleAlertSubmit sym highText lowText now st in
      (Number.is_zero (parseFloat highText) = true ->
         if Number.truthy (parseFloat lowText)
         then exists a, getAlerts st' = JSON_roundtrip (getAlerts st) ++ [a]
                        /\ symbol a = sym /\ id a = now /\ high a = None
         else getAlerts st' = getAlerts st)
      /\ (Number.is_zero (parseFloat lowText) = true ->
         if Number.truthy (parseFloat highText)
         then exists a, getAlerts st' = JSON_roundtrip (getAlerts st) ++ [a]
                        /\ symbol a = sym /\ id a = now /\ low a = None
         else getAlerts st' = getAlerts st))
  /\ (forall a z, high a = Some z -> Number.is_zero z = true ->
        basePrice a = or_else (low a) (of_Z 3000))
  /\ (forall alerts sym price a z, Number.is_zero z = true ->
        (high a = Some z ->
           ~ In (mk_breach HighBreach a) (breaches alerts sym price))
        /\ (low a = Some z ->
           ~ In (mk_breach LowBreach a) (breaches alerts sym price))).
Proof.
  split; [|split].
  - intros sym highText lowText now st st'. unfold st'.
    rewrite handleAlertSubmit_alerts.
    split; intros Hz; rewrite (zero_not_truthy _ Hz); simpl.
    + destruct (Number.truthy (parseFloat lowText)); simpl; [|reflexivity].
      eexists. split; [reflexivity|]. simpl.
      rewrite (or_null_zero _ Hz). repeat split.
    + destruct (Number.truthy (parseFloat highText)); simpl; [|reflexivity].
      eexists. split; [reflexivity|]. simpl.
      rewrite (or_null_zero _ Hz). repeat split.
  - intros a z Hh Hz. unfold basePrice. rewrite Hh. simpl.
    rewrite (zero_not_truthy z Hz). reflexivity.
  - intros alerts sym price a z Hz. split.
    + intros Hh Hin. apply in_breaches in Hin. destruct Hin as [_ [_ Hb]].
      apply high_breached_iff in Hb. destruct Hb as [Hs _].
      unfold is_set in Hs. rewrite Hh, (zero_not_truthy z Hz) in Hs.
      discriminate.
    + intros Hl Hin. apply in_breaches in Hin. destruct Hin as [_ [_ Hb]].
      apply low_breached_iff in Hb. destruct Hb as [Hs _].
      unfold is_set in Hs. rewrite Hl, (zero_not_truthy z Hz) in Hs.
      discriminate.
Qed.

Lemma zero_threshold_is_unset_witness :
  basePrice (mk_alert (js "TCS") (Some (of_Z 0)) (Some (of_Z 2500)) 2)
  = of_Z 2500.
Proof.
  exact (proj1 (proj2 zero_threshold_is_unset)
           (mk_alert (js "TCS") (Some (of_Z 0)) (Some (of_Z 2500)) 2)
           (of_Z 0) eq_refl eq_refl).
Defined.

(** ** Notification dispatcher *)

Lemma is_duplicate_same (m : jsstring) :
  m <> [] -> is_duplicate (Some m) m = true.
Proof.
  intros H. destruct m as [|c m]; [contradiction|].
  simpl. rewrite N.eqb_refl, jsstring_eqb_refl. reflexivity.
Qed.

Lemma is_duplicate_other (m m' : jsstring) :
  m' <> m -> is_duplicate (Some m) m' = false.
Proof.
  intros H. destruct m as [|c m]; [reflexivity|].
  unfold is_duplicate. apply jsstring_eqb_neq. congruence.
Qed.

(** A dispatch that is not a duplicate: cache, timer, local notification,
    request. *)
Lemma notifyUser_proceeds (m : jsstring) (st : state) :
  is_duplicate (lastNotification st) m = false ->
  notifyUser m st =
  mk_state (stockVisionAlerts st) (Some m) (S (resets st))
    (Notification_permission st) (notifications st ++ shown st m)
    (requests st ++ [m]) (console st ++ [mk_entry console_log (js "ALERT:")])
    (dialogs st).
Proof.
  intros H. unfold notifyUser, shown. rewrite H.
  destruct (Notification_permission st) as [[| |]|]; simpl;
    rewrite ?app_nil_r; reflexivity.
Qed.

Lemma notifyUser_duplicate (m : jsstring) (st : state) :
  is_duplicate (lastNotification st) m = true -> notifyUser m st = st.
Proof. intros H. unfold notifyUser. rewrite H. reflexivity. Qed.

(** Two dispatches of one message that is not empty, the first of them
    not a duplicate. *)
Lemma notifyUser_twice (m : jsstring) (st : state) :
  m <> [] ->
  is_duplicate (lastNotification st) m = false ->
  let st1 := notifyUser m st in
  lastNotification st1 = Some m
  /\ notifyUser m st1 = st1
  /\ notifications (notifyUser m st1) = notifications st ++ shown st m
  /\ requests (notifyUser m st1) = requests st ++ [m]
  /\ (lastNotification (fire_reset st1) = None
      /\ notifications (notifyUser m (fire_reset st1))
         = notifications st1 ++ shown st m
      /\ requests (notifyUser m (fire_reset st1)) = requests st1 ++ [m])
  /\ (forall m', m' <> m ->
        notifications (notifyUser m' st1) = notifications st1 ++ shown st m'
        /\ requests (notifyUser m' st1) = requests st1 ++ [m']).
Proof.
  intros Hne Hfirst st1.
  assert (E1 : st1 = mk_state (stockVisionAlerts st) (Some m) (S (resets st))
                 (Notification_permission st) (notifications st ++ shown st m)
                 (requests st ++ [m])
                 (console st ++ [mk_entry console_log (js "ALERT:")])
                 (dialogs st))
    by (apply notifyUser_proceeds; assumption).
  assert (Hdup : notifyUser m st1 = st1).
  { apply notifyUser_duplicate. rewrite E1. cbn [lastNotification].
    apply is_duplicate_same; assumption. }
  split; [rewrite E1; reflexivity|].
  split; [exact Hdup|].
  split; [rewrite Hdup, E1; reflexivity|].
  split; [rewrite Hdup, E1; reflexivity|].
  split.
  - assert (Hr : fire_reset st1 =
                   mk_state (stockVisionAlerts st1) None (resets st)
                     (Notification_permission st1) (notifications st1)
                     (requests st1) (console st1) (dialogs st1))
      by (rewrite E1; reflexivity).
    rewrite Hr. split; [reflexivity|].
    rewrite notifyUser_proceeds by reflexivity.
    unfold shown. cbn [notifications requests Notification_permission].
    rewrite E1. split; reflexivity.
  - intros m' Hm'.
    rewrite (notifyUser_proceeds m' st1)
      by (rewrite E1; cbn [lastNotification];
          apply is_duplicate_other; assumption).
    unfold shown. cbn [notifications requests].
    rewrite E1. split; reflexivity.
Qed.

(** Every message [checkAlerts] builds starts with the fixed text of its
    template: none is empty. *)
Lemma message_not_empty (Number_toString : number -> jsstring)
    (toFixed : number -> nat -> jsstring) (sym : jsstring) (price : number)
    (b : breach) :
  message Number_toString toFixed sym price b <> [].
Proof. unfold message. destruct (kind b); discriminate. Qed.

(** C3 as stated fails without the permission to notify.  The alert
    [reliance_3000] is stored and the user has denied notifications;
    the price 3050 breaches the alert, and its message is dispatched
    twice: one request is posted, the second dispatch is dropped, and no
    local notification is shown at all. *)
Lemma notifyUser_twice_without_permission :
  let st := saveAlerts [reliance_3000] (fresh (Some denied)) in
  let st1 := notifyUser reliance_message st in
  breaches (getAlerts st) (js "RELIANCE") (of_Z 3050)
  = [mk_breach HighBreach reliance_3000]
  /\ message (fun _ => js "3000") (fun _ _ => js "3050.00") (js "RELIANCE")
       (of_Z 3050) (mk_breach HighBreach reliance_3000)
     = reliance_message
  /\ lastNotification st1 = Some reliance_message
  /\ notifyUser reliance_message st1 = st1
  /\ requests (notifyUser reliance_message st1) = [reliance_message]
  /\ notifications (notifyUser reliance_message st1) = [].
Proof. vm_compute. repeat split. Qed.

(** C3, amended.  For a message [m] that [checkAlerts] hands to the
    dispatcher, and a state in which the first dispatch of [m] is not
    itself a duplicate: the cache then holds [m], a second dispatch of
    [m] changes nothing, so the two dispatches together post one request
    and show one local notification when the permission is granted and
    none when it is not; once a reset timer has cleared the cache, or
    for a message other than [m], the next dispatch posts and notifies
    again. *)
Theorem notifyUser_deduplicates (Number_toString : number -> jsstring)
    (toFixed : number -> nat -> jsstring) (sym : jsstring) (price : number)
    (b : breach) (st : state) :
  let m := message Number_toString toFixed sym price b in
  is_duplicate (lastNotification st) m = false ->
  let st1 := notifyUser m st in
  lastNotification st1 = Some m
  /\ notifyUser m st1 = st1
  /\ requests (notifyUser m st1) = requests st ++ [m]
  /\ notifications (notifyUser m st1)
     = notifications st
       ++ match Notification_permission st with
          | Some granted => [m]
          | _ => []
          end
  /\ (lastNotification (fire_reset st1) = None
      /\ notifications (notifyUser m (fire_reset st1))
         = notifications st1 ++ shown st m
      /\ requests (notifyUser m (fire_reset st1)) = requests st1 ++ [m])
  /\ (forall m', m' <> m ->
        notifications (notifyUser m' st1) = notifications st1 ++ shown st m'
        /\ requests (notifyUser m' st1) = requests st1 ++ [m']).
Proof.
  intros m Hfirst st1.
  destruct (notifyUser_twice m st (message_not_empty _ _ _ _ _) Hfirst)
    as [H1 [H2 [H3 [H4 [H5 H6]]]]].
  split; [exact H1|]. split; [exact H2|]. split; [exact H4|].
  split; [exact H3|]. split; [exact H5|exact H6].
Qed.

Lemma notifyUser_deduplicates_witness :
  let st1 := notifyUser reliance_message (fresh (Some granted)) in
  notifyUser reliance_message st1 = st1
  /\ requests (notifyUser reliance_message st1) = [reliance_message]
  /\ notifications (notifyUser reliance_message st1) = [reliance_message].
Proof.
  pose proof (notifyUser_deduplicates (fun _ => js "3000")
                (fun _ _ => js "3050.00") (js "RELIANCE") (of_Z 3050)
                (mk_breach HighBreach reliance_3000) (fresh (Some granted))
                eq_refl) as H.
  destruct H as [_ [H1 [H2 [H3 _]]]].
  split; [exact H1|]. split; [exact H2|exact H3].
Defined.

(** Whatever the outcome of the request, the promise chain only writes
    one line to the console. *)
Lemma settle_frame (o : outcome) (st : state) :
  exists e,
    settle o st =
    mk_state (stockVisionAlerts st) (lastNotification st) (resets st)
      (Notification_permission st) (notifications st) (requests st)
      (console st ++ [e]) (dialogs st).
Proof.
  unfold settle.
  match goal with
  | |- context [match ?c with Return _ => _ | Throw _ => _ end] =>
      destruct c as [e|x]
  end; eexists; reflexivity.
Qed.

(** The line a failed request leaves is a warning or an error. *)
Lemma settle_failed_level (o : outcome) (st : state) (e : entry) :
  failed o = true ->
  console (settle o st) = console st ++ [e] ->
  lvl e = console_warn \/ lvl e = console_error.
Proof.
  unfold failed, settle. intros Hf Hc.
  assert (Hlast : forall e', console st ++ [e'] = console st ++ [e] -> e' = e).
  { intros e' H. apply app_inv_head in H. congruence. }
  destruct o as [|body].
  - simpl in Hc. apply Hlast in Hc. subst e. right; reflexivity.
  - destruct (JSON.parse body) as [data|x]; simpl in Hc.
    + destruct data as [|b|n|s|l|members]; simpl in Hc;
        try (apply Hlast in Hc; subst e; simpl; auto; fail).
      destruct (JSON.lookup (js "success") members) as [v|].
      * destruct (JSON.truthy v); [discriminate|].
        simpl in Hc. apply Hlast in Hc; subst e; simpl; auto.
      * simpl in Hc. apply Hlast in Hc; subst e; simpl; auto.
    + apply Hlast in Hc. subst e. right; reflexivity.
Qed.

(** C7. After a dispatch that is not a duplicate, a failed request is
    only logged, as a warning or an error: [settle] returns a state (no
    exception leaves the chain), no further request is posted, no timer
    is added or removed, and the cache, the local notification already
    shown and the stored alerts are as the dispatch left them. *)
Theorem failed_request_is_only_logged (m : jsstring) (o : outcome) (st : state) :
  is_duplicate (lastNotification st) m = false ->
  failed o = true ->
  let st1 := notifyUser m st in
  let st2 := settle o st1 in
  lastNotification st2 = Some m
  /\ notifications st1 = notifications st ++ shown st m
  /\ notifications st2 = notifications st1
  /\ requests st2 = requests st ++ [m]
  /\ resets st2 = resets st1
  /\ stockVisionAlerts st2 = stockVisionAlerts st
  /\ dialogs st2 = dialogs st
  /\ exists e, console st2 = console st1 ++ [e]
               /\ (lvl e = console_warn \/ lvl e = console_error).
Proof.
  intros Hfirst Hfail st1 st2.
  destruct (settle_frame o st1) as [e He].
  assert (Hc : console st2 = console st1 ++ [e])
    by (unfold st2; rewrite He; reflexivity).
  pose proof (settle_failed_level o st1 e Hfail Hc) as Hl.
  unfold st2. rewrite He. simpl.
  unfold st1. rewrite (notifyUser_proceeds m st Hfirst). simpl.
  repeat split; try reflexivity.
  exists e. split; [reflexivity|exact Hl].
Qed.

Lemma failed_request_is_only_logged_witness :
  let st1 := notifyUser (js "x") (fresh (Some granted)) in
  let st2 := settle (Response (js "{")) st1 in
  lastNotification st2 = Some (js "x")
  /\ notifications st2 = [js "x"]
  /\ requests st2 = [js "x"].
Proof.
  pose proof (failed_request_is_only_logged (js "x") (Response (js "{"))
                (fresh (Some granted)) eq_refl eq_refl) as H.
  destruct H as [H1 [H2 [H3 [H4 _]]]].
  split; [exact H1|]. split; [|exact H4].
  exact (eq_trans H3 H2).
Defined.

(** ** Deleting an alert *)

Lemma filter_all {A} (f : A -> bool) (l : list A) :
  (forall a, In a l -> f a = true) -> filter f l = l.
Proof.
  induction l as [|a l IH]; simpl; intros H; auto.
  rewrite (H a (or_introl eq_refl)). f_equal. apply IH.
  intros b Hb. apply H. right; assumption.
Qed.

Lemma deleteAlert_alerts (i : Z) (st : state) :
  persisted (getAlerts st) ->
  getAlerts (deleteAlert i st)
  = filter (fun a => negb (Z.eqb (id a) i)) (getAlerts st).
Proof.
  unfold persisted. intros Hstored.
  unfold deleteAlert. rewrite getAlerts_saveAlerts.
  rewrite JSON_roundtrip_filter by reflexivity.
  rewrite Hstored. reflexivity.
Qed.

(** C8. On a stored sequence that JSON text carries as it is (as
    everything [saveAlerts] wrote is), [deleteAlert(id)] persists the
    alerts whose id differs from [id], in their stored order and with
    their fields as they were, and touches nothing else; when no stored
    alert has that id the persisted sequence is the stored one. *)
Theorem deleteAlert_filters (i : Z) (st : state) :
  persisted (getAlerts st) ->
  let st' := deleteAlert i st in
  getAlerts st' = filter (fun a => negb (Z.eqb (id a) i)) (getAlerts st)
  /\ (forall a, In a (getAlerts st') <-> In a (getAlerts st) /\ id a <> i)
  /\ ((forall a, In a (getAlerts st) -> id a <> i) ->
        getAlerts st' = getAlerts st)
  /\ st' = set_alerts (Some (getAlerts st')) st.
Proof.
  intros Hstored st'.
  assert (E : getAlerts st'
              = filter (fun a => negb (Z.eqb (id a) i)) (getAlerts st))
    by (apply deleteAlert_alerts; assumption).
  split; [exact E|]. split; [|split].
  - intros a. rewrite E, filter_In, negb_true_iff, Z.eqb_neq. tauto.
  - intros Hnone. rewrite E. apply filter_all.
    intros a Ha. apply negb_true_iff, Z.eqb_neq, Hnone, Ha.
  - reflexivity.
Qed.

Lemma deleteAlert_filters_witness :
  getAlerts (deleteAlert 1700000000000
               (saveAlerts [reliance_3000; tcs_2500] (fresh None)))
  = [tcs_2500].
Proof.
  exact (proj1 (deleteAlert_filters 1700000000000
                  (saveAlerts [reliance_3000; tcs_2500] (fresh None))
                  eq_refl)).
Defined.

(** ** The threshold invariant *)

Lemma or_null_JSON (n : number) :
  Number.truthy n = true -> is_infinite n = false ->
  JSON_threshold (or_null n) = Some n.
Proof.
  unfold or_null. destruct n as [s|s| |s m e]; simpl; congruence.
Qed.

(** Where the guard of [handleAlertSubmit] does its work: a submission
    whose fields parse to no infinity leaves an alert with a threshold,
    or leaves the store as it was. *)
Lemma handleAlertSubmit_finite_invariant (sym highText lowText : jsstring)
    (now : Z) (st : state) :
  is_infinite (parseFloat highText) = false ->
  is_infinite (parseFloat lowText) = false ->
  forallb has_threshold (getAlerts st) = true ->
  persisted (getAlerts st) ->
  forallb has_threshold
    (getAlerts (handleAlertSubmit sym highText lowText now st)) = true.
Proof.
  unfold persisted. intros Hh Hl Hinv Hstored.
  rewrite handleAlertSubmit_alerts, Hstored.
  destruct (Number.truthy (parseFloat highText)) eqn:Th;
    destruct (Number.truthy (parseFloat lowText)) eqn:Tl; simpl;
    try exact Hinv;
    rewrite forallb_app, Hinv; simpl; unfold has_threshold; simpl;
    rewrite ?(or_null_JSON _ Th Hh), ?(or_null_JSON _ Tl Hl);
    try reflexivity.
  destruct (JSON_threshold (or_null (parseFloat highText))); reflexivity.
Qed.

Lemma deleteAlert_invariant (i : Z) (st : state) :
  persisted (getAlerts st) ->
  forallb has_threshold (getAlerts st) = true ->
  forallb has_threshold (getAlerts (deleteAlert i st)) = true.
Proof.
  intros Hstored Hinv.
  rewrite (deleteAlert_alerts i st Hstored).
  rewrite forallb_forall in *. intros a Ha.
  apply filter_In in Ha. apply Hinv. tauto.
Qed.

(** C9 fails on the code when a field reads [Infinity]: the guard lets
    the submission through, [JSON.stringify] writes the infinite
    threshold as [null], and the persisted alert has no threshold. *)
Theorem handleAlertSubmit_infinite_threshold :
  let st' := handleAlertSubmit (js "RELIANCE") (js "Infinity") []
               1700000000000 (fresh None) in
  getAlerts st' = [mk_alert (js "RELIANCE") None None 1700000000000]
  /\ forallb has_threshold (getAlerts st') = false
  /\ dialogs st' = [js "Alert set for RELIANCE"].
Proof. vm_compute. repeat split. Qed.

(** ** Reading the stored text *)

Lemma syntax_only_Return {A} (a : A) : syntax_only (Return a).
Proof. intros e H; discriminate. Qed.

Lemma syntax_only_Throw {A} : syntax_only (@Throw A SyntaxError).
Proof. intros e H; congruence. Qed.

Lemma syntax_only_bind {A B} (r : result A) (k : A -> result B) :
  syntax_only r -> (forall a, syntax_only (k a)) -> syntax_only (bind r k).
Proof.
  intros Hr Hk e. destruct r as [a|x]; simpl.
  - apply Hk.
  - intros H. apply Hr. congruence.
Qed.

Ltac syntax_only_cases :=
  repeat first
    [ apply syntax_only_Return
    | apply syntax_only_Throw
    | match goal with
      | |- syntax_only (if ?b then _ else _) => destruct b
      | |- syntax_only (match ?x with _ => _ end) => destruct x
      | |- syntax_only (let '(_, _) := ?x in _) => destruct x
      end ].

Lemma start_char_syntax_only (c : N) : syntax_only (JSON.start_char c).
Proof. unfold JSON.start_char. syntax_only_cases. Qed.

Lemma lex_step_syntax_only (st : JSON.lex_state) (c : N) :
  syntax_only (JSON.lex_step st c).
Proof.
  unfold JSON.lex_step, JSON.end_number.
  destruct st as [|rest v|acc|acc|acc k v|stage a];
    try destruct stage;
    repeat first
      [ apply syntax_only_Return
      | apply syntax_only_Throw
      | apply start_char_syntax_only
      | apply syntax_only_bind; [|intros [? ?]]
      | match goal with
        | |- syntax_only (if ?b then _ else _) => destruct b
        | |- syntax_only (match ?x with _ => _ end) => destruct x
        end ].
Qed.

Lemma lex_syntax_only (s : jsstring) (st : JSON.lex_state) :
  syntax_only (JSON.lex st s).
Proof.
  revert st; induction s as [|c r IH]; intros st; simpl.
  - unfold JSON.lex_finish. syntax_only_cases.
  - apply syntax_only_bind; [apply lex_step_syntax_only|].
    intros [toks st']. apply syntax_only_bind; [apply IH|].
    intros rest. apply syntax_only_Return.
Qed.

Lemma complete_syntax_only (v : json) (stack : list JSON.frame) :
  syntax_only (JSON.complete v stack).
Proof. unfold JSON.complete. syntax_only_cases. Qed.

Lemma parse_step_syntax_only (m : JSON.mode) (stack : list JSON.frame)
    (t : JSON.token) :
  syntax_only (JSON.parse_step m stack t).
Proof.
  unfold JSON.parse_step, JSON.value_start, JSON.close_array,
    JSON.close_object, JSON.member_name.
  destruct m, t;
    repeat first
      [ apply syntax_only_Return
      | apply syntax_only_Throw
      | apply complete_syntax_only
      | match goal with
        | |- syntax_only (match ?x with _ => _ end) => destruct x
        end ].
Qed.

Lemma parse_tokens_syntax_only (ts : list JSON.token) (m : JSON.mode)
    (stack : list JSON.frame) :
  syntax_only (JSON.parse_tokens m stack ts).
Proof.
  revert m stack; induction ts as [|t r IH]; intros m stack; simpl.
  - syntax_only_cases.
  - apply syntax_only_bind; [apply parse_step_syntax_only|].
    intros [m' stack']. apply IH.
Qed.

(** [JSON.parse] throws nothing but SyntaxError. *)
Lemma parse_syntax_only (text : jsstring) : syntax_only (JSON.parse text).
Proof.
  unfold JSON.parse. apply syntax_only_bind.
  - apply lex_syntax_only.
  - intros ts. apply parse_tokens_syntax_only.
Qed.

(** C1 as stated fails on malformed text: a lone opening brace is not
    JSON, and [getAlerts] throws the SyntaxError of [JSON.parse] instead
    of returning the empty sequence. *)
Lemma getAlerts_malformed_throws :
  JSON.parse (js "{") = Throw SyntaxError
  /\ Raw.getAlerts (Some (js "{")) = Throw SyntaxError
  /\ Raw.getAlerts (Some (js "{")) <> Return (JArr []).
Proof. repeat split. discriminate. Qed.

(** C1, amended.  [getAlerts] returns the empty sequence when the key is
    unset or holds the empty string; on any other stored text it returns
    what [JSON.parse] returns for that text, and it has no error handling
    of its own: when it throws, the stored text was not JSON and the
    exception is the SyntaxError of [JSON.parse]. *)
Theorem getAlerts_parses_stored_text :
  Raw.getAlerts None = Return (JArr [])
  /\ Raw.getAlerts (Some []) = Return (JArr [])
  /\ (forall text, text <> [] -> Raw.getAlerts (Some text) = JSON.parse text)
  /\ (forall item e, Raw.getAlerts item = Throw e ->
        e = SyntaxError
        /\ exists text, item = Some text /\ text <> []
                        /\ JSON.parse text = Throw SyntaxError).
Proof.
  split; [reflexivity|]. split; [reflexivity|]. split.
  - intros [|c r] H; [contradiction|reflexivity].
  - intros item e H.
    assert (He : e = SyntaxError) by (apply (parse_syntax_only _ _ H)).
    split; [exact He|]. subst e.
    destruct item as [[|c r]|]; try discriminate H.
    exists (c :: r). repeat split; [discriminate|exact H].
Qed.

Lemma getAlerts_parses_stored_text_witness :
  Raw.getAlerts (Some (js "[]")) = Return (JArr [])
  /\ exists text, Some (js "[1,]") = Some text /\ text <> []
                  /\ JSON.parse text = Throw SyntaxError.
Proof.
  split.
  - exact (proj1 (proj2 (proj2 getAlerts_parses_stored_text)) (js "[]")
             ltac:(discriminate)).
  - exact (proj2 (proj2 (proj2 (proj2 getAlerts_parses_stored_text))
                    (Some (js "[1,]")) SyntaxError eq_refl)).
Defined.

(** ** The two views of the store agree *)

(** On a text that denotes an alert sequence, [getAlerts] of the source
    returns that sequence. *)
Lemma getAlerts_denotes (text : jsstring) (alerts : list alert) :
  denotes text alerts ->
  Raw.getAlerts (Some text) = Return (json_of_alerts alerts).
Proof.
  unfold denotes. destruct text as [|c r]; [discriminate|].
  intros H; exact H.
Qed.

Example reliance_text_denotes : denotes reliance_text [reliance_3000].
Proof. vm_compute. reflexivity. Qed.

Example getAlerts_reads_reliance :
  Raw.getAlerts (Some reliance_text) = Return (json_of_alerts [reliance_3000])
  /\ getAlerts (saveAlerts [reliance_3000] (fresh None)) = [reliance_3000].
Proof. split; vm_compute; reflexivity. Qed.

(** ** Simulated price *)

(** In binary64, for the default reference price: the draw 0 gives 2850,
    the draw 0.5 gives 3000, and the largest draw below 1 rounds to
    3150. *)
Example currentPrice_3000 :
  currentPrice (of_Z 3000) (of_Z 0) = of_Z 2850
  /\ currentPrice (of_Z 3000) (of_decimal false 5 (-1)) = of_Z 3000
  /\ currentPrice (of_Z 3000) (S754_finite false 9007199254740991 (-53))
     = of_Z 3150.
Proof. vm_compute. repeat split. Qed.

(** C4 as stated fails on the code for a very small reference price.
    The text [1.24e-322] parses to the subnormal Number 25 * 2^-1074;
    with the draw 0 the price is 23 * 2^-1074, below 0.95 times the
    reference price, whether that bound is taken exactly (23.75 *
    2^-1074) or computed in binary64 (24 * 2^-1074). *)
Lemma currentPrice_subnormal_below :
  let R := S754_finite false 25 (-1074) in
  let u := S754_zero false in
  parseFloat (js "1.24e-322") = R
  /\ valid_binary prec emax R = true
  /\ Number.lt (of_Z 0) R = true
  /\ Number.lt u (of_Z 1) = true
  /\ currentPrice R u = S754_finite false 23 (-1074)
  /\ Number.lt (currentPrice R u) (Number.mul (of_decimal false 95 (-2)) R)
     = true
  /\ (exists p r, exact_value (currentPrice R u) = Some p
                  /\ exact_value R = Some r
                  /\ (p < (95 # 100) * r)%Q).
Proof.
  repeat split; try (vm_compute; reflexivity).
  eexists; eexists. split; [reflexivity|]. split; [reflexivity|].
  vm_compute. reflexivity.
Qed.

(** ** Rounding to binary64 *)

Lemma fexp_eq (e : Z) : fexp prec emax e = Z.max (e - 53) (-1074).
Proof. reflexivity. Qed.

(** A positive number of [d] binary digits lies from 2^(d-1) to 2^d. *)
Lemma digits2_pos_bounds (p : positive) :
  2 ^ (Zpos (digits2_pos p) - 1) <= Zpos p < 2 ^ Zpos (digits2_pos p).
Proof.
  induction p as [p IH|p IH|]; cbn [digits2_pos].
  - rewrite Pos2Z.inj_succ.
    replace (Z.succ (Zpos (digits2_pos p)) - 1) with (Z.succ (Zpos (digits2_pos p) - 1)) by lia.
    rewrite !Z.pow_succ_r by lia. lia.
  - rewrite Pos2Z.inj_succ.
    replace (Z.succ (Zpos (digits2_pos p)) - 1) with (Z.succ (Zpos (digits2_pos p) - 1)) by lia.
    rewrite !Z.pow_succ_r by lia. lia.
  - cbn. lia.
Qed.

Lemma digits2_pos_unique (p : positive) (d : Z) :
  2 ^ (d - 1) <= Zpos p < 2 ^ d -> Zpos (digits2_pos p) = d.
Proof.
  intros [Hl Hu]. pose proof (digits2_pos_bounds p) as [Bl Bu].
  assert (0 < d).
  { destruct (Z.lt_ge_cases 0 d) as [|Hd]; [assumption|].
    assert (2 ^ d <= 2 ^ 0) by (apply Z.pow_le_mono_r; lia).
    cbn in *. lia. }
  assert (Zpos (digits2_pos p) - 1 < d).
  { apply (Z.pow_lt_mono_r_iff 2); lia. }
  assert (d - 1 < Zpos (digits2_pos p)).
  { apply (Z.pow_lt_mono_r_iff 2); lia. }
  lia.
Qed.

(** ** Shifting right *)

Lemma shr_1_spec (m : Z) (r s : bool) :
  0 <= m ->
  shr_1 (Build_shr_record m r s) = Build_shr_record (Z.div2 m) (Z.odd m) (r || s).
Proof.
  intros H. destruct m as [|[p|p|]|p]; try reflexivity. lia.
Qed.

Lemma shifted_0 (m0 : Z) : 0 <= m0 -> shifted m0 0 (Build_shr_record m0 false false).
Proof.
  intros H. unfold shifted. cbn [shr_m shr_r shr_s]. rewrite Z.pow_0_r.
  split; [lia|]. split; [lia|]. split; [split; [discriminate|lia]|].
  intros _. left. lia.
Qed.

Lemma shifted_step (m0 n : Z) (mrs : shr_record) :
  0 <= n -> shifted m0 n mrs -> shifted m0 (n + 1) (shr_1 mrs).
Proof.
  intros Hn [Hm [Hrem [Hr Hs]]]. destruct mrs as [m r s].
  cbn [shr_m shr_r shr_s] in *. rewrite shr_1_spec by assumption.
  unfold shifted. cbn [shr_m shr_r shr_s].
  rewrite Z.pow_add_r, Z.pow_1_r by lia.
  pose proof (Z.div2_odd m) as Hdm.
  set (T := 2 ^ n) in *. set (h := Z.div2 m) in *.
  assert (HT : 0 < T) by (apply Z.pow_pos_nonneg; lia).
  destruct (Z.odd m) eqn:Eo; cbn [Z.b2z] in Hdm.
  - assert (Hm' : m = 2 * h + 1) by lia.
    split; [lia|]. split; [nia|]. split; [split; [intros _; nia|reflexivity]|].
    intros Hrs. apply orb_false_iff in Hrs. destruct Hrs as [-> ->].
    specialize (Hs eq_refl).
    assert (~ T <= 2 * (m0 - m * T)) by (intros X; apply Hr in X; discriminate).
    right. nia.
  - assert (Hm' : m = 2 * h) by lia.
    split; [lia|]. split; [nia|]. split; [split; [discriminate|intros X; exfalso; nia]|].
    intros Hrs. apply orb_false_iff in Hrs. destruct Hrs as [-> ->].
    specialize (Hs eq_refl).
    assert (~ T <= 2 * (m0 - m * T)) by (intros X; apply Hr in X; discriminate).
    left. nia.
Qed.

Lemma shifted_iter (m0 : Z) (p : positive) :
  forall n mrs, 0 <= n -> shifted m0 n mrs ->
                shifted m0 (n + Zpos p) (iter_pos shr_1 p mrs).
Proof.
  induction p as [p IH|p IH|]; intros n mrs Hn H; cbn [iter_pos].
  - replace (n + Zpos p~1) with (((n + 1) + Zpos p) + Zpos p) by lia.
    apply IH; [lia|]. apply IH; [lia|]. apply shifted_step; assumption.
  - replace (n + Zpos p~0) with ((n + Zpos p) + Zpos p) by lia.
    apply IH; [lia|]. apply IH; assumption.
  - apply shifted_step; assumption.
Qed.

(** Rounding to nearest after a shift: the result is within half of
    [2^n] of the number shifted, and between the two neighbours. *)
Lemma round_nearest_even_shifted (m0 n : Z) (mrs : shr_record) :
  0 <= n -> shifted m0 n mrs ->
  let m := round_nearest_even (shr_m mrs) (loc_of_shr_record mrs) in
  2 * Z.abs (m * 2 ^ n - m0) <= 2 ^ n
  /\ shr_m mrs <= m <= shr_m mrs + 1
  /\ (m0 = shr_m mrs * 2 ^ n -> m = shr_m mrs).
Proof.
  intros Hn [Hm [Hrem [Hr Hs]]]. destruct mrs as [m r s].
  cbn [shr_m shr_r shr_s] in *.
  assert (HT : 0 < 2 ^ n) by (apply Z.pow_pos_nonneg; lia).
  set (T := 2 ^ n) in *.
  destruct r, s; cbn [loc_of_shr_record round_nearest_even].
  - assert (T <= 2 * (m0 - m * T)) by (apply Hr; reflexivity).
    split; [lia|]. split; [lia|]. intros X. lia.
  - assert (T <= 2 * (m0 - m * T)) by (apply Hr; reflexivity).
    specialize (Hs eq_refl).
    destruct (Z.even m); (split; [lia|]); (split; [lia|]); intros X; lia.
  - assert (~ T <= 2 * (m0 - m * T)) by (intros X; apply Hr in X; discriminate).
    split; [lia|]. split; [lia|]. reflexivity.
  - assert (~ T <= 2 * (m0 - m * T)) by (intros X; apply Hr in X; discriminate).
    split; [lia|]. split; [lia|]. reflexivity.
Qed.

(** ** One rounding *)

(** The outcome of [binary_round_aux] on the exact number [m * 2^e],
    when [e] is not above the exponent [E] the format gives that number
    and the number is below 2^1023: a mantissa [n], counted in units of
    [2^E] and within half a unit of the number, carried by a zero or by
    a valid finite Number. *)
Lemma binary_round_aux_aligned (s : bool) (m : positive) (e : Z) :
  let E := fexp prec emax (Zpos (digits2_pos m) + e) in
  e <= E ->
  Zpos (digits2_pos m) + e <= 1023 ->
  exists n,
    0 <= n
    /\ 2 * Z.abs (n * 2 ^ (E - e) - Zpos m) <= 2 ^ (E - e)
    /\ ((n = 0 /\ binary_round_aux prec emax s (Zpos m) e loc_Exact = S754_zero s)
        \/ exists m3 e3,
             binary_round_aux prec emax s (Zpos m) e loc_Exact = S754_finite s m3 e3
             /\ bounded prec emax m3 e3 = true
             /\ E <= e3 /\ Zpos m3 * 2 ^ (e3 - E) = n).
Proof.
  intros E Hal Hov.
  pose proof (digits2_pos_bounds m) as [Dl Du].
  set (D := Zpos (digits2_pos m)) in *.
  assert (HE : E = Z.max (D + e - 53) (-1074)) by reflexivity.
  set (k := E - e) in *.
  assert (Hk : 0 <= k) by lia.
  (* the first shift *)
  assert (H1 : exists mrs, shr_fexp prec emax (Zpos m) e loc_Exact = (mrs, E)
                           /\ shifted (Zpos m) k mrs).
  { unfold shr_fexp. cbn [Zdigits2 shr_record_of_loc]. fold D. fold E. fold k.
    destruct k as [|p|p] eqn:Ek; [| |lia].
    - exists (Build_shr_record (Zpos m) false false). split.
      + cbn [shr]. f_equal. lia.
      + apply shifted_0. lia.
    - eexists. split.
      + cbn [shr]. f_equal. lia.
      + apply (shifted_iter (Zpos m) p 0); [lia|]. apply shifted_0. lia. }
  destruct H1 as [mrs [E1 Hsh]].
  pose proof (round_nearest_even_shifted (Zpos m) k mrs Hk Hsh) as Hr.
  cbv zeta in Hr. destruct Hr as [Herr [Hnb _]].
  destruct Hsh as [Hm0 [Hrem _]].
  set (n := round_nearest_even (shr_m mrs) (loc_of_shr_record mrs)) in *.
  assert (HT : 0 < 2 ^ k) by (apply Z.pow_pos_nonneg; lia).
  assert (Hpow : 2 ^ D <= 2 ^ 53 * 2 ^ k).
  { rewrite <- Z.pow_add_r by lia. apply Z.pow_le_mono_r; lia. }
  assert (Hn53 : n <= 2 ^ 53) by nia.
  exists n. split; [lia|]. split; [exact Herr|].
  unfold binary_round_aux. rewrite E1.
  fold n.
  destruct n as [|q|q] eqn:En; [| |lia].
  - left. split; [reflexivity|].
    unfold shr_fexp. cbn [Zdigits2 shr_record_of_loc]. rewrite Z.add_0_l.
    fold E. destruct (fexp prec emax E - E) as [|p|p] eqn:Ek2.
    + reflexivity.
    + rewrite fexp_eq in Ek2. lia.
    + reflexivity.
  - right.
    pose proof (digits2_pos_bounds q) as [Ql Qu].
    destruct (Z.eq_dec (Zpos q) (2 ^ 53)) as [Eq|Nq].
    + (* the mantissa was rounded up to 2^53 *)
      assert (Hq : q = 9007199254740992%positive) by (apply Pos2Z.inj; exact Eq).
      subst q. exists 4503599627370496%positive, (E + 1).
      unfold shr_fexp. cbn [Zdigits2 shr_record_of_loc].
      change (Zpos (digits2_pos 9007199254740992)) with 54.
      rewrite fexp_eq. replace (Z.max (54 + E - 53) (-1074) - E) with 1 by lia.
      cbn [shr iter_pos shr_1 shr_m].
      assert (HE1 : (E + 1 <=? emax - prec) = true) by (apply Z.leb_le; unfold emax, prec; lia).
      rewrite HE1. split; [reflexivity|].
      split.
      * unfold bounded, canonical_mantissa.
        change (Zpos (digits2_pos 4503599627370496)) with 53.
        rewrite fexp_eq, HE1, andb_true_r. apply Z.eqb_eq. lia.
      * split; [lia|]. replace (E + 1 - E) with 1 by lia. reflexivity.
    + (* the mantissa has at most 53 digits *)
      assert (Hq53 : Zpos q < 2 ^ 53) by lia.
      set (Dq := Zpos (digits2_pos q)) in *.
      assert (HDq : Dq <= 53).
      { assert (Dq - 1 < 53) by (apply (Z.pow_lt_mono_r_iff 2); lia). lia. }
      exists q, E.
      unfold shr_fexp. cbn [Zdigits2 shr_record_of_loc]. fold Dq.
      assert (Hk2 : fexp prec emax (Dq + E) - E <= 0) by (rewrite fexp_eq; lia).
      assert (Hshr : shr (Build_shr_record (Zpos q) false false) E
                       (fexp prec emax (Dq + E) - E)
                     = (Build_shr_record (Zpos q) false false, E)).
      { destruct (fexp prec emax (Dq + E) - E) as [|p|p]; [reflexivity|lia|reflexivity]. }
      rewrite Hshr. cbn [shr_m].
      assert (HE1 : (E <=? emax - prec) = true) by (apply Z.leb_le; unfold emax, prec; lia).
      rewrite HE1. split; [reflexivity|].
      split.
      * unfold bounded, canonical_mantissa. fold Dq.
        rewrite HE1, andb_true_r. apply Z.eqb_eq. rewrite fexp_eq.
        destruct (Z.eq_dec E (-1074)) as [Em|Em]; [lia|].
        assert (HkD : k = D - 53) by lia.
        assert (Hm52 : 2 ^ (D - 1) = 2 ^ 52 * 2 ^ k).
        { rewrite <- Z.pow_add_r by lia. f_equal. lia. }
        assert (Hs52 : 2 ^ 52 <= shr_m mrs) by nia.
        assert (52 < Dq) by (apply (Z.pow_lt_mono_r_iff 2); lia).
        lia.
      * split; [lia|]. rewrite Z.sub_diag, Z.pow_0_r. lia.
Qed.

(** ** Powers of two as rationals *)

Lemma pow2_pos (e : Z) : (0 < pow2 e)%Q.
Proof. unfold pow2. apply Qpower_0_lt. reflexivity. Qed.

Lemma pow2_add (a b : Z) : (pow2 (a + b) == pow2 a * pow2 b)%Q.
Proof. unfold pow2. apply Qpower_plus. intros H. discriminate H. Qed.

Lemma pow2_Z (z : Z) : 0 <= z -> (pow2 z == inject_Z (2 ^ z))%Q.
Proof. intros H. unfold pow2. rewrite Zpower_Qpower by assumption. reflexivity. Qed.

Lemma pow2_le (a b : Z) : a <= b -> (pow2 a <= pow2 b)%Q.
Proof.
  intros H. unfold pow2. apply Qpower_le_compat_l; [assumption|].
  unfold Qle. cbn. lia.
Qed.

Lemma pow2_split (E e : Z) :
  e <= E -> (pow2 E == inject_Z (2 ^ (E - e)) * pow2 e)%Q.
Proof.
  intros H. rewrite <- pow2_Z by lia. rewrite <- pow2_add.
  replace (E - e + e) with E by lia. reflexivity.
Qed.

Lemma inject_Z_le (a b : Z) : a <= b -> (inject_Z a <= inject_Z b)%Q.
Proof. intros H. rewrite <- Zle_Qle. exact H. Qed.

(** The signed value of a mantissa and an exponent. *)
Lemma exact_value_finite (s : bool) (m : positive) (e : Z) :
  exact_value (S754_finite s m e)
  = Some (inject_Z (if s then Zneg m else Zpos m) * pow2 e)%Q.
Proof. reflexivity. Qed.

Lemma signed_inject (s : bool) (m : positive) :
  (inject_Z (if s then Zneg m else Zpos m)
   == (if s then - inject_Z (Zpos m) else inject_Z (Zpos m)))%Q.
Proof. destruct s; reflexivity. Qed.

(** One rounding, as rationals: [binary_round_aux] on the exact number
    [m * 2^e], signed by [s], gives a valid finite Number or a zero,
    whose value differs from that number by at most 2^-53 of it plus
    2^-1075. *)
Lemma round_value (s : bool) (m : positive) (e : Z) :
  e <= fexp prec emax (Zpos (digits2_pos m) + e) ->
  Zpos (digits2_pos m) + e <= 1023 ->
  let x := (inject_Z (if s then Zneg m else Zpos m) * pow2 e)%Q in
  exists q,
    exact_value (binary_round_aux prec emax s (Zpos m) e loc_Exact) = Some q
    /\ valid_binary prec emax (binary_round_aux prec emax s (Zpos m) e loc_Exact) = true
    /\ (Qabs (q - x) <= rounding_error x)%Q.
Proof.
  intros Hal Hov x.
  destruct (binary_round_aux_aligned s m e Hal Hov) as [n [Hn [Herr Hres]]].
  set (E := fexp prec emax (Zpos (digits2_pos m) + e)) in *.
  pose proof (digits2_pos_bounds m) as [Dl _].
  set (D := Zpos (digits2_pos m)) in *.
  assert (HE : E = Z.max (D + e - 53) (-1074)) by reflexivity.
  set (a := (inject_Z n * pow2 E)%Q).
  set (b := (inject_Z (Zpos m) * pow2 e)%Q).
  pose proof (pow2_pos e) as He. pose proof (pow2_pos E) as HEp.
  assert (Hb : (0 <= b)%Q).
  { unfold b. apply Qmult_le_0_compat; [|apply Qlt_le_weak; exact He].
    change 0%Q with (inject_Z 0). apply inject_Z_le. lia. }
  (* the rounded magnitude is within half of 2^E *)
  assert (HA : (- pow2 E <= 2 * (a - b) /\ 2 * (a - b) <= pow2 E)%Q).
  { assert (Hab : (2 * (a - b)
                   == inject_Z (2 * (n * 2 ^ (E - e) - Zpos m)) * pow2 e)%Q).
    { unfold a, b. rewrite (pow2_split E e Hal).
      unfold Z.sub.
      repeat (rewrite inject_Z_mult || rewrite inject_Z_plus || rewrite inject_Z_opp).
      change (inject_Z 2) with 2%Q. ring. }
    rewrite Hab, (pow2_split E e Hal).
    assert (Hz : - 2 ^ (E - e) <= 2 * (n * 2 ^ (E - e) - Zpos m) <= 2 ^ (E - e)) by lia.
    destruct Hz as [Hz1 Hz2]. split.
    - setoid_replace (- (inject_Z (2 ^ (E - e)) * pow2 e))%Q
        with (inject_Z (- 2 ^ (E - e)) * pow2 e)%Q
        by (rewrite inject_Z_opp; ring).
      apply Qmult_le_compat_r; [apply inject_Z_le; exact Hz1|apply Qlt_le_weak; exact He].
    - apply Qmult_le_compat_r; [apply inject_Z_le; exact Hz2|apply Qlt_le_weak; exact He]. }
  (* 2^E is at most 2^-52 of the number, or 2^-1074 *)
  assert (HE2 : (pow2 E <= (1 # 4503599627370496) * b + pow2 (-1074))%Q).
  { pose proof (pow2_pos (-1074)) as H1074.
    destruct (Z.max_spec (D + e - 53) (-1074)) as [[_ Hmx]|[Hge Hmx]].
    - rewrite HE, Hmx.
      assert (0 <= (1 # 4503599627370496) * b)%Q
        by (apply Qmult_le_0_compat; [discriminate|exact Hb]).
      lra.
    - assert (HbD : (pow2 (D - 1 + e) <= b)%Q).
      { unfold b. rewrite pow2_add. rewrite (pow2_Z (D - 1)) by lia.
        apply Qmult_le_compat_r; [apply inject_Z_le; exact Dl|apply Qlt_le_weak; exact He]. }
      assert (Hsp : (pow2 (D - 1 + e) == pow2 52 * pow2 E)%Q).
      { rewrite <- pow2_add. replace (52 + E) with (D - 1 + e) by lia. reflexivity. }
      assert (H52 : (pow2 52 == 4503599627370496)%Q) by reflexivity.
      rewrite Hsp, H52 in HbD. lra. }
  assert (H75 : (pow2 (-1074) == 2 * pow2 (-1075))%Q).
  { replace (-1074) with (1 + -1075) by lia. rewrite pow2_add. reflexivity. }
  assert (Hx : (x == if s then - b else b)%Q).
  { unfold x, b. rewrite signed_inject. destruct s; ring. }
  assert (Hax : (Qabs x == b)%Q).
  { rewrite Hx. destruct s; [rewrite Qabs_opp|]; apply Qabs_pos; exact Hb. }
  assert (Hgoal : forall q, (q == if s then - a else a)%Q ->
                            (Qabs (q - x) <= rounding_error x)%Q).
  { intros q Hq. unfold rounding_error. rewrite Hax.
    apply Qabs_Qle_condition. rewrite Hq, Hx.
    destruct HA as [HA1 HA2]. destruct s; split; lra. }
  destruct Hres as [[Hn0 Hz]|[m3 [e3 [Hf [Hb3 [HEe Hval]]]]]].
  - exists 0%Q. rewrite Hz. split; [reflexivity|]. split; [reflexivity|].
    apply Hgoal. unfold a. rewrite Hn0. destruct s; ring.
  - rewrite Hf, exact_value_finite. eexists. split; [reflexivity|].
    split; [exact Hb3|].
    apply Hgoal. rewrite signed_inject. unfold a.
    rewrite <- Hval, inject_Z_mult, (pow2_split e3 E HEe).
    destruct s; ring.
Qed.

Lemma rounding_error_nonneg (x : Q) : (0 <= rounding_error x)%Q.
Proof.
  unfold rounding_error. pose proof (pow2_pos (-1075)). pose proof (Qabs_nonneg x).
  assert (0 <= (1 # 9007199254740992) * Qabs x)%Q
    by (apply Qmult_le_0_compat; [discriminate|assumption]).
  lra.
Qed.

Lemma rounding_error_wd (x y : Q) : (x == y)%Q -> (rounding_error x == rounding_error y)%Q.
Proof. intros H. unfold rounding_error. rewrite H. reflexivity. Qed.

(** A number below 2^1023 has its digits below that exponent. *)
Lemma no_overflow (m : positive) (e : Z) :
  (inject_Z (Zpos m) * pow2 e < pow2 1023)%Q ->
  Zpos (digits2_pos m) + e <= 1023.
Proof.
  intros H. pose proof (digits2_pos_bounds m) as [Dl _].
  set (D := Zpos (digits2_pos m)) in *.
  destruct (Z.le_gt_cases (D + e) 1023) as [|Hgt]; [assumption|exfalso].
  assert (H1 : (pow2 1023 <= pow2 (D - 1 + e))%Q) by (apply pow2_le; lia).
  assert (H2 : (pow2 (D - 1 + e) <= inject_Z (Zpos m) * pow2 e)%Q).
  { rewrite pow2_add. rewrite (pow2_Z (D - 1)) by lia.
    apply Qmult_le_compat_r; [apply inject_Z_le; exact Dl|].
    apply Qlt_le_weak. apply pow2_pos. }
  lra.
Qed.

(** ** Aligning a mantissa *)

Lemma iter_xO (m d : positive) : Zpos (Pos.iter xO m d) = Zpos m * 2 ^ Zpos d.
Proof.
  induction d as [|d IH] using Pos.peano_ind.
  - cbn. lia.
  - rewrite Pos.iter_succ, Pos2Z.inj_succ, Z.pow_succ_r by lia.
    rewrite Pos2Z.inj_xO, IH. lia.
Qed.

Lemma shl_align_spec (mx : positive) (ex ex' : Z) :
  snd (shl_align mx ex ex') = Z.min ex ex'
  /\ Zpos (fst (shl_align mx ex ex'))
     = Zpos mx * 2 ^ (ex - snd (shl_align mx ex ex')).
Proof.
  unfold shl_align. destruct (ex' - ex) as [|d|d] eqn:E; cbn [fst snd].
  - split; [lia|]. rewrite Z.sub_diag, Z.pow_0_r. lia.
  - split; [lia|]. rewrite Z.sub_diag, Z.pow_0_r. lia.
  - split; [lia|]. rewrite iter_xO. f_equal. f_equal. lia.
Qed.

Lemma digits2_pos_shift (m m' : positive) (d : Z) :
  0 <= d -> Zpos m' = Zpos m * 2 ^ d ->
  Zpos (digits2_pos m') = Zpos (digits2_pos m) + d.
Proof.
  intros Hd H. pose proof (digits2_pos_bounds m) as [Dl Du].
  apply digits2_pos_unique. rewrite H.
  assert (0 < 2 ^ d) by (apply Z.pow_pos_nonneg; lia).
  replace (Zpos (digits2_pos m) + d - 1) with (Zpos (digits2_pos m) - 1 + d) by lia.
  rewrite !Z.pow_add_r by lia. nia.
Qed.

(** [binary_round] on the number [m * 2^e] below 2^1023. *)
Lemma binary_round_value (s : bool) (m : positive) (e : Z) :
  (inject_Z (Zpos m) * pow2 e < pow2 1023)%Q ->
  let x := (inject_Z (if s then Zneg m else Zpos m) * pow2 e)%Q in
  exists q,
    exact_value (binary_round prec emax s m e) = Some q
    /\ valid_binary prec emax (binary_round prec emax s m e) = true
    /\ (Qabs (q - x) <= rounding_error x)%Q.
Proof.
  intros Hlt x. pose proof (no_overflow m e Hlt) as Hov.
  unfold binary_round.
  destruct (shl_align_spec m e (fexp prec emax (Zpos (digits2_pos m) + e)))
    as [He Hm].
  destruct (shl_align m e (fexp prec emax (Zpos (digits2_pos m) + e)))
    as [mz ez]. cbn [fst snd] in He, Hm.
  assert (Hd : Zpos (digits2_pos mz) = Zpos (digits2_pos m) + (e - ez))
    by (apply digits2_pos_shift; [lia|exact Hm]).
  assert (Hsum : Zpos (digits2_pos mz) + ez = Zpos (digits2_pos m) + e) by lia.
  assert (Hal : ez <= fexp prec emax (Zpos (digits2_pos mz) + ez))
    by (rewrite Hsum; lia).
  assert (Hov' : Zpos (digits2_pos mz) + ez <= 1023) by lia.
  destruct (round_value s mz ez Hal Hov') as [q [Hq [Hv Herr]]].
  cbv zeta in Herr.
  assert (Hx : (inject_Z (if s then Zneg mz else Zpos mz) * pow2 ez == x)%Q).
  { assert (Hp : (pow2 e == inject_Z (2 ^ (e - ez)) * pow2 ez)%Q)
      by (apply pow2_split; lia).
    unfold x. rewrite !signed_inject, Hm, inject_Z_mult.
    destruct s; rewrite Hp; ring. }
  exists q. split; [exact Hq|]. split; [exact Hv|].
  rewrite <- (rounding_error_wd _ _ Hx), <- Hx. exact Herr.
Qed.

(** [binary_normalize] on the integer [S] at the exponent [e]. *)
Lemma binary_normalize_value (z : Z) (e : Z) :
  (Qabs (inject_Z z * pow2 e) < pow2 1023)%Q ->
  exists q,
    exact_value (binary_normalize prec emax z e false) = Some q
    /\ valid_binary prec emax (binary_normalize prec emax z e false) = true
    /\ (Qabs (q - inject_Z z * pow2 e) <= rounding_error (inject_Z z * pow2 e))%Q.
Proof.
  intros Hlt. pose proof (pow2_pos e) as He.
  destruct z as [|m|m]; cbn [binary_normalize].
  - exists 0%Q. split; [reflexivity|]. split; [reflexivity|].
    apply Qabs_Qle_condition.
    pose proof (rounding_error_nonneg (inject_Z 0 * pow2 e)) as H0.
    change (inject_Z 0) with 0%Q in *. split; lra.
  - apply (binary_round_value false m e).
    rewrite Qabs_pos in Hlt; [exact Hlt|].
    apply Qmult_le_0_compat; [discriminate|apply Qlt_le_weak; exact He].
  - apply (binary_round_value true m e).
    assert (Hn : (inject_Z (Zneg m) * pow2 e == - (inject_Z (Zpos m) * pow2 e))%Q).
    { change (Zneg m) with (- Zpos m). rewrite inject_Z_opp. ring. }
    rewrite Hn, Qabs_opp, Qabs_pos in Hlt; [exact Hlt|].
    apply Qmult_le_0_compat; [discriminate|apply Qlt_le_weak; exact He].
Qed.

(** ** The three operations *)

(** What validity says of a mantissa and its exponent. *)
Lemma bounded_inv (m : positive) (e : Z) :
  bounded prec emax m e = true ->
  Zpos (digits2_pos m) <= 53 /\ -1074 <= e <= 971
  /\ (Zpos (digits2_pos m) = 53 \/ e = -1074).
Proof.
  unfold bounded, canonical_mantissa. intros H.
  apply andb_true_iff in H. destruct H as [Hc He].
  apply Z.eqb_eq in Hc. apply Z.leb_le in He. rewrite fexp_eq in Hc.
  unfold emax, prec in He. lia.
Qed.

(** The exact product of two valid Numbers is never above the exponent
    the format gives it. *)
Lemma mul_aligned (mx my : positive) (ex ey : Z) :
  bounded prec emax mx ex = true -> bounded prec emax my ey = true ->
  ex + ey <= fexp prec emax (Zpos (digits2_pos (mx * my)) + (ex + ey)).
Proof.
  intros Hx Hy. apply bounded_inv in Hx, Hy.
  pose proof (digits2_pos_bounds mx) as [Xl Xu].
  pose proof (digits2_pos_bounds my) as [Yl Yu].
  pose proof (digits2_pos_bounds (mx * my)) as [_ Pu].
  set (Dx := Zpos (digits2_pos mx)) in *. set (Dy := Zpos (digits2_pos my)) in *.
  set (D := Zpos (digits2_pos (mx * my))) in *.
  assert (HD : Dx + Dy - 2 < D).
  { apply (Z.pow_lt_mono_r_iff 2); [lia|lia|].
    replace (Dx + Dy - 2) with ((Dx - 1) + (Dy - 1)) by lia.
    rewrite Z.pow_add_r by lia. rewrite Pos2Z.inj_mul in Pu.
    assert (0 < 2 ^ (Dx - 1)) by (apply Z.pow_pos_nonneg; lia).
    assert (0 < 2 ^ (Dy - 1)) by (apply Z.pow_pos_nonneg; lia).
    nia. }
  rewrite fexp_eq. lia.
Qed.

Lemma mul_value (x y : number) (qx qy : Q) :
  valid_binary prec emax x = true -> valid_binary prec emax y = true ->
  exact_value x = Some qx -> exact_value y = Some qy ->
  (Qabs (qx * qy) < pow2 1023)%Q ->
  exists q,
    exact_value (Number.mul x y) = Some q
    /\ valid_binary prec emax (Number.mul x y) = true
    /\ (Qabs (q - qx * qy) <= rounding_error (qx * qy))%Q.
Proof.
  intros Vx Vy Hx Hy Hlt.
  assert (Hzero : forall s, (qx == 0 \/ qy == 0)%Q ->
            exists q, exact_value (S754_zero s) = Some q
                      /\ valid_binary prec emax (S754_zero s) = true
                      /\ (Qabs (q - qx * qy) <= rounding_error (qx * qy))%Q).
  { intros s H0. exists 0%Q. split; [reflexivity|]. split; [reflexivity|].
    apply Qabs_Qle_condition.
    pose proof (rounding_error_nonneg (qx * qy)) as Hn.
    assert (Hp : (qx * qy == 0)%Q) by (destruct H0 as [H0|H0]; rewrite H0; ring).
    split; lra. }
  destruct x as [sx|sx| |sx mx ex]; try discriminate Hx;
    destruct y as [sy|sy| |sy my ey]; try discriminate Hy.
  - apply Hzero. left. injection Hx as <-. reflexivity.
  - apply Hzero. left. injection Hx as <-. reflexivity.
  - apply Hzero. right. injection Hy as <-. reflexivity.
  - cbn [valid_binary] in Vx, Vy.
    rewrite exact_value_finite in Hx, Hy. injection Hx as <-. injection Hy as <-.
    change (Number.mul (S754_finite sx mx ex) (S754_finite sy my ey))
      with (binary_round_aux prec emax (xorb sx sy) (Zpos (mx * my)) (ex + ey) loc_Exact).
    pose proof (pow2_pos ex) as Hex. pose proof (pow2_pos ey) as Hey.
    assert (Hprod : (inject_Z (if xorb sx sy then Zneg (mx * my) else Zpos (mx * my))
                     * pow2 (ex + ey)
                     == inject_Z (if sx then Zneg mx else Zpos mx) * pow2 ex
                        * (inject_Z (if sy then Zneg my else Zpos my) * pow2 ey))%Q).
    { rewrite !signed_inject, pow2_add, Pos2Z.inj_mul, inject_Z_mult.
      destruct sx, sy; cbn [xorb]; ring. }
    assert (Hmag : (inject_Z (Zpos (mx * my)) * pow2 (ex + ey) < pow2 1023)%Q).
    { rewrite <- Hprod in Hlt.
      assert (Hab : (Qabs (inject_Z (if xorb sx sy then Zneg (mx * my) else Zpos (mx * my))
                           * pow2 (ex + ey))
                     == inject_Z (Zpos (mx * my)) * pow2 (ex + ey))%Q).
      { rewrite signed_inject.
        assert (0 <= inject_Z (Zpos (mx * my)) * pow2 (ex + ey))%Q
          by (apply Qmult_le_0_compat; [discriminate|apply Qlt_le_weak; apply pow2_pos]).
        destruct (xorb sx sy).
        - setoid_replace (- inject_Z (Zpos (mx * my)) * pow2 (ex + ey))%Q
            with (- (inject_Z (Zpos (mx * my)) * pow2 (ex + ey)))%Q by ring.
          rewrite Qabs_opp. apply Qabs_pos. assumption.
        - apply Qabs_pos. assumption. }
      rewrite Hab in Hlt. exact Hlt. }
    destruct (round_value (xorb sx sy) (mx * my) (ex + ey)
                (mul_aligned mx my ex ey Vx Vy) (no_overflow _ _ Hmag))
      as [q [Hq [Hv Herr]]].
    cbv zeta in Herr.
    exists q. split; [exact Hq|]. split; [exact Hv|].
    rewrite <- (rounding_error_wd _ _ Hprod), <- Hprod. exact Herr.
Qed.

(** The mantissa [shl_align] gives at the smaller exponent. *)
Lemma shl_align_min (mx : positive) (ex ez : Z) :
  ez <= ex ->
  Zpos (fst (shl_align mx ex ez)) = Zpos mx * 2 ^ (ex - ez).
Proof.
  intros H. destruct (shl_align_spec mx ex ez) as [He Hm].
  rewrite Hm, He. f_equal. f_equal. lia.
Qed.

Lemma aligned_value (s : bool) (mx : positive) (ex ez : Z) :
  ez <= ex ->
  (inject_Z (cond_Zopp s (Zpos (fst (shl_align mx ex ez)))) * pow2 ez
   == inject_Z (if s then Zneg mx else Zpos mx) * pow2 ex)%Q.
Proof.
  intros H. rewrite signed_inject, (pow2_split ex ez H).
  rewrite (shl_align_min mx ex ez H).
  destruct s; cbn [cond_Zopp];
    repeat (rewrite inject_Z_mult || rewrite inject_Z_opp); ring.
Qed.

Lemma add_value (x y : number) (qx qy : Q) :
  valid_binary prec emax x = true -> valid_binary prec emax y = true ->
  exact_value x = Some qx -> exact_value y = Some qy ->
  (Qabs (qx + qy) < pow2 1023)%Q ->
  exists q,
    exact_value (Number.add x y) = Some q
    /\ valid_binary prec emax (Number.add x y) = true
    /\ (Qabs (q - (qx + qy)) <= rounding_error (qx + qy))%Q.
Proof.
  intros Vx Vy Hx Hy Hlt.
  assert (Hsame : forall z q, exact_value z = Some q ->
            valid_binary prec emax z = true -> (q == qx + qy)%Q ->
            exists q', exact_value z = Some q'
                       /\ valid_binary prec emax z = true
                       /\ (Qabs (q' - (qx + qy)) <= rounding_error (qx + qy))%Q).
  { intros z q Hz Vz Hq. exists q. split; [exact Hz|]. split; [exact Vz|].
    apply Qabs_Qle_condition.
    pose proof (rounding_error_nonneg (qx + qy)). split; lra. }
  destruct x as [sx|sx| |sx mx ex]; try discriminate Hx;
    destruct y as [sy|sy| |sy my ey]; try discriminate Hy.
  - injection Hx as <-. injection Hy as <-.
    destruct sx, sy; (eapply Hsame; [reflexivity|reflexivity|ring]).
  - injection Hx as <-.
    apply (Hsame (S754_finite sy my ey) qy Hy Vy). ring.
  - injection Hy as <-.
    apply (Hsame (S754_finite sx mx ex) qx Hx Vx). ring.
  - rewrite exact_value_finite in Hx, Hy. injection Hx as <-. injection Hy as <-.
    change (Number.add (S754_finite sx mx ex) (S754_finite sy my ey))
      with (binary_normalize prec emax
              (cond_Zopp sx (Zpos (fst (shl_align mx ex (Z.min ex ey))))
               + cond_Zopp sy (Zpos (fst (shl_align my ey (Z.min ex ey)))))
              (Z.min ex ey) false).
    set (ez := Z.min ex ey).
    set (sum := cond_Zopp sx (Zpos (fst (shl_align mx ex ez)))
              + cond_Zopp sy (Zpos (fst (shl_align my ey ez)))).
    assert (HS : (inject_Z sum * pow2 ez
                  == inject_Z (if sx then Zneg mx else Zpos mx) * pow2 ex
                     + inject_Z (if sy then Zneg my else Zpos my) * pow2 ey)%Q).
    { unfold sum. rewrite inject_Z_plus, Qmult_plus_distr_l.
      rewrite (aligned_value sx mx ex ez) by (unfold ez; lia).
      rewrite (aligned_value sy my ey ez) by (unfold ez; lia).
      reflexivity. }
    rewrite <- HS in Hlt.
    destruct (binary_normalize_value sum ez Hlt) as [q [Hq [Hv Herr]]].
    exists q. split; [exact Hq|]. split; [exact Hv|].
    rewrite <- (rounding_error_wd _ _ HS), <- HS. exact Herr.
Qed.

Lemma sub_value (x y : number) (qx qy : Q) :
  valid_binary prec emax x = true -> valid_binary prec emax y = true ->
  exact_value x = Some qx -> exact_value y = Some qy ->
  (Qabs (qx - qy) < pow2 1023)%Q ->
  exists q,
    exact_value (Number.sub x y) = Some q
    /\ valid_binary prec emax (Number.sub x y) = true
    /\ (Qabs (q - (qx - qy)) <= rounding_error (qx - qy))%Q.
Proof.
  intros Vx Vy Hx Hy Hlt.
  assert (Hsame : forall z q, exact_value z = Some q ->
            valid_binary prec emax z = true -> (q == qx - qy)%Q ->
            exists q', exact_value z = Some q'
                       /\ valid_binary prec emax z = true
                       /\ (Qabs (q' - (qx - qy)) <= rounding_error (qx - qy))%Q).
  { intros z q Hz Vz Hq. exists q. split; [exact Hz|]. split; [exact Vz|].
    apply Qabs_Qle_condition.
    pose proof (rounding_error_nonneg (qx - qy)). split; lra. }
  destruct x as [sx|sx| |sx mx ex]; try discriminate Hx;
    destruct y as [sy|sy| |sy my ey]; try discriminate Hy.
  - injection Hx as <-. injection Hy as <-.
    destruct sx, sy; (eapply Hsame; [reflexivity|reflexivity|ring]).
  - injection Hx as <-.
    apply (Hsame (S754_finite (negb sy) my ey)
             (inject_Z (if negb sy then Zneg my else Zpos my) * pow2 ey)%Q
             eq_refl Vy).
    rewrite exact_value_finite in Hy. injection Hy as <-.
    rewrite !signed_inject. destruct sy; cbn [negb]; ring.
  - injection Hy as <-.
    apply (Hsame (S754_finite sx mx ex) qx Hx Vx). ring.
  - rewrite exact_value_finite in Hx, Hy. injection Hx as <-. injection Hy as <-.
    change (Number.sub (S754_finite sx mx ex) (S754_finite sy my ey))
      with (binary_normalize prec emax
              (cond_Zopp sx (Zpos (fst (shl_align mx ex (Z.min ex ey))))
               - cond_Zopp sy (Zpos (fst (shl_align my ey (Z.min ex ey)))))
              (Z.min ex ey) false).
    set (ez := Z.min ex ey).
    set (sum := cond_Zopp sx (Zpos (fst (shl_align mx ex ez)))
              - cond_Zopp sy (Zpos (fst (shl_align my ey ez)))).
    assert (HS : (inject_Z sum * pow2 ez
                  == inject_Z (if sx then Zneg mx else Zpos mx) * pow2 ex
                     - inject_Z (if sy then Zneg my else Zpos my) * pow2 ey)%Q).
    { unfold sum, Z.sub. rewrite inject_Z_plus, inject_Z_opp.
      setoid_replace ((inject_Z (cond_Zopp sx (Zpos (fst (shl_align mx ex ez))))
                       + - inject_Z (cond_Zopp sy (Zpos (fst (shl_align my ey ez)))))
                      * pow2 ez)%Q
        with (inject_Z (cond_Zopp sx (Zpos (fst (shl_align mx ex ez)))) * pow2 ez
              - inject_Z (cond_Zopp sy (Zpos (fst (shl_align my ey ez)))) * pow2 ez)%Q
        by ring.
      rewrite (aligned_value sx mx ex ez) by (unfold ez; lia).
      rewrite (aligned_value sy my ey ez) by (unfold ez; lia).
      reflexivity. }
    rewrite <- HS in Hlt.
    destruct (binary_normalize_value sum ez Hlt) as [q [Hq [Hv Herr]]].
    exists q. split; [exact Hq|]. split; [exact Hv|].
    rewrite <- (rounding_error_wd _ _ HS), <- HS. exact Herr.
Qed.

(** ** The price of the ticker *)

(** A rounded value lies around the exact one as far as the error of
    one rounding goes. *)
Lemma within_rounding (q s B : Q) :
  (Qabs (q - s) <= rounding_error s)%Q -> (Qabs s <= B)%Q ->
  (s - ((1 # 9007199254740992) * B + pow2 (-1075)) <= q
   /\ q <= s + ((1 # 9007199254740992) * B + pow2 (-1075)))%Q.
Proof.
  unfold rounding_error. intros H HB.
  apply Qabs_Qle_condition in H. destruct H as [H1 H2]. split; lra.
Qed.

Lemma currentPrice_eq (R u : number) :
  currentPrice R u
  = Number.add R
      (Number.mul (Number.sub u (of_decimal false 5 (-1)))
         (Number.mul R (of_decimal false 1 (-1)))).
Proof. reflexivity. Qed.

Lemma pow2_facts :
  (pow2 (-1075) == (1 # 9007199254740992) * pow2 (-1022)
   /\ 0 < pow2 (-1022) /\ pow2 (-1022) <= 1
   /\ pow2 1023 == 2 * pow2 1022 /\ 1 <= pow2 1022)%Q.
Proof.
  split.
  { replace (-1075) with (-53 + -1022) by lia. rewrite pow2_add.
    assert (H : (pow2 (-53) == 1 # 9007199254740992)%Q) by reflexivity.
    rewrite H. reflexivity. }
  split; [apply pow2_pos|].
  split.
  { assert (H : (pow2 0 == 1)%Q) by reflexivity. rewrite <- H. apply pow2_le. lia. }
  split.
  { replace 1023 with (1 + 1022) by lia. rewrite pow2_add.
    assert (H : (pow2 1 == 2)%Q) by reflexivity. rewrite H. reflexivity. }
  assert (H : (pow2 0 == 1)%Q) by reflexivity. rewrite <- H. apply pow2_le. lia.
Qed.

(** C4, amended.  For a reference price [R] that is a normal Number
    from 2^-1022 to 2^1022 and a draw [u] with 0 <= u < 1, the price the
    ticker computes in binary64 is a finite Number, and it lies in the
    interval from 0.95 R to 1.05 R widened on both sides by 2^-50 R:
    four roundings separate it from the exact value of the expression.
    [r] and [v] are the rationals that [R] and [u] are. *)
Theorem currentPrice_within_rounding (R u : number) (r v : Q) :
  valid_binary prec emax R = true ->
  valid_binary prec emax u = true ->
  exact_value R = Some r ->
  exact_value u = Some v ->
  (pow2 (-1022) <= r)%Q -> (r <= pow2 1022)%Q ->
  (0 <= v)%Q -> (v < 1)%Q ->
  exists p,
    exact_value (currentPrice R u) = Some p
    /\ ((95 # 100) * r - (1 # 1125899906842624) * r <= p)%Q
    /\ (p <= (105 # 100) * r + (1 # 1125899906842624) * r)%Q.
Proof.
  intros VR Vu HR Hu Hlo Hhi Hv0 Hv1.
  destruct pow2_facts as [Heta [HL0 [HL1 [HP HP1]]]].
  set (eta := pow2 (-1075)) in *. set (L := pow2 (-1022)) in *.
  set (P := pow2 1022) in *. set (P' := pow2 1023) in *.
  assert (V05 : valid_binary prec emax (of_decimal false 5 (-1)) = true) by reflexivity.
  assert (V01 : valid_binary prec emax (of_decimal false 1 (-1)) = true) by reflexivity.
  assert (H05 : exact_value (of_decimal false 5 (-1))
                = Some (4503599627370496 # 9007199254740992)) by reflexivity.
  assert (H01 : exact_value (of_decimal false 1 (-1))
                = Some (7205759403792794 # 72057594037927936)) by reflexivity.
  rewrite currentPrice_eq.
  (* d = u - 0.5 *)
  assert (Bd : (Qabs (v - (4503599627370496 # 9007199254740992)) <= 1 # 2)%Q).
  { apply Qabs_Qle_condition. split; lra. }
  destruct (sub_value u _ v _ Vu V05 Hu H05) as [d [Hd [Vd Ed]]].
  { eapply Qle_lt_trans; [exact Bd|]. fold P'. lra. }
  destruct (within_rounding _ _ _ Ed Bd) as [Ed1 Ed2]. fold eta in Ed1, Ed2.
  (* t = R * 0.1 *)
  assert (Bt : (Qabs (r * (7205759403792794 # 72057594037927936)) <= r)%Q).
  { apply Qabs_Qle_condition. split; lra. }
  destruct (mul_value R _ r _ VR V01 HR H01) as [t [Ht [Vt Et]]].
  { eapply Qle_lt_trans; [exact Bt|]. fold P'. lra. }
  destruct (within_rounding _ _ _ Et Bt) as [Et1 Et2]. fold eta in Et1, Et2.
  (* q = d * t *)
  assert (Ht0 : (0 <= t)%Q) by lra.
  assert (Bq : (Qabs (d * t) <= (51 # 100) * t)%Q).
  { apply Qabs_Qle_condition. split; nra. }
  destruct (mul_value _ _ d t Vd Vt Hd Ht) as [q [Hq [Vq Eq]]].
  { eapply Qle_lt_trans; [exact Bq|]. fold P'. lra. }
  destruct (within_rounding _ _ _ Eq Bq) as [Eq1 Eq2]. fold eta in Eq1, Eq2.
  apply Qabs_Qle_condition in Bq. destruct Bq as [Bq1 Bq2].
  assert (Hw : (d * t <= (9007199254740995 # 18014398509481984) * t
                /\ - ((9007199254740995 # 18014398509481984) * t) <= d * t)%Q).
  { split; nra. }
  destruct Hw as [Hw1 Hw2].
  (* p = R + q *)
  assert (Bp : (Qabs (r + q) <= r + q)%Q).
  { rewrite Qabs_pos; [apply Qle_refl|lra]. }
  destruct (add_value R _ r q VR Vq HR Hq) as [p [Hp [Vp Ep]]].
  { eapply Qle_lt_trans; [exact Bp|]. fold P'. lra. }
  destruct (within_rounding _ _ _ Ep Bp) as [Ep1 Ep2]. fold eta in Ep1, Ep2.
  exists p. split; [exact Hp|].
  set (w := (d * t)%Q) in *.
  split; lra.
Qed.

Lemma currentPrice_within_rounding_witness :
  exists p,
    exact_value (currentPrice (of_Z 3000) (of_decimal false 25 (-2))) = Some p
    /\ ((95 # 100) * (6597069766656000 # 2199023255552)
        - (1 # 1125899906842624) * (6597069766656000 # 2199023255552) <= p)%Q
    /\ (p <= (105 # 100) * (6597069766656000 # 2199023255552)
             + (1 # 1125899906842624) * (6597069766656000 # 2199023255552))%Q.
Proof.
  apply (currentPrice_within_rounding (of_Z 3000) (of_decimal false 25 (-2))
           (6597069766656000 # 2199023255552)
           (4503599627370496 # 18014398509481984));
    try reflexivity; vm_compute; discriminate.
Defined.

(** The widening is needed.  For the reference price 1 and the draw 0
    the price is the Number nearest to 0.95: it is not below the
    binary64 product 0.95 * 1, which is the same Number, but it is below
    the rational 0.95. *)
Example currentPrice_rounds_below :
  currentPrice (of_Z 1) (S754_zero false)
  = S754_finite false 8556839292003942 (-53)
  /\ Number.mul (of_decimal false 95 (-2)) (of_Z 1)
     = S754_finite false 8556839292003942 (-53)
  /\ (exists p, exact_value (currentPrice (of_Z 1) (S754_zero false)) = Some p
                /\ (p < 95 # 100)%Q).
Proof.
  split; [vm_compute; reflexivity|]. split; [vm_compute; reflexivity|].
  eexists. split; [reflexivity|]. vm_compute. reflexivity.
Qed.

(** So is the upper end of the range.  For the largest Number as the
    reference price and the draw 0.99 the sum overflows: the price is
    [Infinity]. *)
Example currentPrice_overflows :
  parseFloat (js "1.7976931348623157e308")
  = S754_finite false 9007199254740991 971
  /\ valid_binary prec emax (S754_finite false 9007199254740991 971) = true
  /\ currentPrice (S754_finite false 9007199254740991 971)
       (of_decimal false 99 (-2))
     = S754_infinity false.
Proof. vm_compute. repeat split. Qed.

(** ** The examples of the specification *)

Section Examples.

Variable Number_toString : number -> jsstring.
Variable toFixed : number -> nat -> jsstring.

(** Alert [{symbol: "RELIANCE", high: 3000, low: null}] at the simulated
    price 3050: one high-breach event, one local notification, one
    request. *)
Example reliance_at_3050 :
  let st := saveAlerts [reliance_3000] (fresh (Some granted)) in
  let price := of_Z 3050 in
  let st' := checkAlerts Number_toString toFixed (js "RELIANCE") price st in
  let m := message Number_toString toFixed (js "RELIANCE") price
             (mk_breach HighBreach reliance_3000) in
  breaches (getAlerts st) (js "RELIANCE") price
    = [mk_breach HighBreach reliance_3000]
  /\ notifications st' = [m]
  /\ requests st' = [m]
  /\ lastNotification st' = Some m.
Proof.
  repeat split.
Qed.

(** With no alert stored a tick does nothing. *)
Lemma tick_empty (u1 u2 : number) (st : state) :
  getAlerts st = [] -> tick Number_toString toFixed u1 u2 st = Return st.
Proof. intros H. unfold tick. rewrite H. reflexivity. Qed.

(** The gateway answers that the SMS credentials are missing: the
    dispatcher logs a warning, and the notification already shown
    stays. *)
Example credentials_not_configured :
  let body := js "{" ++ quoted "success" ++ js ":false," ++ quoted "error"
              ++ js ":" ++ quoted "Twilio credentials not configured"
              ++ js "}" in
  let st1 := notifyUser (js "x") (fresh (Some granted)) in
  let st2 := settle (Response body) st1 in
  failed (Response body) = true
  /\ console st2 = console st1
                   ++ [mk_entry console_warn (js "[Alert] Backend trigger failed:")]
  /\ notifications st2 = [js "x"]
  /\ requests st2 = [js "x"].
Proof. vm_compute. repeat split. Qed.

End Examples.

(** * Further properties *)

(** ** Decoding the VAPID key *)

Lemma sextets_app (a b : jsstring) :
  Base64.sextets (a ++ b) =
  match Base64.sextets a, Base64.sextets b with
  | Some va, Some vb => Some (va ++ vb)
  | _, _ => None
  end.
Proof.
  induction a as [|c a IH]; simpl.
  - destruct (Base64.sextets b); reflexivity.
  - rewrite IH. destruct (Base64.sextet c); [|reflexivity].
    destruct (Base64.sextets a); [|reflexivity].
    destruct (Base64.sextets b); reflexivity.
Qed.

Lemma sextets_bad (data : jsstring) (c : N) :
  In c data -> Base64.sextet c = None -> Base64.sextets data = None.
Proof.
  induction data as [|d r IH]; simpl; [tauto|].
  intros [->|Hin] Hc.
  - rewrite Hc. reflexivity.
  - rewrite (IH Hin Hc). destruct (Base64.sextet d); reflexivity.
Qed.

Lemma sextets_length (data : jsstring) (vs : list N) :
  Base64.sextets data = Some vs -> List.length vs = List.length data.
Proof.
  revert vs; induction data as [|c r IH]; simpl; intros vs H.
  - injection H as <-. reflexivity.
  - destruct (Base64.sextet c); [|discriminate].
    destruct (Base64.sextets r) as [vr|]; [|discriminate].
    injection H as <-. simpl. rewrite (IH vr eq_refl). reflexivity.
Qed.

Lemma drop_last_eq_cases (data : jsstring) :
  Base64.drop_last_eq data = data
  \/ data = Base64.drop_last_eq data ++ [61%N].
Proof.
  unfold Base64.drop_last_eq.
  destruct (rev data) as [|c r] eqn:Er; [left; reflexivity|].
  destruct (N.eqb c 61) eqn:Ec; [|left; reflexivity].
  apply N.eqb_eq in Ec. subst c. right.
  rewrite <- (rev_involutive data) at 1. rewrite Er. reflexivity.
Qed.

Lemma drop_last_eq_app (l : jsstring) : Base64.drop_last_eq (l ++ [61%N]) = l.
Proof.
  unfold Base64.drop_last_eq. rewrite rev_app_distr. simpl.
  apply rev_involutive.
Qed.

Lemma drop_last_eq_keep (l : jsstring) (c : N) :
  c <> 61%N -> Base64.drop_last_eq (l ++ [c]) = l ++ [c].
Proof.
  intros Hc. unfold Base64.drop_last_eq. rewrite rev_app_distr. simpl.
  apply N.eqb_neq in Hc. rewrite Hc. reflexivity.
Qed.

Lemma drop_last_eq_nil : Base64.drop_last_eq [] = [].
Proof. reflexivity. Qed.

Ltac div_mod_lia := zify; Z.to_euclidean_division_equations; lia.

Lemma drop_last_eq_clean (l : jsstring) :
  (forall c, In c l -> c <> 61%N) -> Base64.drop_last_eq l = l.
Proof.
  intros H. destruct (drop_last_eq_cases l) as [E|E]; [exact E|].
  exfalso. apply (H 61%N); [|reflexivity].
  rewrite E. apply in_or_app. right. left. reflexivity.
Qed.

Lemma sextet_not_special (c v : N) :
  Base64.sextet c = Some v ->
  Base64.is_ascii_whitespace c = false /\ c <> 61%N /\ (v < 64)%N.
Proof.
  unfold Base64.sextet, Base64.is_ascii_whitespace. simpl.
  destruct (N.leb 65 c) eqn:E1, (N.leb c 90) eqn:E2; simpl;
    [intros H; injection H as <-|..];
    try (destruct (N.leb 97 c) eqn:E3, (N.leb c 122) eqn:E4; simpl;
         [intros H; injection H as <-|..]);
    try (destruct (N.leb 48 c) eqn:E5, (N.leb c 57) eqn:E6; simpl;
         [intros H; injection H as <-|..]);
    try (destruct (N.eqb c 43) eqn:E7; [intros H; injection H as <-|]);
    try (destruct (N.eqb c 47) eqn:E8; [intros H; injection H as <-|]);
    try discriminate;
    repeat match goal with
           | H : N.leb _ _ = true |- _ => apply N.leb_le in H
           | H : N.leb _ _ = false |- _ => apply N.leb_gt in H
           | H : N.eqb _ _ = true |- _ => apply N.eqb_eq in H
           | H : N.eqb _ _ = false |- _ => apply N.eqb_neq in H
           end;
    (split; [|split; lia]);
    repeat match goal with
           | |- context [N.eqb ?a ?b] =>
               destruct (N.eqb_spec a b); [lia|simpl]
           end; reflexivity.
Qed.

Lemma to_standard_alphabet_app (a b : jsstring) :
  to_standard_alphabet (a ++ b) = to_standard_alphabet a ++ to_standard_alphabet b.
Proof. unfold to_standard_alphabet. rewrite !map_app. reflexivity. Qed.

Lemma to_standard_alphabet_padding (n : nat) :
  to_standard_alphabet (repeat 61%N n) = repeat 61%N n.
Proof.
  unfold to_standard_alphabet. induction n as [|n IH]; simpl; [reflexivity|].
  f_equal. exact IH.
Qed.

Lemma to_standard_alphabet_length (s : jsstring) :
  List.length (to_standard_alphabet s) = List.length s.
Proof. unfold to_standard_alphabet. rewrite !length_map. reflexivity. Qed.

(** A text of alphabet code units stays one under the two replacements,
    and every code unit of it then has six bits. *)
Lemma clean_sextets (s : jsstring) :
  forallb is_base64_char s = true ->
  exists vs, Base64.sextets (to_standard_alphabet s) = Some vs.
Proof.
  induction s as [|c r IH]; simpl; intros H.
  - exists []. reflexivity.
  - apply andb_true_iff in H. destruct H as [Hc Hr].
    destruct (IH Hr) as [vs Hvs].
    unfold to_standard_alphabet in *. simpl.
    unfold is_base64_char in Hc.
    replace (if N.eqb (if N.eqb c 45 then 43%N else c) 95 then 47%N
             else if N.eqb c 45 then 43%N else c)
      with (if N.eqb c 95 then 47%N else if N.eqb c 45 then 43%N else c).
    + destruct (Base64.sextet _) as [v|]; [|discriminate].
      rewrite Hvs. eexists; reflexivity.
    + destruct (N.eqb_spec c 95) as [->|H95]; [reflexivity|].
      destruct (N.eqb_spec c 45) as [->|H45]; [reflexivity|].
      apply N.eqb_neq in H95. rewrite H95. reflexivity.
Qed.

Lemma sextets_clean (data : jsstring) (vs : list N) :
  Base64.sextets data = Some vs ->
  (forall c, In c data -> Base64.is_ascii_whitespace c = false /\ c <> 61%N)
  /\ Forall (fun v => (v < 64)%N) vs.
Proof.
  revert vs; induction data as [|c r IH]; simpl; intros vs H.
  - injection H as <-. split; [tauto|constructor].
  - destruct (Base64.sextet c) as [v|] eqn:Ec; [|discriminate].
    destruct (Base64.sextets r) as [vr|]; [|discriminate].
    injection H as <-. destruct (IH vr eq_refl) as [H1 H2].
    destruct (sextet_not_special c v Ec) as [Hw [He Hv]].
    split.
    + intros d [<-|Hd]; [split; assumption|apply H1; assumption].
    + constructor; assumption.
Qed.

(** [atob] on alphabet code units followed by the padding that
    [urlBase64ToUint8Array] appends. *)
Lemma atob_padded (data : jsstring) (vs : list N) :
  Base64.sextets data = Some vs ->
  Base64.atob
    (data ++ repeat 61%N (Nat.modulo (4 - Nat.modulo (List.length data) 4) 4))
  = if Nat.eqb (Nat.modulo (List.length data) 4) 1 then None
    else Some (Base64.bytes_of vs).
Proof.
  intros Hvs. destruct (sextets_clean data vs Hvs) as [Hclean _].
  assert (Hne : forall c, In c data -> c <> 61%N) by (intros c Hc; apply Hclean; exact Hc).
  unfold Base64.atob.
  rewrite filter_all.
  2:{ intros c Hc. apply in_app_or in Hc. destruct Hc as [Hc|Hc].
      - destruct (Hclean c Hc) as [Hw _]. rewrite Hw. reflexivity.
      - apply repeat_spec in Hc. subst c. reflexivity. }
  unfold Base64.strip_padding. rewrite length_app, repeat_length.
  assert (Hr : (Nat.modulo (List.length data) 4 < 4)%nat)
    by (apply Nat.mod_upper_bound; discriminate).
  remember (Nat.modulo (List.length data) 4) as m eqn:Em.
  assert (Hlen : forall k, Nat.modulo (List.length data + k) 4
                           = Nat.modulo (m + k) 4).
  { intros k. subst m. symmetry. apply Nat.Div0.add_mod_idemp_l. }
  destruct m as [|[|[|[|k]]]]; [| | | |lia]; cbn [Nat.sub].
  - change (Nat.modulo 4 4) with 0%nat. cbn [repeat].
    rewrite app_nil_r, Hlen. change (Nat.eqb (Nat.modulo (0 + 0) 4) 0) with true.
    cbv iota. rewrite !(drop_last_eq_clean data Hne), <- Em, Hvs. reflexivity.
  - change (Nat.modulo 3 4) with 3%nat. cbn [repeat].
    rewrite Hlen. change (Nat.eqb (Nat.modulo (1 + 3) 4) 0) with true.
    cbv iota.
    change (data ++ [61; 61; 61]%N)
      with (data ++ [61%N] ++ [61%N] ++ [61%N]).
    rewrite !app_assoc, !drop_last_eq_app.
    rewrite length_app, Hlen.
    change (Nat.eqb (Nat.modulo (1 + List.length [61%N]) 4) 1) with false.
    cbv iota. rewrite sextets_app, Hvs. reflexivity.
  - change (Nat.modulo 2 4) with 2%nat. cbn [repeat].
    rewrite Hlen. change (Nat.eqb (Nat.modulo (2 + 2) 4) 0) with true.
    cbv iota.
    change (data ++ [61; 61]%N) with (data ++ [61%N] ++ [61%N]).
    rewrite !app_assoc, !drop_last_eq_app, <- Em, Hvs. reflexivity.
  - change (Nat.modulo 1 4) with 1%nat. cbn [repeat].
    rewrite Hlen. change (Nat.eqb (Nat.modulo (3 + 1) 4) 0) with true.
    cbv iota.
    rewrite drop_last_eq_app, (drop_last_eq_clean data Hne), <- Em, Hvs.
    reflexivity.
Qed.

(** [urlBase64ToUint8Array] on a text of alphabet code units. *)
Lemma urlBase64_clean (s : jsstring) (vs : list N) :
  Base64.sextets (to_standard_alphabet s) = Some vs ->
  urlBase64ToUint8Array s =
  if Nat.eqb (Nat.modulo (List.length s) 4) 1 then None
  else Some (Base64.bytes_of vs).
Proof.
  intros Hvs. unfold urlBase64ToUint8Array, padding.
  rewrite to_standard_alphabet_app, to_standard_alphabet_padding.
  rewrite <- (to_standard_alphabet_length s).
  rewrite (atob_padded _ vs Hvs).
  destruct (Nat.eqb _ 1); reflexivity.
Qed.

Lemma bytes_of_length_le (n : nat) (vs : list N) :
  (List.length vs <= n)%nat ->
  List.length (Base64.bytes_of vs) = (3 * List.length vs / 4)%nat.
Proof.
  revert vs; induction n as [|n IH].
  { intros [|a r] Hn; [reflexivity|simpl in Hn; lia]. }
  intros vs Hn.
  destruct vs as [|a [|b [|c [|d r]]]]; try reflexivity.
  cbn [Base64.bytes_of List.length].
  rewrite (IH r) by (simpl in Hn; lia).
  replace (3 * S (S (S (S (List.length r)))))%nat
    with (3 * List.length r + 3 * 4)%nat by lia.
  rewrite Nat.div_add by discriminate. lia.
Qed.

Lemma bytes_of_length (vs : list N) :
  List.length (Base64.bytes_of vs) = (3 * List.length vs / 4)%nat.
Proof. apply (bytes_of_length_le (List.length vs)). lia. Qed.

Lemma bytes_of_range_le (n : nat) (vs : list N) :
  (List.length vs <= n)%nat ->
  Forall (fun v => (v < 64)%N) vs ->
  Forall (fun b => (b < 256)%N) (Base64.bytes_of vs).
Proof.
  revert vs; induction n as [|n IH].
  { intros [|a r] Hn _; [constructor|simpl in Hn; lia]. }
  intros vs Hn Hvs.
  destruct vs as [|a [|b [|c [|d r]]]]; cbn [Base64.bytes_of];
    repeat match goal with
           | H : Forall _ (_ :: _) |- _ => inversion H; clear H; subst
           end;
    repeat constructor; try div_mod_lia.
  apply (IH r); [simpl in Hn; lia|assumption].
Qed.

Lemma bytes_of_range (vs : list N) :
  Forall (fun v => (v < 64)%N) vs ->
  Forall (fun b => (b < 256)%N) (Base64.bytes_of vs).
Proof. apply (bytes_of_range_le (List.length vs)). lia. Qed.

(** The encoder: its six-bit values are in range and decode to the
    bytes. *)
Lemma base64url_sextets_spec_le (n : nat) (bytes : list N) :
  (List.length bytes <= n)%nat ->
  Forall (fun b => (b < 256)%N) bytes ->
  Forall (fun v => (v < 64)%N) (base64url_sextets bytes)
  /\ Base64.bytes_of (base64url_sextets bytes) = bytes
  /\ Nat.modulo (List.length (base64url_sextets bytes)) 4 <> 1%nat.
Proof.
  revert bytes; induction n as [|n IH].
  { intros [|a r] Hn _; [|simpl in Hn; lia].
    repeat split; [constructor|discriminate]. }
  intros bytes Hn Hb.
  destruct bytes as [|x [|y [|z r]]]; cbn [base64url_sextets Base64.bytes_of];
    repeat match goal with
           | H : Forall _ (_ :: _) |- _ => inversion H; clear H; subst
           end.
  - repeat split; [constructor|discriminate].
  - split; [repeat constructor; div_mod_lia|].
    split; [f_equal; div_mod_lia|discriminate].
  - split; [repeat constructor; div_mod_lia|].
    split; [repeat (f_equal; try div_mod_lia)|discriminate].
  - destruct (IH r) as [Hr1 [Hr2 Hr3]]; [simpl in Hn; lia|assumption|].
    split; [repeat constructor; try div_mod_lia; exact Hr1|].
    split.
    + rewrite Hr2. repeat (f_equal; try div_mod_lia).
    + cbn [List.length].
      replace (S (S (S (S (List.length (base64url_sextets r))))))
        with (List.length (base64url_sextets r) + 1 * 4)%nat by lia.
      rewrite Nat.Div0.mod_add. exact Hr3.
Qed.

Lemma in_below_64 (v : N) : (v < 64)%N -> In v (map N.of_nat (seq 0 64)).
Proof.
  intros H. rewrite <- (N2Nat.id v). apply in_map. apply in_seq. lia.
Qed.

(** Every base64url code unit reads back as its six bits. *)
Lemma url_char_sextet (v : N) :
  (v < 64)%N ->
  Base64.sextet
    (if N.eqb (url_char v) 95 then 47%N
     else if N.eqb (url_char v) 45 then 43%N else url_char v) = Some v.
Proof.
  intros H.
  assert (Hall : forallb
            (fun v => match Base64.sextet
                              (if N.eqb (url_char v) 95 then 47%N
                               else if N.eqb (url_char v) 45 then 43%N
                                    else url_char v) with
                      | Some w => N.eqb w v
                      | None => false
                      end) (map N.of_nat (seq 0 64)) = true)
    by (vm_compute; reflexivity).
  rewrite forallb_forall in Hall. specialize (Hall v (in_below_64 v H)).
  destruct (Base64.sextet _) as [w|]; [|discriminate].
  apply N.eqb_eq in Hall. subst w. reflexivity.
Qed.

Lemma to_standard_alphabet_cons (c : N) (s : jsstring) :
  to_standard_alphabet (c :: s)
  = (if N.eqb c 95 then 47%N else if N.eqb c 45 then 43%N else c)
    :: to_standard_alphabet s.
Proof.
  unfold to_standard_alphabet. simpl. f_equal.
  destruct (N.eqb_spec c 45) as [->|H45]; [reflexivity|].
  reflexivity.
Qed.

Lemma base64url_reads_back (vs : list N) :
  Forall (fun v => (v < 64)%N) vs ->
  Base64.sextets (to_standard_alphabet (map url_char vs)) = Some vs.
Proof.
  induction 1 as [|v vs Hv _ IH]; [reflexivity|].
  cbn [map]. rewrite to_standard_alphabet_cons. cbn [Base64.sextets].
  rewrite (url_char_sextet v Hv), IH. reflexivity.
Qed.

(** X1. A VAPID key published as unpadded base64url text decodes to its
    bytes: for every sequence of bytes, [urlBase64ToUint8Array] applied
    to its base64url text returns that sequence. *)
Theorem urlBase64ToUint8Array_decodes_base64url (bytes : list N) :
  Forall (fun b => (b < 256)%N) bytes ->
  urlBase64ToUint8Array (base64url bytes) = Some bytes.
Proof.
  intros Hb.
  destruct (base64url_sextets_spec_le (List.length bytes) bytes (le_n _) Hb)
    as [Hv [Hdec Hlen]].
  unfold base64url.
  rewrite (urlBase64_clean _ _ (base64url_reads_back _ Hv)).
  rewrite length_map.
  apply Nat.eqb_neq in Hlen. rewrite Hlen, Hdec. reflexivity.
Qed.

Lemma urlBase64ToUint8Array_decodes_base64url_witness :
  urlBase64ToUint8Array (base64url [72; 101; 108; 108; 111]%N)
  = Some [72; 101; 108; 108; 111]%N.
Proof.
  apply urlBase64ToUint8Array_decodes_base64url.
  repeat constructor.
Defined.

(** X2. On a text made of base64 or base64url code units only,
    [urlBase64ToUint8Array] throws exactly when the length is one more
    than a multiple of four; otherwise it returns an array of
    floor(3 * length / 4) bytes. *)
Theorem urlBase64ToUint8Array_on_alphabet (s : jsstring) :
  forallb is_base64_char s = true ->
  (urlBase64ToUint8Array s = None <-> Nat.modulo (List.length s) 4 = 1%nat)
  /\ (forall bytes, urlBase64ToUint8Array s = Some bytes ->
        List.length bytes = (3 * List.length s / 4)%nat
        /\ Forall (fun b => (b < 256)%N) bytes).
Proof.
  intros Hs. destruct (clean_sextets s Hs) as [vs Hvs].
  rewrite (urlBase64_clean s vs Hvs).
  destruct (sextets_clean _ _ Hvs) as [_ Hrange].
  pose proof (sextets_length _ _ Hvs) as Hlen.
  rewrite to_standard_alphabet_length in Hlen.
  destruct (Nat.eqb_spec (Nat.modulo (List.length s) 4) 1) as [E|E].
  - split; [tauto|discriminate].
  - split; [split; [discriminate|contradiction]|].
    intros bytes H. injection H as <-.
    rewrite bytes_of_length, Hlen. split; [reflexivity|].
    apply bytes_of_range; assumption.
Qed.

Lemma urlBase64ToUint8Array_on_alphabet_witness :
  urlBase64ToUint8Array (js "-_8x") <> None
  /\ (urlBase64ToUint8Array (js "-_8xQ") = None).
Proof.
  split.
  - intros H.
    apply (proj1 (proj1 (urlBase64ToUint8Array_on_alphabet (js "-_8x") eq_refl)))
      in H. discriminate H.
  - apply (proj2 (proj1 (urlBase64ToUint8Array_on_alphabet (js "-_8xQ") eq_refl))).
    reflexivity.
Defined.

Lemma sextets_ends_with_eq (l : jsstring) : Base64.sextets (l ++ [61%N]) = None.
Proof.
  rewrite sextets_app. destruct (Base64.sextets l); reflexivity.
Qed.

Lemma atob_from_stripped (data : jsstring) :
  Base64.sextets
    (Base64.strip_padding
       (filter (fun c => negb (Base64.is_ascii_whitespace c)) data)) = None ->
  Base64.atob data = None.
Proof.
  intros H. unfold Base64.atob. rewrite H.
  destruct (Nat.eqb _ 1); reflexivity.
Qed.

Lemma in_strip_padding (c : N) (data : jsstring) :
  In c data -> c <> 61%N -> In c (Base64.strip_padding data).
Proof.
  intros Hin Hc. unfold Base64.strip_padding.
  assert (Hdrop : forall l, In c l -> In c (Base64.drop_last_eq l)).
  { intros l Hl. destruct (drop_last_eq_cases l) as [E|E].
    - rewrite E. exact Hl.
    - rewrite E in Hl. apply in_app_or in Hl.
      destruct Hl as [Hl|[Hl|[]]]; [exact Hl|congruence]. }
  destruct (Nat.eqb _ 0); [|exact Hin].
  apply Hdrop, Hdrop, Hin.
Qed.

(** X3. [urlBase64ToUint8Array] throws on every text whose length is one
    more than a multiple of four, whatever its content, and on every text
    that holds a code unit which is neither of an alphabet, nor [=], nor
    ASCII whitespace. *)
Theorem urlBase64ToUint8Array_rejects (s : jsstring) :
  Nat.modulo (List.length s) 4 = 1%nat
  \/ (exists c, In c s /\ is_base64_char c = false
                /\ Base64.is_ascii_whitespace c = false /\ c <> 61%N) ->
  urlBase64ToUint8Array s = None.
Proof.
  intros H. unfold urlBase64ToUint8Array.
  replace (Base64.atob (to_standard_alphabet (s ++ padding s))) with (@None jsstring);
    [reflexivity|]. symmetry.
  apply atob_from_stripped.
  destruct H as [Hlen|[c [Hin [Hbad [Hws Heq]]]]].
  - unfold padding. rewrite Hlen. change (Nat.modulo (4 - 1) 4) with 3%nat.
    rewrite to_standard_alphabet_app, to_standard_alphabet_padding.
    rewrite filter_app. cbn [repeat filter Base64.is_ascii_whitespace existsb].
    change (negb (N.eqb 61 9 || (N.eqb 61 10 || (N.eqb 61 12
             || (N.eqb 61 13 || (N.eqb 61 32 || false)))))) with true.
    cbv iota.
    set (T := filter _ (to_standard_alphabet s)).
    unfold Base64.strip_padding.
    destruct (Nat.eqb _ 0).
    + change (T ++ [61; 61; 61]%N) with (T ++ [61%N] ++ [61%N] ++ [61%N]).
      rewrite !app_assoc, !drop_last_eq_app. apply sextets_ends_with_eq.
    + change (T ++ [61; 61; 61]%N) with (T ++ [61; 61]%N ++ [61%N]).
      rewrite app_assoc. apply sextets_ends_with_eq.
  - assert (Hc : Base64.sextet c = None /\ c <> 95%N /\ c <> 45%N).
    { unfold is_base64_char in Hbad.
      destruct (N.eqb_spec c 95) as [->|H95]; [discriminate Hbad|].
      destruct (N.eqb_spec c 45) as [->|H45]; [discriminate Hbad|].
      destruct (Base64.sextet c); [discriminate|]. auto. }
    destruct Hc as [Hsx [H95 H45]].
    apply (sextets_bad _ c); [|exact Hsx].
    apply in_strip_padding; [|exact Heq].
    apply filter_In. split; [|rewrite Hws; reflexivity].
    rewrite to_standard_alphabet_app. apply in_or_app. left.
    clear -Hin H95 H45. induction s as [|d r IH]; [contradiction|].
    rewrite to_standard_alphabet_cons. destruct Hin as [->|Hin].
    + left. apply N.eqb_neq in H95, H45. rewrite H95, H45. reflexivity.
    + right. apply IH. exact Hin.
Qed.

Lemma urlBase64ToUint8Array_rejects_witness :
  urlBase64ToUint8Array (js "Q Q=!") = None
  /\ urlBase64ToUint8Array (js "QQ!Q") = None.
Proof.
  split.
  - apply urlBase64ToUint8Array_rejects. left. reflexivity.
  - apply urlBase64ToUint8Array_rejects. right. exists 33%N.
    repeat split; try discriminate. simpl. tauto.
Defined.

Lemma to_standard_alphabet_idem (s : jsstring) :
  to_standard_alphabet (to_standard_alphabet s) = to_standard_alphabet s.
Proof.
  induction s as [|c r IH]; [reflexivity|].
  rewrite !to_standard_alphabet_cons, IH. f_equal.
  destruct (N.eqb_spec c 95) as [->|H95]; [reflexivity|].
  destruct (N.eqb_spec c 45) as [->|H45]; [reflexivity|].
  apply N.eqb_neq in H95, H45. rewrite H95, H45. reflexivity.
Qed.

(** X4. [urlBase64ToUint8Array] reads a key alike with and without its
    [=] padding, and alike in the base64url and in the base64 alphabet:
    appending the padding it would add itself, or replacing [-] and [_]
    by [+] and [/] beforehand, changes nothing of what it returns or
    throws. *)
Theorem urlBase64ToUint8Array_padding_and_alphabet (s : jsstring) :
  urlBase64ToUint8Array (s ++ padding s) = urlBase64ToUint8Array s
  /\ urlBase64ToUint8Array (to_standard_alphabet s) = urlBase64ToUint8Array s.
Proof.
  split.
  - unfold urlBase64ToUint8Array at 1.
    assert (E : padding (s ++ padding s) = []).
    { unfold padding. rewrite length_app, repeat_length.
      replace (Nat.modulo (List.length s
                 + Nat.modulo (4 - Nat.modulo (List.length s) 4) 4) 4)
        with 0%nat; [reflexivity|].
      pose proof (Nat.mod_upper_bound (List.length s) 4 ltac:(discriminate)) as Hm.
      rewrite <- Nat.Div0.add_mod_idemp_l.
      destruct (Nat.modulo (List.length s) 4) as [|[|[|[|k]]]];
        [reflexivity|reflexivity|reflexivity|reflexivity|lia]. }
    rewrite E, app_nil_r. reflexivity.
  - unfold urlBase64ToUint8Array, padding.
    rewrite to_standard_alphabet_length, !to_standard_alphabet_app,
      to_standard_alphabet_idem. reflexivity.
Qed.

(** ** Adding and deleting alerts *)

Lemma filter_comm {A} (f g : A -> bool) (l : list A) :
  filter f (filter g l) = filter g (filter f l).
Proof.
  induction l as [|a l IH]; simpl; [reflexivity|].
  destruct (f a) eqn:Ef, (g a) eqn:Eg; simpl; rewrite ?Ef, ?Eg, IH; reflexivity.
Qed.

Lemma filter_idem {A} (f : A -> bool) (l : list A) :
  filter f (filter f l) = filter f l.
Proof.
  apply filter_all. intros a Ha. apply filter_In in Ha. tauto.
Qed.

Lemma deleteAlert_twice (i j : Z) (st : state) :
  deleteAlert i (deleteAlert j st)
  = set_alerts
      (Some (JSON_roundtrip
               (filter (fun a => negb (Z.eqb (id a) i))
                  (filter (fun a => negb (Z.eqb (id a) j)) (getAlerts st)))))
      st.
Proof.
  unfold deleteAlert. rewrite getAlerts_saveAlerts.
  rewrite <- JSON_roundtrip_filter by reflexivity.
  unfold saveAlerts, set_alerts. cbn.
  rewrite JSON_roundtrip_idem. reflexivity.
Qed.

(** X5. An accepted submission appends one alert, with the submitted
    symbol and the id [Date.now()] gave, after the alerts already
    stored, which stay as they were and in their order; a rejected
    submission stores nothing.  In both cases one dialog is shown and
    nothing else changes. *)
Theorem handleAlertSubmit_appends (sym highText lowText : jsstring) (now : Z)
    (st : state) :
  persisted (getAlerts st) ->
  let st' := handleAlertSubmit sym highText lowText now st in
  (if Number.truthy (parseFloat highText) || Number.truthy (parseFloat lowText)
   then exists a,
          getAlerts st' = getAlerts st ++ [a]
          /\ symbol a = sym /\ id a = now
          /\ dialogs st' = dialogs st ++ [js "Alert set for " ++ sym]
   else stockVisionAlerts st' = stockVisionAlerts st
        /\ dialogs st'
           = dialogs st
             ++ [js "Please set at least one threshold (High or Low)."])
  /\ lastNotification st' = lastNotification st
  /\ notifications st' = notifications st
  /\ requests st' = requests st
  /\ console st' = console st.
Proof.
  intros Hp. cbv zeta.
  assert (Happ : forall a (d : jsstring),
             getAlerts (add_dialog d (saveAlerts (getAlerts st ++ [a]) st))
             = getAlerts st ++ [JSON_alert a]).
  { intros a d. change (getAlerts (add_dialog d (saveAlerts (getAlerts st ++ [a]) st)))
      with (JSON_roundtrip (getAlerts st ++ [a])).
    unfold JSON_roundtrip. rewrite map_app.
    fold (JSON_roundtrip (getAlerts st)). rewrite Hp. reflexivity. }
  unfold handleAlertSubmit.
  destruct (Number.truthy (parseFloat highText));
    destruct (Number.truthy (parseFloat lowText)); cbn [negb andb orb];
    (split; [|repeat split]);
    try (eexists; split; [apply Happ|repeat split]).
  split; reflexivity.
Qed.

Lemma handleAlertSubmit_appends_witness :
  exists a,
    getAlerts (handleAlertSubmit (js "TCS") (js "") (js "2500") 1700000005000
                 (saveAlerts [reliance_3000] (fresh None)))
    = [reliance_3000] ++ [a]
    /\ symbol a = js "TCS" /\ id a = 1700000005000.
Proof.
  destruct (proj1 (handleAlertSubmit_appends (js "TCS") (js "") (js "2500")
                     1700000005000 (saveAlerts [reliance_3000] (fresh None))
                     eq_refl))
    as [a [H1 [H2 [H3 _]]]].
  exists a. split; [exact H1|]. split; [exact H2|exact H3].
Defined.

(** X6. Deleting by the id a submission was given undoes the submission:
    when no stored alert already has that id, the store reads after
    [handleAlertSubmit] and [deleteAlert] as it did before. *)
Theorem deleteAlert_undoes_submit (sym highText lowText : jsstring) (now : Z)
    (st : state) :
  persisted (getAlerts st) ->
  (forall a, In a (getAlerts st) -> id a <> now) ->
  getAlerts (deleteAlert now (handleAlertSubmit sym highText lowText now st))
  = getAlerts st.
Proof.
  intros Hp Hfresh.
  assert (Hkeep : filter (fun a => negb (Z.eqb (id a) now)) (getAlerts st)
                  = getAlerts st).
  { apply filter_all. intros a Ha.
    apply negb_true_iff, Z.eqb_neq, Hfresh, Ha. }
  rewrite deleteAlert_alerts
    by (apply handleAlertSubmit_persisted; exact Hp).
  rewrite handleAlertSubmit_alerts. unfold persisted in Hp.
  destruct (negb (Number.truthy (parseFloat highText))
            && negb (Number.truthy (parseFloat lowText))).
  - exact Hkeep.
  - rewrite Hp, filter_app, Hkeep. cbn [filter JSON_alert id].
    rewrite Z.eqb_refl. cbn [negb]. apply app_nil_r.
Qed.

Lemma deleteAlert_undoes_submit_witness :
  getAlerts (deleteAlert 1700000005000
               (handleAlertSubmit (js "TCS") (js "") (js "2500") 1700000005000
                  (saveAlerts [reliance_3000] (fresh None))))
  = [reliance_3000].
Proof.
  apply (deleteAlert_undoes_submit (js "TCS") (js "") (js "2500")
           1700000005000 (saveAlerts [reliance_3000] (fresh None)) eq_refl).
  intros a [<-|[]]. discriminate.
Defined.

(** X7. Deleting the same id twice is deleting it once, and two
    deletions give the same state in either order. *)
Theorem deleteAlert_idempotent_commutative (i j : Z) (st : state) :
  deleteAlert i (deleteAlert i st) = deleteAlert i st
  /\ deleteAlert i (deleteAlert j st) = deleteAlert j (deleteAlert i st).
Proof.
  split.
  - rewrite deleteAlert_twice, filter_idem. reflexivity.
  - rewrite !deleteAlert_twice, filter_comm. reflexivity.
Qed.

(** ** Runs of dispatches *)

Lemma notifyUser_cache (m : jsstring) (st : state) :
  lastNotification (notifyUser m st) = Some m.
Proof.
  unfold notifyUser.
  destruct (is_duplicate (lastNotification st) m) eqn:E; [|reflexivity].
  unfold is_duplicate in E.
  destruct (lastNotification st) as [[|c l]|]; try discriminate.
  apply jsstring_eqb_eq in E. congruence.
Qed.

Lemma notifyUser_requests (m : jsstring) (st : state) :
  requests (notifyUser m st)
  = requests st ++ (if is_duplicate (lastNotification st) m then [] else [m]).
Proof.
  unfold notifyUser. destruct (is_duplicate _ _); simpl.
  - symmetry. apply app_nil_r.
  - reflexivity.
Qed.

Lemma notifyUser_resets (m : jsstring) (st : state) :
  resets (notifyUser m st)
  = if is_duplicate (lastNotification st) m then resets st else S (resets st).
Proof. unfold notifyUser. destruct (is_duplicate _ _); reflexivity. Qed.

Lemma notifyUser_permission (m : jsstring) (st : state) :
  Notification_permission (notifyUser m st) = Notification_permission st.
Proof. unfold notifyUser. destruct (is_duplicate _ _); reflexivity. Qed.

Lemma notifyUser_notifications (m : jsstring) (st : state) :
  notifications (notifyUser m st)
  = notifications st
    ++ (if is_duplicate (lastNotification st) m then []
        else match Notification_permission st with
             | Some granted => [m]
             | _ => []
             end).
Proof.
  unfold notifyUser. destruct (is_duplicate _ _); simpl.
  - symmetry. apply app_nil_r.
  - destruct (Notification_permission st) as [[| |]|];
      rewrite ?app_nil_r; reflexivity.
Qed.

Lemma last_cons_default {A} (x d : A) (l : list A) :
  last (x :: l) d = last l x.
Proof.
  revert x d; induction l as [|y l IH]; intros x d; [reflexivity|].
  change (last (x :: y :: l) d) with (last (y :: l) d).
  rewrite (IH y d), (IH y x). reflexivity.
Qed.

Lemma dispatch_run (ms : list jsstring) (st : state) :
  let st' := fold_left (fun s m => notifyUser m s) ms st in
  requests st' = requests st ++ posted (lastNotification st) ms
  /\ notifications st'
     = notifications st
       ++ match Notification_permission st with
          | Some granted => posted (lastNotification st) ms
          | _ => []
          end
  /\ lastNotification st' = last (map Some ms) (lastNotification st)
  /\ Notification_permission st' = Notification_permission st.
Proof.
  revert st; induction ms as [|m r IH]; intros st; cbn [fold_left posted].
  - cbn. rewrite !app_nil_r.
    destruct (Notification_permission st) as [[| |]|]; rewrite ?app_nil_r;
      repeat split; reflexivity.
  - destruct (IH (notifyUser m st)) as [H1 [H2 [H3 H4]]].
    cbv zeta in *. rewrite H1, H2, H3, H4.
    rewrite notifyUser_requests, notifyUser_notifications, notifyUser_cache,
      notifyUser_permission.
    rewrite <- !app_assoc.
    split; [reflexivity|]. split; [|split; [|reflexivity]].
    + destruct (Notification_permission st) as [[| |]|];
        destruct (is_duplicate (lastNotification st) m);
        rewrite ?app_nil_r; reflexivity.
    + cbn [map]. symmetry. apply last_cons_default.
Qed.

Lemma posted_subset (cache : option jsstring) (ms : list jsstring) (m : jsstring) :
  In m (posted cache ms) -> In m ms.
Proof.
  revert cache; induction ms as [|x r IH]; intros cache; cbn [posted]; [tauto|].
  intros H. apply in_app_or in H. destruct H as [H|H].
  - destruct (is_duplicate cache x); [contradiction|].
    destruct H as [<-|[]]. left; reflexivity.
  - right. apply (IH _ H).
Qed.

Section Evaluation.

Variable Number_toString : number -> jsstring.
Variable toFixed : number -> nat -> jsstring.

Lemma checkAlerts_run (sym : jsstring) (price : number) (st : state) :
  checkAlerts Number_toString toFixed sym price st
  = fold_left (fun s m => notifyUser m s)
      (map (message Number_toString toFixed sym price)
           (breaches (getAlerts st) sym price)) st.
Proof.
  unfold checkAlerts. apply (fold_left_map (fun s m => notifyUser m s)).
Qed.

(** X8. What one evaluation sends: [checkAlerts] posts the messages of
    its breach events in their order, leaving out each message that
    repeats the message just before it (for the first, the cached one);
    with permission it shows the same messages as local notifications,
    without permission none; and the message of the last event, if there
    is one, is what the cache holds afterwards. *)
Theorem checkAlerts_posts (sym : jsstring) (price : number) (st : state) :
  let ms := map (message Number_toString toFixed sym price)
                (breaches (getAlerts st) sym price) in
  let st' := checkAlerts Number_toString toFixed sym price st in
  requests st' = requests st ++ posted (lastNotification st) ms
  /\ notifications st'
     = notifications st
       ++ match Notification_permission st with
          | Some granted => posted (lastNotification st) ms
          | _ => []
          end
  /\ lastNotification st' = last (map Some ms) (lastNotification st)
  /\ (forall m, In m (posted (lastNotification st) ms) -> In m ms).
Proof.
  intros ms st'.
  assert (E : st' = fold_left (fun s m => notifyUser m s) ms st)
    by apply checkAlerts_run.
  destruct (dispatch_run ms st) as [H1 [H2 [H3 _]]]. cbv zeta in *.
  rewrite E. repeat split; try assumption.
  intros m. apply posted_subset.
Qed.

(** X9. One run of the ticker callback never changes the stored alerts;
    on an empty store it does nothing; otherwise, when it does not throw,
    it has evaluated the symbol of one stored alert at the price simulated
    from that alert's reference price, and when it throws, the exception
    is a TypeError and the index it drew is outside the stored
    sequence. *)
Theorem tick_evaluates_one_alert (u1 u2 : number) (st : state) :
  match tick Number_toString toFixed u1 u2 st with
  | Return st' =>
      stockVisionAlerts st' = stockVisionAlerts st
      /\ (getAlerts st = [] -> st' = st)
      /\ (getAlerts st <> [] ->
          exists a, In a (getAlerts st)
                    /\ st' = checkAlerts Number_toString toFixed (symbol a)
                               (currentPrice (basePrice a) u2) st)
  | Throw e =>
      e = TypeError /\ getAlerts st <> []
      /\ forall i, Number.floor
                     (Number.mul u1 (of_Z (Z.of_nat (List.length (getAlerts st)))))
                   = Some i ->
                   (i < 0 \/ Z.of_nat (List.length (getAlerts st)) <= i)%Z
  end.
Proof.
  unfold tick. destruct (getAlerts st) as [|a0 l] eqn:El.
  - split; [reflexivity|]. split; [reflexivity|].
    intros H. contradiction H. reflexivity.
  - set (len := Z.of_nat (List.length (a0 :: l))).
    destruct (Number.floor (Number.mul u1 (of_Z len))) as [i|] eqn:Ei.
    + destruct (Z.ltb_spec i 0) as [Hneg|Hpos].
      * split; [reflexivity|]. split; [discriminate|].
        intros j Hj. injection Hj as <-. lia.
      * destruct (nth_error (a0 :: l) (Z.to_nat i)) as [a|] eqn:En.
        -- split; [|split].
           ++ rewrite checkAlerts_run. apply dispatch_all_alerts.
           ++ discriminate.
           ++ intros _. exists a. split; [|reflexivity].
              apply (nth_error_In _ _ En).
        -- split; [reflexivity|]. split; [discriminate|].
           intros j Hj. injection Hj as <-.
           apply nth_error_None in En. unfold len. lia.
    + split; [reflexivity|]. split; [discriminate|].
      intros j Hj. discriminate Hj.
Qed.

End Evaluation.

(** X10. The cache remembers one message only: once [A] was dispatched, a
    different message [B] and then [A] again are both posted, however
    soon they come. *)
Theorem notifyUser_single_slot (A B : jsstring) (st : state) :
  A <> B ->
  requests (notifyUser A (notifyUser B (notifyUser A st)))
  = requests (notifyUser A st) ++ [B; A]
  /\ lastNotification (notifyUser A (notifyUser B (notifyUser A st))) = Some A.
Proof.
  intros Hne. split; [|apply notifyUser_cache].
  rewrite !(notifyUser_requests A (notifyUser B _)),
    !(notifyUser_requests B (notifyUser A st)), !notifyUser_cache.
  rewrite (is_duplicate_other A B) by congruence.
  rewrite (is_duplicate_other B A) by congruence.
  rewrite <- app_assoc. reflexivity.
Qed.

Lemma notifyUser_single_slot_witness :
  requests (notifyUser (js "a") (notifyUser (js "b")
              (notifyUser (js "a") (fresh None))))
  = [js "a"; js "b"; js "a"].
Proof.
  apply (proj1 (notifyUser_single_slot (js "a") (js "b") (fresh None)
                  ltac:(discriminate))).
Defined.

(** X11. A reset timer is never cancelled, so the timer of an earlier
    message clears the cache of a later one: after [A] and then a
    different message [B] were dispatched with no timer pending before,
    the first timer to run empties the cache while the timer of [B] is
    still pending, and [B] is then posted a second time. *)
Theorem stale_reset_reopens (A B : jsstring) (st : state) :
  A <> B ->
  resets st = 0%nat ->
  is_duplicate (lastNotification st) A = false ->
  let st2 := notifyUser B (notifyUser A st) in
  let st3 := fire_reset st2 in
  resets st2 = 2%nat
  /\ resets st3 = 1%nat
  /\ lastNotification st3 = None
  /\ requests (notifyUser B st3) = requests st ++ [A; B; B].
Proof.
  intros Hne Hr HA st2 st3.
  assert (HB : is_duplicate (lastNotification (notifyUser A st)) B = false).
  { rewrite notifyUser_cache. apply is_duplicate_other. congruence. }
  assert (R2 : resets st2 = 2%nat).
  { unfold st2. rewrite !notifyUser_resets, HB, HA, Hr. reflexivity. }
  assert (E3 : st3 = mk_state (stockVisionAlerts st2) None 1
                       (Notification_permission st2) (notifications st2)
                       (requests st2) (console st2) (dialogs st2)).
  { unfold st3, fire_reset. rewrite R2. reflexivity. }
  split; [exact R2|]. split; [rewrite E3; reflexivity|].
  split; [rewrite E3; reflexivity|].
  rewrite notifyUser_requests. rewrite E3.
  cbn [requests lastNotification is_duplicate].
  unfold st2. rewrite !notifyUser_requests, HB, HA.
  rewrite <- !app_assoc. reflexivity.
Qed.

Lemma stale_reset_reopens_witness :
  requests (notifyUser (js "b")
              (fire_reset (notifyUser (js "b")
                             (notifyUser (js "a") (fresh None)))))
  = [js "a"; js "b"; js "b"].
Proof.
  apply (stale_reset_reopens (js "a") (js "b") (fresh None)
           ltac:(discriminate) eq_refl eq_refl).
Defined.

(** ** The service worker *)

Lemma is_prefix_spec (p s : jsstring) :
  is_prefix p s = true <-> exists b, s = p ++ b.
Proof.
  revert s; induction p as [|x p IH]; intros s; simpl.
  - split; [intros _; exists s; reflexivity|reflexivity].
  - destruct s as [|y s].
    + split; [discriminate|intros [b H]; discriminate].
    + rewrite andb_true_iff, N.eqb_eq, IH. split.
      * intros [-> [b ->]]. exists b. reflexivity.
      * intros [b H]. injection H as -> ->. split; [reflexivity|].
        exists b. reflexivity.
Qed.

(** [includes] finds the text anywhere in the string. *)
Lemma includes_spec (s sub : jsstring) :
  ServiceWorker.includes s sub = true <-> exists a b, s = a ++ sub ++ b.
Proof.
  induction s as [|c r IH]; cbn [ServiceWorker.includes].
  - rewrite orb_false_r, is_prefix_spec. split.
    + intros [b H]. exists [], b. exact H.
    + intros [a [b H]]. destruct a; [|discriminate]. exists b. exact H.
  - rewrite orb_true_iff, is_prefix_spec, IH. split.
    + intros [[b H]|[a [b H]]].
      * exists [], b. exact H.
      * exists (c :: a), b. rewrite H. reflexivity.
    + intros [[|x a] [b H]].
      * left. exists b. exact H.
      * right. injection H as -> ->. exists a, b. reflexivity.
Qed.

Lemma get_throws (data : json) (key : jsstring) (e : exn) :
  ServiceWorker.get data key = Throw e <-> data = JNull /\ e = TypeError.
Proof.
  destruct data; simpl; split;
    try discriminate; try (intros [H _]; discriminate H).
  - intros H; injection H as <-. split; reflexivity.
  - intros [_ ->]. reflexivity.
Qed.

(** X12. The push listener throws, and shows nothing, exactly when the
    payload is the JSON text of [null]; the exception is then a
    TypeError.  Every other payload, and an event without data, ends in
    one [showNotification]. *)
Theorem on_push_throws_on_null (payload : option jsstring) (e : exn) :
  ServiceWorker.on_push payload = Throw e <->
  e = TypeError
  /\ exists text, payload = Some text /\ JSON.parse text = Return JNull.
Proof.
  unfold ServiceWorker.on_push.
  set (data := match payload with
               | None => _
               | Some text => _
               end).
  assert (Hd : data = JNull <->
               exists text, payload = Some text /\ JSON.parse text = Return JNull).
  { unfold data. destruct payload as [text|].
    - destruct (JSON.parse text) as [v|x] eqn:Ep.
      + split.
        * intros Hv. exists text. split; [reflexivity|]. congruence.
        * intros [t [Ht Hp]]. injection Ht as <-. congruence.
      + split; [discriminate|].
        intros [t [Ht Hp]]. injection Ht as <-. congruence.
    - split; [discriminate|]. intros [t [Ht _]]. discriminate Ht. }
  rewrite <- Hd. clear Hd.
  destruct data; simpl; split;
    try discriminate; try (intros [_ H]; discriminate H).
  - intros H. injection H as <-. split; reflexivity.
  - intros [-> _]. reflexivity.
Qed.

(** X13. A payload that is not JSON is shown as the body of the
    notification, under the default title and with the dashboard as its
    url; an event without data shows the default body. *)
Theorem on_push_falls_back_to_text :
  ServiceWorker.on_push None
  = Return (ServiceWorker.mk_shown
              (Some (JStr (js "StockVision Alert")))
              (Some (JStr (js "You have a new notification")))
              (JStr (js "/dashboard")))
  /\ forall text e,
       JSON.parse text = Throw e ->
       ServiceWorker.on_push (Some text)
       = Return (ServiceWorker.mk_shown
                   (Some (JStr (js "StockVision Alert")))
                   (Some (JStr text))
                   (JStr (js "/dashboard"))).
Proof.
  split; [reflexivity|].
  intros text e H. unfold ServiceWorker.on_push. rewrite H. reflexivity.
Qed.

Lemma on_push_falls_back_to_text_witness :
  ServiceWorker.on_push (Some (js "RELIANCE crossed above 3000"))
  = Return (ServiceWorker.mk_shown
              (Some (JStr (js "StockVision Alert")))
              (Some (JStr (js "RELIANCE crossed above 3000")))
              (JStr (js "/dashboard"))).
Proof.
  apply (proj2 on_push_falls_back_to_text _ SyntaxError). reflexivity.
Defined.

Lemma first_window_spec (origin : jsstring) (target : json)
    (clientList : list ServiceWorker.client) (n : nat) :
  match ServiceWorker.first_window origin target n clientList with
  | Some e =>
      exists i c,
        e = ServiceWorker.Focused (n + i) target
        /\ nth_error clientList i = Some c
        /\ ServiceWorker.includes (ServiceWorker.client_url c) origin = true
        /\ ServiceWorker.has_focus c = true
        /\ forall j d, (j < i)%nat -> nth_error clientList j = Some d ->
             ServiceWorker.includes (ServiceWorker.client_url d) origin
             && ServiceWorker.has_focus d = false
  | None =>
      forall d, In d clientList ->
        ServiceWorker.includes (ServiceWorker.client_url d) origin
        && ServiceWorker.has_focus d = false
  end.
Proof.
  revert n; induction clientList as [|c r IH]; intros n;
    cbn [ServiceWorker.first_window].
  - intros d [].
  - destruct (ServiceWorker.includes (ServiceWorker.client_url c) origin
              && ServiceWorker.has_focus c) eqn:E.
    + exists 0%nat, c. apply andb_true_iff in E. destruct E as [E1 E2].
      rewrite Nat.add_0_r. repeat split; try assumption.
      intros j d Hj. lia.
    + specialize (IH (S n)).
      destruct (ServiceWorker.first_window origin target (S n) r) as [e|].
      * destruct IH as [i [c' [He [Hn [H1 [H2 H3]]]]]].
        exists (S i), c'. rewrite Nat.add_succ_r. repeat split; try assumption.
        intros [|j] d Hj Hd.
        -- injection Hd as <-. exact E.
        -- apply (H3 j d); [lia|exact Hd].
      * intros d [<-|Hd]; [exact E|apply IH; exact Hd].
Qed.

(** X14. A click on the notification never throws.  With the action
    [dismiss] it only closes the notification.  Otherwise it navigates
    and focuses the first client, in the order of the list, whose url
    contains the origin and that can be focused; only when there is no
    such client does it open a new window, if [clients.openWindow]
    exists. *)
Theorem on_notificationclick_first_window (action : jsstring)
    (data : option json) (origin : jsstring) (openWindow : bool)
    (clientList : list ServiceWorker.client) :
  exists effect,
    ServiceWorker.on_notificationclick action data origin openWindow clientList
    = Return effect
    /\ (action = js "dismiss" <-> effect = ServiceWorker.Dismissed)
    /\ (forall i t, effect = ServiceWorker.Focused i t ->
          exists c,
            nth_error clientList i = Some c
            /\ ServiceWorker.includes (ServiceWorker.client_url c) origin = true
            /\ ServiceWorker.has_focus c = true
            /\ forall j d, (j < i)%nat -> nth_error clientList j = Some d ->
                 ServiceWorker.includes (ServiceWorker.client_url d) origin
                 && ServiceWorker.has_focus d = false)
    /\ (forall t, effect = ServiceWorker.Opened t ->
          openWindow = true
          /\ forall d, In d clientList ->
               ServiceWorker.includes (ServiceWorker.client_url d) origin
               && ServiceWorker.has_focus d = false)
    /\ (effect = ServiceWorker.NoWindow ->
          openWindow = false
          /\ forall d, In d clientList ->
               ServiceWorker.includes (ServiceWorker.client_url d) origin
               && ServiceWorker.has_focus d = false).
Proof.
  unfold ServiceWorker.on_notificationclick.
  destruct (jsstring_eqb action (js "dismiss")) eqn:Ea.
  - exists ServiceWorker.Dismissed. apply jsstring_eqb_eq in Ea.
    split; [reflexivity|]. split; [tauto|].
    split; [discriminate|]. split; discriminate.
  - assert (Hna : action <> js "dismiss").
    { intros H. apply jsstring_eqb_eq in H. congruence. }
    assert (Hu : exists u,
               match data with
               | None | Some JNull => Return None
               | Some d => ServiceWorker.get d (js "url")
               end = Return u).
    { destruct data as [[| | | | |]|]; simpl; eexists; reflexivity. }
    destruct Hu as [u Hu]. rewrite Hu. cbn [bind].
    set (targetUrl := match u with
                      | Some j => _
                      | None => _
                      end).
    pose proof (first_window_spec origin targetUrl clientList 0) as Hw.
    destruct (ServiceWorker.first_window origin targetUrl 0 clientList) as [e|].
    + destruct Hw as [i [c [-> [Hn [H1 [H2 H3]]]]]].
      exists (ServiceWorker.Focused (0 + i) targetUrl). split; [reflexivity|].
      split; [split; [contradiction|discriminate]|].
      split; [|split; discriminate].
      intros i' t H. injection H as <- <-. exists c. auto.
    + destruct openWindow.
      * exists (ServiceWorker.Opened targetUrl). split; [reflexivity|].
        split; [split; [contradiction|discriminate]|].
        split; [discriminate|]. split; [|discriminate].
        intros t _. split; [reflexivity|exact Hw].
      * exists ServiceWorker.NoWindow. split; [reflexivity|].
        split; [split; [contradiction|discriminate]|].
        split; [discriminate|]. split; [discriminate|].
        intros _. split; [reflexivity|exact Hw].
Qed.




(** ** Chart colours *)

Lemma in_below_128 (c : N) : (c < 128)%N -> In c (map N.of_nat (seq 0 128)).
Proof.
  intros H. rewrite <- (N2Nat.id c). apply in_map. apply in_seq. lia.
Qed.

(** A hexadecimal digit is below 16, and it is neither white space, nor
    a sign, nor the letter of the prefix [0x]. *)
Lemma hex_value_inv (c v : N) :
  JSON.hex_value c = Some v ->
  (v < 16)%N
  /\ is_StrWhiteSpaceChar c = false
  /\ N.eqb c 45 = false /\ N.eqb c 43 = false
  /\ (N.eqb c 120 || N.eqb c 88) = false.
Proof.
  intros H.
  assert (Hc : (c < 128)%N).
  { unfold JSON.hex_value, is_digit in H.
    destruct (N.leb_spec 48 c), (N.leb_spec c 57); cbn in H; try lia;
      destruct (N.leb_spec 97 c), (N.leb_spec c 102); cbn in H; try lia;
      destruct (N.leb_spec 65 c), (N.leb_spec c 70); cbn in H; try lia;
      discriminate H. }
  assert (Hall : forallb
            (fun c => match JSON.hex_value c with
                      | Some v =>
                          N.ltb v 16 && negb (is_StrWhiteSpaceChar c)
                          && negb (N.eqb c 45) && negb (N.eqb c 43)
                          && negb (N.eqb c 120 || N.eqb c 88)
                      | None => true
                      end) (map N.of_nat (seq 0 128)) = true)
    by (vm_compute; reflexivity).
  rewrite forallb_forall in Hall. specialize (Hall c (in_below_128 c Hc)).
  rewrite H in Hall.
  repeat (apply andb_true_iff in Hall; destruct Hall as [Hall ?]).
  apply N.ltb_lt in Hall.
  repeat match goal with
         | H : negb _ = true |- _ => apply negb_true_iff in H
         end.
  auto.
Qed.

Lemma parseInt16_pair (d1 d2 v1 v2 : N) :
  JSON.hex_value d1 = Some v1 ->
  JSON.hex_value d2 = Some v2 ->
  parseInt16 [d1; d2] = of_Z (Z.of_N (16 * v1 + v2)).
Proof.
  intros H1 H2.
  destruct (hex_value_inv d1 v1 H1) as [Hv1 [Hw [Hm [Hp _]]]].
  destruct (hex_value_inv d2 v2 H2) as [Hv2 [_ [_ [_ Hx]]]].
  unfold parseInt16. cbn [trim_start]. rewrite Hw.
  unfold strip_sign. rewrite Hm, Hp.
  unfold strip_0x. rewrite Hx, andb_false_r.
  cbn [hex_digits]. rewrite H1, H2.
  unfold hex_number. cbn [fold_left].
  replace (((0 * 16 + v1) * 16 + v2)%N) with (16 * v1 + v2)%N by lia.
  destruct (N.eqb_spec (16 * v1 + v2) 0) as [E|E]; [rewrite E|]; reflexivity.
Qed.

(** X16. On a colour written as a mark and six hexadecimal digits,
    whatever follows them, [hexToRgba] prints the three bytes that the
    pairs of digits denote, each from 0 to 255, and then the alpha it
    was given. *)
Theorem hexToRgba_six_digits (Number_toString : number -> jsstring)
    (c0 d1 d2 d3 d4 d5 d6 : N) (rest : jsstring) (v1 v2 v3 v4 v5 v6 : N)
    (alpha : number) :
  JSON.hex_value d1 = Some v1 -> JSON.hex_value d2 = Some v2 ->
  JSON.hex_value d3 = Some v3 -> JSON.hex_value d4 = Some v4 ->
  JSON.hex_value d5 = Some v5 -> JSON.hex_value d6 = Some v6 ->
  let byte hi lo := Z.of_N (16 * hi + lo) in
  hexToRgba Number_toString (c0 :: d1 :: d2 :: d3 :: d4 :: d5 :: d6 :: rest) alpha
  = js "rgba(" ++ Number_toString (of_Z (byte v1 v2))
    ++ js ", " ++ Number_toString (of_Z (byte v3 v4))
    ++ js ", " ++ Number_toString (of_Z (byte v5 v6))
    ++ js ", " ++ Number_toString alpha ++ js ")"
  /\ 0 <= byte v1 v2 <= 255 /\ 0 <= byte v3 v4 <= 255 /\ 0 <= byte v5 v6 <= 255.
Proof.
  intros H1 H2 H3 H4 H5 H6 byte.
  split.
  - unfold hexToRgba, channels, slice. cbn [red green blue skipn firstn Nat.sub].
    rewrite (parseInt16_pair d1 d2 v1 v2 H1 H2),
            (parseInt16_pair d3 d4 v3 v4 H3 H4),
            (parseInt16_pair d5 d6 v5 v6 H5 H6).
    reflexivity.
  - apply hex_value_inv in H1, H2, H3, H4, H5, H6. unfold byte. lia.
Qed.

Lemma hexToRgba_six_digits_witness :
  hexToRgba (fun _ => js "n") (js "#4f46e5") (of_decimal false 1 (-1))
  = js "rgba(n, n, n, n)"
  /\ 0 <= 79 <= 255.
Proof.
  destruct (hexToRgba_six_digits (fun _ => js "n")
              35 52 102 52 54 101 53 [] 4 15 4 6 14 5
              (of_decimal false 1 (-1)))%N as [H [Hr _]];
    try reflexivity.
  split; [exact H|exact Hr].
Defined.

Lemma hex_number_acc (ds : list N) (acc : N) :
  Forall (fun d => (d < 16)%N) ds ->
  (fold_left (fun a d => (a * 16 + d)%N) ds acc
   < (acc + 1) * 16 ^ N.of_nat (List.length ds))%N.
Proof.
  intros H; revert acc; induction H as [|d ds Hd _ IH]; intros acc.
  - cbn. lia.
  - cbn [fold_left List.length]. specialize (IH (acc * 16 + d)%N).
    rewrite Nat2N.inj_succ, N.pow_succ_r'. nia.
Qed.

Lemma hex_digits_below (s : jsstring) :
  Forall (fun d => (d < 16)%N) (hex_digits s)
  /\ (List.length (hex_digits s) <= List.length s)%nat.
Proof.
  induction s as [|c r [IH1 IH2]]; cbn [hex_digits].
  - split; [constructor|apply Nat.le_refl].
  - destruct (JSON.hex_value c) as [v|] eqn:E.
    + apply hex_value_inv in E. split; [constructor; tauto|cbn; lia].
    + split; [constructor|cbn; lia].
Qed.

Lemma trim_start_length (s : jsstring) :
  (List.length (trim_start s) <= List.length s)%nat.
Proof.
  induction s as [|c r IH]; cbn [trim_start]; [apply Nat.le_refl|].
  destruct (is_StrWhiteSpaceChar c); cbn [List.length]; lia.
Qed.

Lemma strip_0x_length (s : jsstring) :
  (List.length (strip_0x s) <= List.length s)%nat.
Proof.
  destruct s as [|c [|x r]]; cbn [strip_0x]; try apply Nat.le_refl.
  destruct (_ && _); cbn [List.length]; lia.
Qed.

Lemma pow16_mono (a b : nat) :
  (a <= b)%nat -> (16 ^ N.of_nat a <= 16 ^ N.of_nat b)%N.
Proof. intros H. apply N.pow_le_mono_r; lia. Qed.

(** What [parseInt(s, 16)] can give on at most two code units. *)
Lemma parseInt16_short (s : jsstring) :
  (List.length s <= 2)%nat -> channel_within (-15) 255 (parseInt16 s).
Proof.
  intros Hs. unfold parseInt16.
  pose proof (trim_start_length s) as Ht.
  destruct (strip_sign (trim_start s)) as [neg t] eqn:Es.
  assert (Hlen : (List.length t + (if neg then 1 else 0) <= 2)%nat).
  { unfold strip_sign in Es. destruct (trim_start s) as [|c r].
    - injection Es as <- <-. cbn. lia.
    - cbn [List.length] in Ht.
      destruct (N.eqb c 45); [injection Es as <- <-; lia|].
      destruct (N.eqb c 43); injection Es as <- <-; cbn [List.length]; lia. }
  pose proof (strip_0x_length t) as Hx.
  destruct (hex_digits_below (strip_0x t)) as [Hall Hd].
  pose proof (hex_number_acc _ 0 Hall) as Hn. fold (hex_number (hex_digits (strip_0x t))) in Hn.
  destruct (hex_digits (strip_0x t)) as [|d ds] eqn:Eh; [left; reflexivity|].
  rewrite <- Eh in *. clear Eh.
  set (n := hex_number (hex_digits (strip_0x t))) in *.
  destruct (N.eqb_spec n 0) as [E0|E0].
  - destruct neg; [right; left; reflexivity|].
    right; right. exists 0. split; [lia|reflexivity].
  - right; right. destruct neg.
    + exists (- Z.of_N n). split; [|reflexivity].
      assert (16 ^ N.of_nat (List.length (hex_digits (strip_0x t))) <= 16 ^ N.of_nat 1)%N
        by (apply pow16_mono; lia).
      change (16 ^ N.of_nat 1)%N with 16%N in *. lia.
    + exists (Z.of_N n). split; [|reflexivity].
      assert (16 ^ N.of_nat (List.length (hex_digits (strip_0x t))) <= 16 ^ N.of_nat 2)%N
        by (apply pow16_mono; lia).
      change (16 ^ N.of_nat 2)%N with 256%N in *. lia.
Qed.

Lemma slice_length (s : jsstring) (a b : nat) :
  (List.length (slice s a b) <= b - a)%nat.
Proof. unfold slice. rewrite length_firstn. lia. Qed.

(** X17. Whatever text [hexToRgba] is given, each channel it reads is
    NaN, or [-0], or an integer from -15 to 255: at most two code units
    are read for a channel, and a sign takes one of them. *)
Theorem channels_range (hex : jsstring) :
  channel_within (-15) 255 (red (channels hex))
  /\ channel_within (-15) 255 (green (channels hex))
  /\ channel_within (-15) 255 (blue (channels hex)).
Proof.
  unfold channels; cbn [red green blue].
  repeat split; apply parseInt16_short;
    (eapply Nat.le_trans; [apply slice_length|cbn; lia]).
Qed.

(** X18. A colour of fewer than six digits loses channels: with at most
    five code units the blue channel is NaN, with at most three the
    green one too, and with at most one all three are. *)
Theorem channels_short_hex (hex : jsstring) :
  ((List.length hex <= 5)%nat -> blue (channels hex) = NaN)
  /\ ((List.length hex <= 3)%nat ->
      green (channels hex) = NaN /\ blue (channels hex) = NaN)
  /\ ((List.length hex <= 1)%nat ->
      red (channels hex) = NaN /\ green (channels hex) = NaN
      /\ blue (channels hex) = NaN).
Proof.
  assert (Hcut : forall a b, (List.length hex <= a)%nat ->
                             parseInt16 (slice hex a b) = NaN).
  { intros a b H. unfold slice. rewrite skipn_all2 by exact H.
    rewrite firstn_nil. reflexivity. }
  unfold channels; cbn [red green blue].
  split; [intros H; apply Hcut; lia|].
  split; intros H; repeat split; apply Hcut; lia.
Qed.

Lemma channels_short_hex_witness :
  channels (js "#fff") = mk_rgb (of_Z 255) (of_Z 15) NaN.
Proof.
  pose proof (proj1 (channels_short_hex (js "#fff"))) as H.
  assert (Hl : (List.length (js "#fff") <= 5)%nat) by (vm_compute; lia).
  specialize (H Hl).
  transitivity (mk_rgb (of_Z 255) (of_Z 15) (blue (channels (js "#fff")))).
  - vm_compute. reflexivity.
  - rewrite H. reflexivity.
Defined.

(** ** Themes *)

(** X19. [toggleTheme] always leaves one of the two themes, written to
    the attribute and to the storage alike and announced by one event.
    The new theme is dark exactly when the current one was light, so a
    theme that is neither becomes light; a second toggle gives back the
    first theme exactly when that was light or dark. *)
Theorem toggleTheme_switches (p : Theme.page) :
  let p1 := Theme.toggleTheme p in
  let new := Theme.getCurrentTheme p1 in
  Theme.data_theme p1 = Some new
  /\ Theme.stored p1 = Some new
  /\ Theme.themechange p1 = Theme.themechange p ++ [new]
  /\ (new = Theme.THEME_DARK <-> Theme.getCurrentTheme p = Theme.THEME_LIGHT)
  /\ (new = Theme.THEME_LIGHT <-> Theme.getCurrentTheme p <> Theme.THEME_LIGHT)
  /\ (Theme.getCurrentTheme (Theme.toggleTheme p1) = Theme.getCurrentTheme p
      <-> Theme.getCurrentTheme p = Theme.THEME_LIGHT
          \/ Theme.getCurrentTheme p = Theme.THEME_DARK).
Proof.
  unfold Theme.toggleTheme, Theme.getCurrentTheme.
  destruct (jsstring_eqb (Theme.or_light (Theme.data_theme p)) Theme.THEME_LIGHT) eqn:E.
  - apply jsstring_eqb_eq in E. rewrite E. cbn.
    intuition (try discriminate; try congruence).
  - assert (Hn : Theme.or_light (Theme.data_theme p) <> Theme.THEME_LIGHT).
    { intros H. apply jsstring_eqb_eq in H. congruence. }
    cbn. intuition (try discriminate; try congruence).
Qed.

(** X20. The theme survives a reload when it is not the empty text:
    after [setTheme], [getStoredTheme] gives the theme back, and
    [initTheme] on the reloaded page puts it on the body again; the
    empty theme comes back as light.  [initTheme] never leaves the
    storage unset or empty. *)
Theorem setTheme_survives_reload (theme : jsstring) (p : Theme.page) :
  let kept := match theme with [] => Theme.THEME_LIGHT | _ => theme end in
  Theme.getStoredTheme (Theme.setTheme theme p) = kept
  /\ Theme.initTheme (Theme.reload (Theme.setTheme theme p))
     = Theme.mk_page (Some kept) (Some kept) [kept]
  /\ Theme.getStoredTheme (Theme.initTheme p) = Theme.getStoredTheme p
  /\ Theme.getStoredTheme p <> [].
Proof.
  assert (Hs : Theme.or_light (Theme.stored p) <> []).
  { destruct (Theme.stored p) as [[|c r]|]; cbn; intros H;
      vm_compute in H; discriminate H. }
  unfold Theme.getStoredTheme, Theme.initTheme, Theme.reload, Theme.setTheme.
  cbn [Theme.stored Theme.themechange app].
  split; [destruct theme; reflexivity|].
  split; [destruct theme; reflexivity|].
  split; [|exact Hs].
  unfold Theme.getStoredTheme.
  destruct (Theme.or_light (Theme.stored p)) as [|c r] eqn:E;
    [contradiction|reflexivity].
Qed.

(** X21. Without the global palette, [getChartColors] gives the dark
    colours exactly when the attribute is the text [dark]; after
    [toggleTheme] that is exactly when the theme before was light.  In
    both fallback palettes the two colours handed to [hexToRgba] yield
    three bytes each. *)
Theorem getChartColors_follows_toggle (p : Theme.page) :
  let colors := Theme.getChartColors None (Theme.toggleTheme p) in
  (Theme.getCurrentTheme p = Theme.THEME_LIGHT ->
   colors = Theme.mk_palette (js "#6366f1") (js "#22c55e") (js "#1f2937")
              (js "#9ca3af") (js "#0f172a")
   /\ channels (Theme.historical colors) = mk_rgb (of_Z 99) (of_Z 102) (of_Z 241)
   /\ channels (Theme.predicted colors) = mk_rgb (of_Z 34) (of_Z 197) (of_Z 94))
  /\ (Theme.getCurrentTheme p <> Theme.THEME_LIGHT ->
      colors = Theme.mk_palette (js "#4f46e5") (js "#10b981") (js "#e5e7eb")
                 (js "#6b7280") (js "#ffffff")
      /\ channels (Theme.historical colors) = mk_rgb (of_Z 79) (of_Z 70) (of_Z 229)
      /\ channels (Theme.predicted colors) = mk_rgb (of_Z 16) (of_Z 185) (of_Z 129)).
Proof.
  unfold Theme.toggleTheme, Theme.getCurrentTheme.
  destruct (jsstring_eqb (Theme.or_light (Theme.data_theme p)) Theme.THEME_LIGHT) eqn:E.
  - apply jsstring_eqb_eq in E. split; [|intros H; contradiction].
    intros _. repeat split; vm_compute; reflexivity.
  - split.
    + intros H. apply jsstring_eqb_eq in H. congruence.
    + intros _. repeat split; vm_compute; reflexivity.
Qed.

Lemma getChartColors_follows_toggle_witness :
  Theme.getChartColors None (Theme.toggleTheme (Theme.mk_page None None []))
  = Theme.mk_palette (js "#6366f1") (js "#22c55e") (js "#1f2937")
      (js "#9ca3af") (js "#0f172a").
Proof.
  apply (proj1 (getChartColors_follows_toggle (Theme.mk_page None None []))).
  reflexivity.
Defined.

(** ** The placeholder series *)

Lemma strict_eq_self (v : number) : v = NaN \/ strict_eq v v = true.
Proof.
  destruct v as [s|s| |s m e]; [right|right|left|right]; try reflexivity.
  - destruct s; reflexivity.
  - unfold strict_eq, SFeqb, SFcompare.
    rewrite Z.compare_refl, Pos.compare_cont_refl. destruct s; reflexivity.
Qed.

Lemma strict_eq_nan (x : number) : strict_eq x NaN = false.
Proof. destruct x; reflexivity. Qed.

Lemma last_number_nulls (l : list cell) (q : nat) :
  last_number (l ++ repeat None q) = last_number l.
Proof.
  induction l as [|c r IH]; cbn [app last_number].
  - induction q as [|q IH]; [reflexivity|]. cbn [repeat last_number].
    rewrite IH. reflexivity.
  - rewrite IH. reflexivity.
Qed.

Lemma last_number_numbers (vs : list number) (v : number) :
  last_number (map Some (vs ++ [v])) = Some v.
Proof.
  induction vs as [|x r IH]; [reflexivity|].
  cbn [app map last_number]. rewrite IH. reflexivity.
Qed.

Lemma lastIndexOf_nulls (k q : nat) (v : number) :
  lastIndexOf_from k (repeat None q) v = None.
Proof.
  revert k; induction q as [|q IH]; intros k; [reflexivity|].
  cbn [repeat lastIndexOf_from]. rewrite IH. reflexivity.
Qed.

Lemma lastIndexOf_last (k : nat) (vs : list number) (v : number) (q : nat) :
  lastIndexOf_from k (map Some (vs ++ [v]) ++ repeat None q) v
  = if strict_eq v v then Some (k + List.length vs)%nat else None.
Proof.
  revert k; induction vs as [|x r IH]; intros k.
  - cbn [app map lastIndexOf_from List.length]. rewrite lastIndexOf_nulls.
    rewrite Nat.add_0_r. reflexivity.
  - cbn [app map lastIndexOf_from List.length]. rewrite (IH (S k)).
    destruct (strict_eq_self v) as [->|E].
    + rewrite !strict_eq_nan. reflexivity.
    + rewrite E. f_equal. lia.
Qed.

Lemma assign_middle (a b : list cell) (x c : cell) :
  assign (List.length a) c (a ++ x :: b) = a ++ c :: b.
Proof.
  induction a as [|y a IH]; [reflexivity|].
  cbn [List.length app assign]. rewrite IH. reflexivity.
Qed.

Lemma rev_seq_S (n : nat) : rev (seq 0 (S n)) = n :: rev (seq 0 n).
Proof. rewrite seq_S, rev_app_distr. reflexivity. Qed.

(** What the loop appends, from the counter [i] down to 0: a label for
    each day, [i - 5] historical numbers and then nulls, and as many
    nulls and then numbers in the predicted array. *)
Lemma turns_appends (random : nat -> number) (day_label : nat -> jsstring)
    (base : number) (i : nat) (st : loop_state) :
  exists vs ws,
    List.length vs = (i - 5)%nat
    /\ List.length ws = Nat.min (S i) 6
    /\ labels (out (turns random day_label base i st))
       = labels (out st) ++ map day_label (rev (seq 0 (S i)))
    /\ historical (out (turns random day_label base i st))
       = historical (out st) ++ map Some vs ++ repeat None (Nat.min (S i) 6)
    /\ predicted (out (turns random day_label base i st))
       = predicted (out st) ++ repeat None (i - 5) ++ map Some ws.
Proof.
  revert st; induction i as [|j IH]; intros st.
  - cbn [turns]. unfold turn. cbn [Nat.ltb Nat.leb out labels historical predicted].
    exists [], [round_to_cents
                  (add (Math_max
                          (add (price st)
                             (mul (sub (random (drawn st)) (of_decimal false 48 (-2)))
                                (of_Z 50)))
                          (mul base (of_decimal false 8 (-1))))
                     (mul (sub (random (S (drawn st))) (of_decimal false 5 (-1)))
                        (of_Z 30)))].
    repeat split; reflexivity.
  - cbn [turns].
    destruct (IH (turn random day_label base (S j) st)) as [vs [ws [Hv [Hw [Hl [Hh Hp]]]]]].
    rewrite Hl, Hh, Hp. rewrite (rev_seq_S (S j)).
    unfold turn. destruct (Nat.ltb_spec 5 (S j)) as [H5|H5];
      cbn [out labels historical predicted].
    + eexists (_ :: vs), ws.
      split; [cbn [List.length]; lia|]. split; [lia|].
      split; [rewrite <- app_assoc; reflexivity|].
      split.
      * rewrite <- app_assoc. cbn [app map].
        replace (Nat.min (S (S j)) 6) with (Nat.min (S j) 6) by lia. reflexivity.
      * rewrite <- app_assoc. cbn [app].
        replace (S j - 5)%nat with (S (j - 5)) by lia. reflexivity.
    + assert (Hvs : vs = []) by (destruct vs; [reflexivity|cbn in Hv; lia]).
      subst vs. eexists [], (_ :: ws).
      split; [lia|]. split; [cbn [List.length]; lia|].
      split; [rewrite <- app_assoc; reflexivity|].
      split.
      * rewrite <- app_assoc. cbn [app map].
        replace (Nat.min (S (S j)) 6) with (S (Nat.min (S j) 6)) by lia.
        reflexivity.
      * rewrite <- app_assoc.
        replace (j - 5)%nat with 0%nat by lia.
        replace (S j - 5)%nat with 0%nat by lia. reflexivity.
Qed.

(** X22. With six days or more, [generateDummyData] labels every day
    from [days] days ago to today, gives the historical line [days - 5]
    numbers and then six nulls, and gives the predicted line nulls, then
    the last historical number at that number's own position, then six
    numbers: the two lines meet in one point.  Only a last historical
    number that is NaN leaves a null there. *)
Theorem generateDummyData_lines_meet (random : nat -> number)
    (day_label : nat -> jsstring) (days : nat) :
  (6 <= days)%nat ->
  exists vs v ws,
    List.length vs = (days - 6)%nat
    /\ List.length ws = 6%nat
    /\ generateDummyData random day_label days
       = mk_series (map day_label (rev (seq 0 (S days))))
           (map Some vs ++ Some v :: repeat None 6)
           (repeat None (days - 6)
            ++ (if strict_eq v v then Some v else None) :: map Some ws).
Proof.
  intros Hd. unfold generateDummyData.
  set (base := add (of_Z 2500) (mul (random 0%nat) (of_Z 500))).
  destruct (turns_appends random day_label base days
              (mk_loop 1 base (mk_series [] [] [])))
    as [vs [ws [Hv [Hw [Hl [Hh Hp]]]]]].
  destruct (out (turns random day_label base days
                   (mk_loop 1 base (mk_series [] [] [])))) as [l h p].
  cbn [out labels historical predicted app] in Hl, Hh, Hp. subst l h p.
  cbn [labels historical predicted].
  replace (Nat.min (S days) 6) with 6%nat in * by lia.
  destruct (exists_last (l := vs)) as [vs0 [v Evs]].
  { intros ->. cbn in Hv. lia. }
  subst vs. rewrite length_app in Hv. cbn [List.length] in Hv.
  exists vs0, v, ws.
  split; [lia|]. split; [exact Hw|].
  rewrite last_number_nulls, last_number_numbers.
  unfold lastIndexOf. rewrite lastIndexOf_last. cbn [Nat.add].
  assert (Hhist : map Some (vs0 ++ [v]) ++ repeat None 6
                  = map Some vs0 ++ Some v :: repeat None 6).
  { rewrite map_app, <- app_assoc. reflexivity. }
  assert (Hpred : repeat None (days - 5) ++ map Some ws
                  = repeat (@None number) (days - 6) ++ None :: map Some ws).
  { replace (days - 5)%nat with ((days - 6) + 1)%nat by lia.
    rewrite repeat_app, <- app_assoc. reflexivity. }
  destruct (strict_eq v v).
  - rewrite Hpred, Hhist.
    replace (List.length vs0) with (List.length (repeat (@None number) (days - 6)))
      by (rewrite repeat_length; lia).
    rewrite assign_middle. reflexivity.
  - rewrite Hpred, Hhist. reflexivity.
Qed.

Lemma generateDummyData_lines_meet_witness :
  exists vs v ws,
    List.length vs = 0%nat
    /\ List.length ws = 6%nat
    /\ generateDummyData (fun _ => of_decimal false 5 (-1))
         (fun i => [N.of_nat i]) 6
       = mk_series (map (fun i => [N.of_nat i]) (rev (seq 0 7)))
           (map Some vs ++ Some v :: repeat None 6)
           (repeat None 0
            ++ (if strict_eq v v then Some v else None) :: map Some ws).
Proof.
  apply (generateDummyData_lines_meet (fun _ => of_decimal false 5 (-1))
           (fun i => [N.of_nat i]) 6).
  lia.
Defined.

(** X23. With five days or fewer there is no historical number at all:
    the historical line is all nulls, every predicted entry is a
    number, and nothing is joined. *)
Theorem generateDummyData_without_history (random : nat -> number)
    (day_label : nat -> jsstring) (days : nat) :
  (days <= 5)%nat ->
  exists ws,
    List.length ws = S days
    /\ generateDummyData random day_label days
       = mk_series (map day_label (rev (seq 0 (S days))))
           (repeat None (S days)) (map Some ws).
Proof.
  intros Hd. unfold generateDummyData.
  set (base := add (of_Z 2500) (mul (random 0%nat) (of_Z 500))).
  destruct (turns_appends random day_label base days
              (mk_loop 1 base (mk_series [] [] [])))
    as [vs [ws [Hv [Hw [Hl [Hh Hp]]]]]].
  destruct (out (turns random day_label base days
                   (mk_loop 1 base (mk_series [] [] [])))) as [l h p].
  cbn [out labels historical predicted app] in Hl, Hh, Hp. subst l h p.
  cbn [labels historical predicted].
  replace (Nat.min (S days) 6) with (S days) in * by lia.
  replace (days - 5)%nat with 0%nat in * by lia.
  assert (Hvs : vs = []) by (destruct vs; [reflexivity|discriminate Hv]).
  subst vs. cbn [map app repeat].
  exists ws. split; [exact Hw|].
  change (None :: repeat None days) with ([] ++ repeat (@None number) (S days)).
  rewrite last_number_nulls. reflexivity.
Qed.

Lemma generateDummyData_without_history_witness :
  exists ws,
    List.length ws = 1%nat
    /\ generateDummyData (fun _ => of_decimal false 5 (-1))
         (fun i => [N.of_nat i]) 0
       = mk_series [[0%N]] [None] (map Some ws).
Proof.
  apply (generateDummyData_without_history (fun _ => of_decimal false 5 (-1))
           (fun i => [N.of_nat i]) 0).
  lia.
Defined.

(** ** Push subscription *)

Lemma try_subscribe_subscribe (key_of_other : json -> option (list N))
    (env : push_env) (key : list N) :
  In (subscribe key) (fst (try_subscribe key_of_other env)) ->
  registers env = true
  /\ (exists data success k,
        vapidData env = Some data
        /\ ServiceWorker.get data (js "success") = Return success
        /\ ServiceWorker.truthy success = true
        /\ ServiceWorker.get data (js "publicKey") = Return (Some k)
        /\ JSON.truthy k = true
        /\ applicationServerKey key_of_other k = Some key)
  /\ (In post_subscription (fst (try_subscribe key_of_other env))
      <-> subscribes env = true).
Proof.
  unfold try_subscribe.
  destruct (registers env); cbn [negb].
  2:{ cbn. intros [H|[]]. discriminate H. }
  destruct (vapidData env) as [data|].
  2:{ cbn. intros [H|[H|[H|[]]]]; discriminate H. }
  destruct (ServiceWorker.get data (js "success")) as [success|e] eqn:Eg.
  2:{ cbn. intros [H|[H|[H|[]]]]; discriminate H. }
  destruct (ServiceWorker.truthy success) eqn:Es.
  2:{ cbn. intros [H|[H|[H|[H|[]]]]]; discriminate H. }
  destruct (ServiceWorker.get data (js "publicKey")) as [[k|]|e] eqn:Ek.
  2,3:cbn; intros [H|[H|[H|[H|[]]]]]; discriminate H.
  destruct (JSON.truthy k) eqn:Et.
  2:{ cbn. intros [H|[H|[H|[H|[]]]]]; discriminate H. }
  destruct (applicationServerKey key_of_other k) as [key'|] eqn:Ea.
  2:{ cbn. intros [H|[H|[H|[]]]]; discriminate H. }
  assert (Hkey : forall rest,
             In (subscribe key)
               ([register_sw;
                 console_call (mk_entry console_log (js "[Push] Service Worker registered"));
                 fetch_vapid_key] ++ subscribe key' :: rest) ->
             (forall x, In x rest -> x <> subscribe key) -> key' = key).
  { intros rest [H|[H|[H|[H|H]]]] Hrest; try discriminate H.
    - injection H as ->. reflexivity.
    - exfalso. exact (Hrest _ H eq_refl). }
  destruct (subscribes env), (posts env); cbn [negb fst]; intros Hin.
  all: assert (key' = key)
         by (apply (Hkey _ Hin); cbn; intros x Hx;
             repeat (destruct Hx as [<-|Hx]; [discriminate|]); destruct Hx).
  all: subst key'; split; [reflexivity|]; split;
         [exists data, success, k; repeat split; assumption|].
  all: split; intros H; cbn in H |- *; try reflexivity; try discriminate H;
         try tauto;
         repeat (destruct H as [H|H]; try discriminate H); destruct H.
Qed.

(** X24. [setupPushNotifications] registers the service worker only with
    the permission granted and push supported, and it calls
    [pushManager.subscribe] only when, besides, the registration
    succeeded and the server's reply has a truthy [success] and a
    truthy [publicKey]; the key it passes is that [publicKey] decoded
    by [urlBase64ToUint8Array].  The subscription is then posted to the
    backend exactly when [subscribe] resolved. *)
Theorem subscribe_only_with_decoded_key (key_of_other : json -> option (list N))
    (env : push_env) (perm : option permission) :
  let after := fst (setupPushNotifications key_of_other env perm) in
  let done := snd (setupPushNotifications key_of_other env perm) in
  (In register_sw done -> after = Some granted /\ push_supported env = true)
  /\ forall key,
       In (subscribe key) done ->
       after = Some granted /\ push_supported env = true
       /\ registers env = true
       /\ (exists data success k,
             vapidData env = Some data
             /\ ServiceWorker.get data (js "success") = Return success
             /\ ServiceWorker.truthy success = true
             /\ ServiceWorker.get data (js "publicKey") = Return (Some k)
             /\ JSON.truthy k = true
             /\ applicationServerKey key_of_other k = Some key)
       /\ (In post_subscription done <-> subscribes env = true).
Proof.
  cbv zeta. unfold setupPushNotifications.
  assert (Hst : forall (b : bool) (t c : jsstring) x,
             In x (if b then [set_status t (Some c)] else []) ->
             exists t' c', x = set_status t' c').
  { intros b t c x H. destruct b; [|destruct H].
    destruct H as [<-|[]]. eauto. }
  assert (Herr : forall (b : bool) x,
             In x (if b then []
                   else [console_call
                           (mk_entry console_error (js "[Push] Setup failed:"))]) ->
             exists e, x = console_call e).
  { intros b x H. destruct b; [destruct H|].
    destruct H as [<-|[]]. eauto. }
  destruct perm as [p0|].
  { set (pa := match p0 with
               | default => (answer env, [requestPermission])
               | _ => (p0, [])
               end).
    assert (Hasked : forall x, In x (snd pa) -> x = requestPermission).
    { unfold pa. destruct p0; cbn; intros x H;
        repeat (destruct H as [H|H]; [subst; reflexivity|]); destruct H. }
    destruct pa as [p asked]. cbn [snd] in Hasked.
    destruct p.
    - destruct (push_supported env).
      + pose proof (try_subscribe_subscribe key_of_other env) as Htry.
        destruct (try_subscribe key_of_other env) as [done ok].
        cbn [fst snd] in *. split; [auto|].
        intros key Hin.
        assert (Hd : In (subscribe key) done).
        { apply in_app_or in Hin. destruct Hin as [Hin|Hin].
          { apply Hasked in Hin. discriminate Hin. }
          apply in_app_or in Hin. destruct Hin as [Hin|Hin].
          { apply Hst in Hin. destruct Hin as [t' [c' Hin]]. discriminate Hin. }
          apply in_app_or in Hin. destruct Hin as [Hin|Hin]; [exact Hin|].
          apply Herr in Hin. destruct Hin as [e Hin]. discriminate Hin. }
        destruct (Htry key Hd) as [Hr [Hk Hp]].
        split; [reflexivity|]. split; [reflexivity|].
        split; [exact Hr|]. split; [exact Hk|].
        rewrite <- Hp. split.
        * intros H. apply in_app_or in H. destruct H as [H|H].
          { apply Hasked in H. discriminate H. }
          apply in_app_or in H. destruct H as [H|H].
          { apply Hst in H. destruct H as [t' [c' H]]. discriminate H. }
          apply in_app_or in H. destruct H as [H|H]; [exact H|].
          apply Herr in H. destruct H as [e H]. discriminate H.
        * intros H. apply in_or_app. right. apply in_or_app. right.
          apply in_or_app. left. exact H.
      + cbn [fst snd]. split.
        * intros H. apply in_app_or in H. destruct H as [H|H].
          { apply Hasked in H. discriminate H. }
          apply Hst in H. destruct H as [t' [c' H]]. discriminate H.
        * intros key H. apply in_app_or in H. destruct H as [H|H].
          { apply Hasked in H. discriminate H. }
          apply Hst in H. destruct H as [t' [c' H]]. discriminate H.
    - cbn [fst snd]. split.
      + intros H. apply in_app_or in H. destruct H as [H|H].
        { apply Hasked in H. discriminate H. }
        apply Hst in H. destruct H as [t' [c' H]]. discriminate H.
      + intros key H. apply in_app_or in H. destruct H as [H|H].
        { apply Hasked in H. discriminate H. }
        apply Hst in H. destruct H as [t' [c' H]]. discriminate H.
    - cbn [fst snd]. split.
      + intros H. apply Hasked in H. discriminate H.
      + intros key H. apply Hasked in H. discriminate H. }
  cbn [fst snd]. split.
  - destruct (statusEl env); cbn; intros H;
      repeat (destruct H as [H|H]; try discriminate H); destruct H.
  - intros key. destruct (statusEl env); cbn; intros H;
      repeat (destruct H as [H|H]; try discriminate H); destruct H.
Qed.

Lemma subscribe_only_with_decoded_key_witness :
  let env :=
    mk_push_env true granted true true
      (Some (JObj [(js "success", JBool true); (js "publicKey", JStr (js "AQAB"))]))
      true true in
  let done := snd (setupPushNotifications (fun _ => None) env (Some default)) in
  In (subscribe [1; 0; 1]%N) done
  /\ In post_subscription done.
Proof.
  cbv zeta.
  set (env := mk_push_env true granted true true
                (Some (JObj [(js "success", JBool true);
                             (js "publicKey", JStr (js "AQAB"))]))
                true true).
  assert (Hin : In (subscribe [1; 0; 1]%N)
                  (snd (setupPushNotifications (fun _ => None) env (Some default)))).
  { vm_compute. tauto. }
  split; [exact Hin|].
  destruct (proj2 (subscribe_only_with_decoded_key (fun _ => None) env (Some default))
              [1; 0; 1]%N Hin) as [_ [_ [_ [_ Hp]]]].
  apply Hp. reflexivity.
Defined.

(** X25. A [publicKey] that [urlBase64ToUint8Array] cannot decode never
    reaches [pushManager.subscribe]: with the permission granted, push
    supported, the worker registered and a reply with a truthy
    [success], the exception is caught, the only trace of it is one
    [console.error], and nothing is posted to the backend. *)
Theorem undecodable_key_is_only_logged (key_of_other : json -> option (list N))
    (env : push_env) (perm : option permission)
    (members : list (jsstring * json)) (success : json) (s : jsstring) :
  perm = Some granted \/ (perm = Some default /\ answer env = granted) ->
  push_supported env = true ->
  registers env = true ->
  vapidData env = Some (JObj members) ->
  JSON.lookup (js "success") members = Some success ->
  JSON.truthy success = true ->
  JSON.lookup (js "publicKey") members = Some (JStr s) ->
  urlBase64ToUint8Array s = None ->
  setupPushNotifications key_of_other env perm
  = (Some granted,
     match perm with
     | Some default => [requestPermission]
     | _ => []
     end
     ++ (if statusEl env
         then [set_status (js "Notifications Enabled")
                 (Some (js "status-badge active"))]
         else [])
     ++ [ register_sw;
          console_call (mk_entry console_log (js "[Push] Service Worker registered"));
          fetch_vapid_key;
          console_call (mk_entry console_error (js "[Push] Setup failed:")) ]).
Proof.
  intros Hperm Hs Hr Hv Hsucc Htrue Hk Hbad.
  assert (Hne : JSON.truthy (JStr s) = true).
  { destruct s; [vm_compute in Hbad; discriminate Hbad|reflexivity]. }
  assert (Htry : try_subscribe key_of_other env
                 = ([ register_sw;
                      console_call
                        (mk_entry console_log (js "[Push] Service Worker registered"));
                      fetch_vapid_key ], false)).
  { unfold try_subscribe. rewrite Hr, Hv. cbn [negb ServiceWorker.get].
    rewrite Hsucc, Hk. cbn [ServiceWorker.truthy]. rewrite Htrue, Hne.
    cbn [applicationServerKey]. rewrite Hbad. reflexivity. }
  unfold setupPushNotifications.
  destruct Hperm as [->|[-> Ha]]; [|rewrite Ha]; rewrite Hs, Htry; reflexivity.
Qed.

Lemma undecodable_key_is_only_logged_witness :
  setupPushNotifications (fun _ => None)
    (mk_push_env false granted true true
       (Some (JObj [(js "success", JBool true); (js "publicKey", JStr (js "A"))]))
       true true)
    (Some granted)
  = (Some granted,
     [ register_sw;
       console_call (mk_entry console_log (js "[Push] Service Worker registered"));
       fetch_vapid_key;
       console_call (mk_entry console_error (js "[Push] Setup failed:")) ]).
Proof.
  apply (undecodable_key_is_only_logged (fun _ => None)
           (mk_push_env false granted true true
              (Some (JObj [(js "success", JBool true);
                           (js "publicKey", JStr (js "A"))]))
              true true)
           (Some granted)
           [(js "success", JBool true); (js "publicKey", JStr (js "A"))]
           (JBool true) (js "A"));
    try reflexivity.
  left. reflexivity.
Defined.

(** ** The sign-ups chart *)

(** X26. For a month from 0 to 11, [generateSignupsData] labels the six
    months that end with the current one, in order and around the turn
    of the year: the label of position [k] is the name of the month
    [currentMonth - 5 + k] modulo 12, so no label is [undefined] and the
    last one names the current month.  There are six values as well. *)
Theorem generateSignupsData_months (currentMonth : Z) (random : nat -> number) :
  0 <= currentMonth <= 11 ->
  fst (generateSignupsData currentMonth random)
  = map (fun k => nth_error months (Z.to_nat ((currentMonth - 5 + k) mod 12)))
      [0; 1; 2; 3; 4; 5]
  /\ Forall (fun l => l <> None) (fst (generateSignupsData currentMonth random))
  /\ last (fst (generateSignupsData currentMonth random)) None
     = nth_error months (Z.to_nat currentMonth)
  /\ List.length (snd (generateSignupsData currentMonth random)) = 6%nat.
Proof.
  intros H.
  assert (Hm : In currentMonth [0; 1; 2; 3; 4; 5; 6; 7; 8; 9; 10; 11]).
  { cbn. lia. }
  unfold generateSignupsData. cbn [map fst snd List.length].
  split; [|split; [|split; [|reflexivity]]];
    cbn in Hm; repeat (destruct Hm as [<-|Hm]; [vm_compute|]); try destruct Hm;
    try reflexivity;
    repeat constructor; discriminate.
Qed.

Lemma generateSignupsData_months_witness :
  fst (generateSignupsData 1 (fun _ => S754_zero false))
  = map (fun s => Some (js s)) ["Sep"; "Oct"; "Nov"; "Dec"; "Jan"; "Feb"]%string.
Proof.
  destruct (generateSignupsData_months 1 (fun _ => S754_zero false)) as [H _];
    [lia|].
  rewrite H. vm_compute. reflexivity.
Defined.
